(** * The e-mail ingestion pipeline: store, state file, mailbox path and
      push endpoint

    A shallow embedding of [database.js], [state-manager.js],
    [email-processor.js], [imap-client.js], [imap-monitor.js],
    [webhook-server.js] and the restart loop of [tunnel.js], and the
    properties of the ingestion pipeline proved or refuted on it.

    - A JavaScript object is a finite map from property names to values;
      a string is a sequence of 8-bit code units; a number is an integer
      of magnitude below 10^15, which SQLite writes into a TEXT column
      digit by digit.
    - A function that can throw returns a [result] next to the state it
      leaves behind, so that [try]/[catch] sees the writes that happened
      before the exception.
    - The SQLite file is a finite map from table names to tables with
      their declared columns, and a map of indexes; statements check the
      constraints the schema declares (NOT NULL, PRIMARY KEY) and the
      names they create, and a transaction is the content to restore.
    - The mail server, mailparser and the clock are a [Host]; the file
      system is a finite map from paths to contents.  Input and output
      never fail by themselves (no full disk, no lock): a statement or a
      file operation fails only for a reason the model holds.
    - The events of the connection are handled one after the other. *)

From Stdlib Require Import ZArith String Ascii List Lia Bool.
From stdpp Require Import base gmap strings list pretty sorting.

Local Open Scope string_scope.
Local Open Scope list_scope.

(** ** Exceptions over a mutable state *)

Inductive result (A : Type) : Type :=
  | Ok (a : A)
  | Throw (msg : string).
Arguments Ok {A} a.
Arguments Throw {A} msg.

(** A computation over a state [S]: the state is returned in both cases,
    as a JavaScript exception does not undo earlier writes. *)
Definition M (S A : Type) : Type := S -> result A * S.

Definition ret {S A} (a : A) : M S A := fun s => (Ok a, s).

Definition throw {S A} (msg : string) : M S A := fun s => (Throw msg, s).

Definition bind {S A B} (m : M S A) (k : A -> M S B) : M S B :=
  fun s => match m s with
           | (Ok a, s') => k a s'
           | (Throw e, s') => (Throw e, s')
           end.

(** [try { m } catch (error) { h error.message }] *)
Definition try_catch {S A} (m : M S A) (h : string -> M S A) : M S A :=
  fun s => match m s with
           | (Ok a, s') => (Ok a, s')
           | (Throw e, s') => h e s'
           end.

Definition lift_result {S A} (r : result A) : M S A := fun s => (r, s).

Notation "'let*' x ':=' m 'in' k" := (bind m (fun x => k))
  (at level 10, x name, m at level 100, k at level 200).
Notation "m '>>' k" := (bind m (fun _ => k))
  (at level 190, right associativity).

(** ** JavaScript values *)

(** Numbers are the integers of magnitude below 10^15 (IMAP uids,
    counters); objects other than the records modelled below as maps are
    opaque. *)
Inductive jsval : Type :=
  | JUndefined
  | JNull
  | JBool (b : bool)
  | JNum (z : Z)
  | JStr (s : string)
  | JObject.

Global Instance jsval_eq_dec : EqDecision jsval.
Proof. solve_decision. Defined.

(** A JavaScript object with own enumerable properties. *)
Abbreviation jsobj := (gmap string jsval).

(** [o.k]: a missing property reads as [undefined]. *)
Definition prop (o : jsobj) (k : string) : jsval := default JUndefined (o !! k).

(** Does [o] have the own property [k]: the test behind
    [Object.prototype.hasOwnProperty], and [k in o] for a name that no
    prototype has. *)
Definition hasOwnProperty (o : jsobj) (k : string) : bool :=
  match o !! k with Some _ => true | None => false end.

Definition truthy (v : jsval) : bool :=
  match v with
  | JUndefined | JNull => false
  | JBool b => b
  | JNum z => negb (z =? 0)%Z
  | JStr s => negb (s =? "")
  | JObject => true
  end.

(** [a || b] *)
Definition js_or (a b : jsval) : jsval := if truthy a then a else b.

Definition typeof (v : jsval) : string :=
  match v with
  | JUndefined => "undefined"
  | JNull => "object"
  | JBool _ => "boolean"
  | JNum _ => "number"
  | JStr _ => "string"
  | JObject => "object"
  end.

Definition is_string (v : jsval) : bool :=
  match v with JStr _ => true | _ => false end.

(** [String(v)] *)
Definition js_String (v : jsval) : string :=
  match v with
  | JUndefined => "undefined"
  | JNull => "null"
  | JBool true => "true"
  | JBool false => "false"
  | JNum z => pretty z
  | JStr s => s
  | JObject => "[object Object]"
  end.

(** White space and line terminators of [String.prototype.trim] and of the
    regular expression class [\s], among 8-bit code units. *)
Definition is_space (c : ascii) : bool :=
  let n := nat_of_ascii c in
  (n =? 9)%nat || (n =? 10)%nat || (n =? 11)%nat || (n =? 12)%nat
  || (n =? 13)%nat || (n =? 32)%nat || (n =? 160)%nat.

Fixpoint trim_start (s : string) : string :=
  match s with
  | EmptyString => EmptyString
  | String c s' => if is_space c then trim_start s' else s
  end.

Fixpoint all_space (s : string) : bool :=
  match s with
  | EmptyString => true
  | String c s' => is_space c && all_space s'
  end.

Fixpoint trim_end (s : string) : string :=
  match s with
  | EmptyString => EmptyString
  | String c s' => if all_space s then EmptyString else String c (trim_end s')
  end.

(** [s.trim()] *)
Definition trim (s : string) : string := trim_end (trim_start s).

(** [s.includes(sub)] *)
Fixpoint includes (s sub : string) : bool :=
  String.prefix sub s ||
  match s with
  | EmptyString => false
  | String _ s' => includes s' sub
  end.

(** [JSON.parse(JSON.stringify(o))] for a flat object: properties whose
    value is [undefined] are not written. *)
Definition json_roundtrip (o : jsobj) : jsobj :=
  filter (fun kv => kv.2 <> JUndefined) o.

(** ** The SQLite database file *)

(** A stored value.  better-sqlite3 binds a JavaScript number as a REAL;
    [VReal z] is the REAL of integral value [z]. *)
Inductive sqlval : Type :=
  | VNull
  | VInt (z : Z)
  | VReal (z : Z)
  | VText (s : string).

Global Instance sqlval_eq_dec : EqDecision sqlval.
Proof. solve_decision. Defined.

(** One line of [PRAGMA table_info]. *)
Record column : Type := Column {
  col_name : string;
  col_type : string;
  col_notnull : bool;
  col_pk : bool
}.

(** A table: its columns and its rows in insertion order, each row
    aligned with the columns. *)
Record table : Type := Table {
  t_cols : list column;
  t_rows : list (list sqlval)
}.

(** The file holds tables and indexes (index name to table and column);
    [db_txn] is the content at [BEGIN] while a transaction is open, which
    is what [ROLLBACK] restores. *)
Record Database : Type := mkDatabase {
  db_open : bool;
  db_tables : gmap string table;
  db_indexes : gmap string (string * string);
  db_txn : option (gmap string table * gmap string (string * string))
}.

Definition set_content (ts : gmap string table)
    (ix : gmap string (string * string)) (db : Database) : Database :=
  mkDatabase (db_open db) ts ix (db_txn db).

Definition set_tables (ts : gmap string table) (db : Database) : Database :=
  set_content ts (db_indexes db) db.

(** Every statement of a closed handle throws. *)
Definition with_open {A} (m : M Database A) : M Database A :=
  fun db => if db_open db then m db
            else (Throw "The database connection is not open", db).

Definition sql_begin : M Database unit :=
  with_open (fun db =>
    match db_txn db with
    | Some _ => (Throw "cannot start a transaction within a transaction", db)
    | None => (Ok tt, mkDatabase (db_open db) (db_tables db) (db_indexes db)
                        (Some (db_tables db, db_indexes db)))
    end).

Definition sql_commit : M Database unit :=
  with_open (fun db =>
    match db_txn db with
    | None => (Throw "cannot commit - no transaction is active", db)
    | Some _ => (Ok tt, mkDatabase (db_open db) (db_tables db) (db_indexes db) None)
    end).

Definition sql_rollback : M Database unit :=
  with_open (fun db =>
    match db_txn db with
    | None => (Throw "cannot rollback - no transaction is active", db)
    | Some (ts, ix) => (Ok tt, mkDatabase (db_open db) ts ix None)
    end).

(** [SELECT name FROM sqlite_master WHERE type='table' AND name=?] *)
Definition sql_table_exists (name : string) : M Database bool :=
  with_open (fun db =>
    (Ok (match db_tables db !! name with Some _ => true | None => false end), db)).

(** [PRAGMA table_info(name)]: no row for a missing table. *)
Definition sql_table_info (name : string) : M Database (list column) :=
  with_open (fun db =>
    (Ok (match db_tables db !! name with Some t => t_cols t | None => [] end), db)).

(** [SELECT COUNT( * ) FROM name] *)
Definition sql_count (name : string) : M Database nat :=
  with_open (fun db =>
    match db_tables db !! name with
    | None => (Throw ("no such table: " +:+ name), db)
    | Some t => (Ok (length (t_rows t)), db)
    end).

(** [CREATE TABLE [IF NOT EXISTS] name (cols)] *)
Definition sql_create_table (if_not_exists : bool) (name : string)
    (cols : list column) : M Database unit :=
  with_open (fun db =>
    match db_tables db !! name with
    | Some _ =>
        if if_not_exists then (Ok tt, db)
        else (Throw ("table " +:+ name +:+ " already exists"), db)
    | None =>
        match db_indexes db !! name with
        | Some _ => (Throw ("there is already an index named " +:+ name), db)
        | None => (Ok tt, set_tables (<[name := Table cols []]> (db_tables db)) db)
        end
    end).

(** Position of a column, by name. *)
Fixpoint col_index (cols : list column) (name : string) : option nat :=
  match cols with
  | [] => None
  | c :: cols' =>
      if col_name c =? name then Some 0%nat
      else option_map S (col_index cols' name)
  end.

Definition has_column (cols : list column) (name : string) : bool :=
  match col_index cols name with Some _ => true | None => false end.

(** The value a row holds in the column called [name]. *)
Definition cell (cols : list column) (name : string) (row : list sqlval)
    : option sqlval :=
  match col_index cols name with
  | Some i => row !! i
  | None => None
  end.

(** A TEXT column stores a number as its text: the digits of an
    INTEGER, the digits followed by [.0] for a REAL of integral value,
    which is how SQLite prints fifteen significant digits or fewer.  Only
    this affinity is applied: the tables this program writes to have
    TEXT columns only. *)
Definition text_of (v : sqlval) : sqlval :=
  match v with
  | VNull => VNull
  | VInt z => VText (pretty z)
  | VReal z => VText (pretty z +:+ ".0")
  | VText s => VText s
  end.

Definition apply_affinity (ty : string) (v : sqlval) : sqlval :=
  if ty =? "TEXT" then text_of v else v.

Definition is_null (v : sqlval) : bool :=
  match v with VNull => true | _ => false end.

(** The first NOT NULL column that [row] leaves NULL. *)
Fixpoint notnull_violation (cols : list column) (row : list sqlval)
    : option string :=
  match cols, row with
  | c :: cols', v :: row' =>
      if col_notnull c && is_null v then Some (col_name c)
      else notnull_violation cols' row'
  | _, _ => None
  end.

(** Does some stored row hold [v] at position [i]?  NULL equals nothing. *)
Definition holds_at (i : nat) (v : sqlval) (rows : list (list sqlval)) : bool :=
  negb (is_null v) && existsb (fun r => bool_decide (r !! i = Some v)) rows.

(** The first PRIMARY KEY column in which [row] repeats a stored value;
    [i] is the position of the head of [cols]. *)
Fixpoint unique_violation (i : nat) (cols : list column)
    (rows : list (list sqlval)) (row : list sqlval) : option string :=
  match cols with
  | [] => None
  | c :: cols' =>
      if col_pk c && holds_at i (default VNull (row !! i)) rows
      then Some (col_name c)
      else unique_violation (S i) cols' rows row
  end.

(** One row appended, if the constraints allow it. *)
Definition insert_row (tname : string) (t : table) (row : list sqlval)
    : result table :=
  match notnull_violation (t_cols t) row with
  | Some c => Throw ("NOT NULL constraint failed: " +:+ tname +:+ "." +:+ c)
  | None =>
      match unique_violation 0 (t_cols t) (t_rows t) row with
      | Some c => Throw ("UNIQUE constraint failed: " +:+ tname +:+ "." +:+ c)
      | None => Ok (Table (t_cols t) (t_rows t ++ [row]))
      end
  end.

Fixpoint insert_rows (tname : string) (t : table) (rows : list (list sqlval))
    : result table :=
  match rows with
  | [] => Ok t
  | r :: rows' =>
      match insert_row tname t r with
      | Ok t' => insert_rows tname t' rows'
      | Throw e => Throw e
      end
  end.

(** What better-sqlite3 binds for a JavaScript argument; booleans and
    objects are refused with a TypeError. *)
Definition bind_value (v : jsval) : result sqlval :=
  match v with
  | JUndefined | JNull => Ok VNull
  | JNum z => Ok (VReal z)
  | JStr s => Ok (VText s)
  | JBool _ | JObject =>
      Throw "SQLite3 can only bind numbers, strings, bigints, buffers, and null"
  end.

Fixpoint bind_values (vs : list jsval) : result (list sqlval) :=
  match vs with
  | [] => Ok []
  | v :: vs' =>
      match bind_value v with
      | Throw e => Throw e
      | Ok b =>
          match bind_values vs' with
          | Throw e => Throw e
          | Ok bs => Ok (b :: bs)
          end
      end
  end.

(** The column type of [name], the empty string when there is none. *)
Definition type_of_column (cols : list column) (name : string) : string :=
  match find (fun c => col_name c =? name) cols with
  | Some c => col_type c
  | None => ""
  end.

(** The rows of [t] whose column [cname] equals the bound argument; the
    argument takes the affinity of the column before the comparison. *)
Definition rows_where_eq (t : table) (cname : string) (arg : sqlval)
    : list (list sqlval) :=
  let v := apply_affinity (type_of_column (t_cols t) cname) arg in
  filter (fun r => v <> VNull /\ cell (t_cols t) cname r = Some v) (t_rows t).

(** [db.prepare('SELECT ... FROM tname WHERE cname = ?').all(arg)]:
    the statement is compiled, then the argument bound, then run. *)
Definition sql_select_where_eq (tname cname : string) (arg : jsval)
    : M Database (list (list sqlval)) :=
  with_open (fun db =>
    match db_tables db !! tname with
    | None => (Throw ("no such table: " +:+ tname), db)
    | Some t =>
        if negb (has_column (t_cols t) cname)
        then (Throw ("no such column: " +:+ cname), db)
        else match bind_value arg with
             | Throw e => (Throw e, db)
             | Ok v => (Ok (rows_where_eq t cname v), db)
             end
    end).

(** The value given to column [name] by [INSERT INTO t (names) VALUES
    (vals)]; a column that is not named receives NULL. *)
Fixpoint assigned (names : list string) (vals : list sqlval) (name : string)
    : sqlval :=
  match names, vals with
  | n :: names', v :: vals' =>
      if n =? name then v else assigned names' vals' name
  | _, _ => VNull
  end.

(** [db.prepare('INSERT INTO tname (names) VALUES (?, ...)').run(args)] *)
Definition sql_insert (tname : string) (names : list string)
    (args : list jsval) : M Database unit :=
  with_open (fun db =>
    match db_tables db !! tname with
    | None => (Throw ("no such table: " +:+ tname), db)
    | Some t =>
        match find (fun n => negb (has_column (t_cols t) n)) names with
        | Some n =>
            (Throw ("table " +:+ tname +:+ " has no column named " +:+ n), db)
        | None =>
            match bind_values args with
            | Throw e => (Throw e, db)
            | Ok vals =>
                let row := map (fun c => apply_affinity (col_type c)
                                           (assigned names vals (col_name c)))
                               (t_cols t) in
                match insert_row tname t row with
                | Throw e => (Throw e, db)
                | Ok t' => (Ok tt, set_tables (<[tname := t']> (db_tables db)) db)
                end
            end
        end
    end).

(** The result columns of the SELECT that feeds the migration. *)
Inductive sel_expr : Type :=
  | SCol (name : string)
  | SCastText (name : string)
  | SLit (v : sqlval).

Definition expr_column (e : sel_expr) : option string :=
  match e with
  | SCol n | SCastText n => Some n
  | SLit _ => None
  end.

Definition eval_expr (cols : list column) (row : list sqlval) (e : sel_expr)
    : sqlval :=
  match e with
  | SCol n => default VNull (cell cols n row)
  | SCastText n => text_of (default VNull (cell cols n row))
  | SLit v => v
  end.

(** The first column an expression names that the table lacks. *)
Definition missing_column (cols : list column) (exprs : list sel_expr)
    : option string :=
  match find (fun e => match expr_column e with
                       | Some n => negb (has_column cols n)
                       | None => false
                       end) exprs with
  | Some e => expr_column e
  | None => None
  end.

(** [INSERT INTO dst SELECT exprs FROM src]: positional, all rows or, on
    the first violated constraint, none. *)
Definition sql_insert_select (dst : string) (exprs : list sel_expr)
    (src : string) : M Database unit :=
  with_open (fun db =>
    match db_tables db !! dst, db_tables db !! src with
    | None, _ => (Throw ("no such table: " +:+ dst), db)
    | _, None => (Throw ("no such table: " +:+ src), db)
    | Some td, Some ts =>
        match missing_column (t_cols ts) exprs with
        | Some n => (Throw ("no such column: " +:+ n), db)
        | None =>
            if negb (length exprs =? length (t_cols td))%nat
            then (Throw ("table " +:+ dst +:+ " has " +:+ pretty (length (t_cols td))
                         +:+ " columns but " +:+ pretty (length exprs)
                         +:+ " values were supplied"), db)
            else
              let rows :=
                map (fun r => zip_with (fun c e => apply_affinity (col_type c)
                                                     (eval_expr (t_cols ts) r e))
                                       (t_cols td) exprs)
                    (t_rows ts) in
              match insert_rows dst td rows with
              | Throw e => (Throw e, db)
              | Ok td' => (Ok tt, set_tables (<[dst := td']> (db_tables db)) db)
              end
        end
    end).

(** [DROP TABLE name]: its indexes go with it. *)
Definition sql_drop_table (name : string) : M Database unit :=
  with_open (fun db =>
    match db_tables db !! name with
    | None => (Throw ("no such table: " +:+ name), db)
    | Some _ =>
        (Ok tt, set_content (delete name (db_tables db))
                  (filter (fun kv => kv.2.1 <> name) (db_indexes db)) db)
    end).

(** [ALTER TABLE old RENAME TO new]: its indexes follow it. *)
Definition sql_rename_table (old new : string) : M Database unit :=
  with_open (fun db =>
    match db_tables db !! old with
    | None => (Throw ("no such table: " +:+ old), db)
    | Some t =>
        match db_tables db !! new, db_indexes db !! new with
        | None, None =>
            (Ok tt, set_content (<[new := t]> (delete old (db_tables db)))
                      ((fun tc : string * string =>
                          if tc.1 =? old then (new, tc.2) else tc)
                       <$> db_indexes db) db)
        | _, _ =>
            (Throw ("there is already another table or index with this name: "
                    +:+ new), db)
        end
    end).

(** [CREATE INDEX [IF NOT EXISTS] iname ON tname(cname)] *)
Definition sql_create_index (if_not_exists : bool) (iname tname cname : string)
    : M Database unit :=
  with_open (fun db =>
    match db_tables db !! tname with
    | None => (Throw ("no such table: main." +:+ tname), db)
    | Some t =>
        match db_tables db !! iname, db_indexes db !! iname with
        | Some _, _ => (Throw ("there is already a table named " +:+ iname), db)
        | None, Some _ =>
            if if_not_exists then (Ok tt, db)
            else (Throw ("index " +:+ iname +:+ " already exists"), db)
        | None, None =>
            if negb (has_column (t_cols t) cname)
            then (Throw ("no such column: " +:+ cname), db)
            else (Ok tt, set_content (db_tables db)
                           (<[iname := (tname, cname)]> (db_indexes db)) db)
        end
    end).

(** ** database.js *)

(** The current layout of [emails], as [initDatabase] and the migration
    create it. *)
Definition current_columns : list column :=
  [ Column "id" "TEXT" true true;
    Column "thread_id" "TEXT" true false;
    Column "received_at" "TEXT" true false;
    Column "downloaded_at" "TEXT" true false;
    Column "from_address" "TEXT" true false;
    Column "to_address" "TEXT" true false;
    Column "cc_address" "TEXT" false false;
    Column "subject" "TEXT" true false;
    Column "labels" "TEXT" true false;
    Column "body" "TEXT" true false ].

Definition needsMigration : M Database bool :=
  try_catch
    (let* tableExists := sql_table_exists "emails" in
     if negb tableExists then ret false
     else
       let* tableInfo := sql_table_info "emails" in
       let idColumn := find (fun col => col_name col =? "id") tableInfo in
       let hasThreadId := existsb (fun col => col_name col =? "thread_id") tableInfo in
       ret (match idColumn with
            | Some col => (col_type col =? "INTEGER") && negb hasThreadId
            | None => false
            end))
    (fun _ => ret false).

(** The SELECT list of the copy: the identifier as text, an empty thread,
    the other columns by name. *)
Definition migration_select : list sel_expr :=
  [ SCastText "id"; SLit (VText ""); SCol "received_at"; SCol "downloaded_at";
    SCol "from_address"; SCol "to_address"; SCol "cc_address"; SCol "subject";
    SCol "labels"; SCol "body" ].

(** The three [db.exec] calls of [migrateSchema]; [exec] stops at the
    first statement that fails and leaves a transaction it began open. *)
Definition migration_copy : M Database unit :=
  sql_begin >>
  sql_create_table false "emails_new" current_columns >>
  sql_insert_select "emails_new" migration_select "emails" >>
  sql_commit.

Definition migration_swap : M Database unit :=
  sql_begin >>
  sql_drop_table "emails" >>
  sql_rename_table "emails_new" "emails" >>
  sql_commit.

Definition migration_indexes : M Database unit :=
  sql_create_index false "idx_downloaded_at" "emails" "downloaded_at" >>
  sql_create_index false "idx_from_address" "emails" "from_address" >>
  sql_create_index false "idx_thread_id" "emails" "thread_id".

Definition migrateSchema : M Database unit :=
  try_catch
    (let* oldCount := sql_count "emails" in
     migration_copy >>
     let* newCount := sql_count "emails_new" in
     if negb (oldCount =? newCount)%nat
     then throw ("Migration validation failed: old count (" +:+ pretty oldCount
                 +:+ ") != new count (" +:+ pretty newCount +:+ ")")
     else
       migration_swap >>
       migration_indexes)
    (fun e =>
       try_catch sql_rollback (fun _ => ret tt) >>
       throw ("Schema migration failed: " +:+ e)).

(** [new Database(dbPath)]: a handle on the file, outside any transaction. *)
Definition open_database : M Database unit :=
  fun db => (Ok tt, mkDatabase true (db_tables db) (db_indexes db) None).

(** [initDatabase(dbPath)], on the content of the file at [dbPath]; the
    handle it returns is the resulting state. *)
Definition initDatabase : M Database unit :=
  try_catch
    (open_database >>
     let* migrate := needsMigration in
     (if migrate then migrateSchema else ret tt) >>
     sql_create_table true "emails" current_columns >>
     sql_create_index true "idx_downloaded_at" "emails" "downloaded_at" >>
     sql_create_index true "idx_from_address" "emails" "from_address" >>
     sql_create_index true "idx_thread_id" "emails" "thread_id")
    (fun e => throw ("Database initialization failed: " +:+ e)).

Definition email_columns : list string :=
  [ "id"; "thread_id"; "received_at"; "downloaded_at"; "from_address";
    "to_address"; "cc_address"; "subject"; "labels"; "body" ].

(** The arguments of [stmt.run] in [storeEmail]. *)
Definition email_args (email : jsobj) : list jsval :=
  [ prop email "id";
    js_or (prop email "thread_id") (JStr "");
    prop email "received_at";
    prop email "downloaded_at";
    prop email "from_address";
    prop email "to_address";
    prop email "cc_address";
    prop email "subject";
    prop email "labels";
    prop email "body" ].

(** [storeEmail(db, email)]: [true] if stored, [false] if duplicate. *)
Definition storeEmail (email : jsobj) : M Database bool :=
  try_catch
    (let* found := sql_select_where_eq "emails" "id" (prop email "id") in
     match found with
     | _ :: _ => ret false
     | [] =>
         sql_insert "emails" email_columns (email_args email) >>
         ret true
     end)
    (fun e => throw ("Email insertion failed: " +:+ e)).

(** [getEmailById(db, id)]: the row, or [null]. *)
Definition getEmailById (id : jsval) : M Database (option (list sqlval)) :=
  try_catch
    (let* found := sql_select_where_eq "emails" "id" id in
     ret (head found))
    (fun e => throw ("Email query failed: " +:+ e)).

Definition countEmails : M Database nat :=
  try_catch (sql_count "emails")
    (fun e => throw ("Email count failed: " +:+ e)).

(** [closeDatabase(db)] *)
Definition closeDatabase : M Database unit :=
  fun db => (Ok tt, match db_txn db with
                    | Some (ts, ix) => mkDatabase false ts ix None
                    | None => mkDatabase false (db_tables db) (db_indexes db) None
                    end).

(** ** state-manager.js *)

(** What a file holds: the JSON text of an object, kept as the object
    [JSON.parse] gives back, or any other text. *)
Inductive fcontent : Type :=
  | FJson (o : jsobj)
  | FText (text : string).

Abbreviation files := (gmap string fcontent).

Definition INITIAL_STATE : jsobj :=
  list_to_map
    [ ("last_uid", JNum 0);
      ("last_uid_received_at", JStr "1970-01-01T00:00:00.000Z");
      ("last_connected_at", JStr "1970-01-01T00:00:00.000Z");
      ("last_error", JNull);
      ("connection_status", JStr "disconnected") ].

Definition required_state_fields : list string :=
  [ "last_uid"; "last_uid_received_at"; "last_connected_at"; "last_error";
    "connection_status" ].

Definition validStatuses : list string :=
  [ "connected"; "reconnecting"; "disconnected" ].

(** [Number.isInteger(v) && v >= 0] *)
Definition nonneg_integer (v : jsval) : bool :=
  match v with JNum z => (0 <=? z)%Z | _ => false end.

(** [list.includes(v)] for a list of strings *)
Definition includes_value (l : list string) (v : jsval) : bool :=
  match v with JStr s => existsb (String.eqb s) l | _ => false end.

(** [v && typeof v === 'string'] *)
Definition nonempty_string (v : jsval) : bool := truthy v && is_string v.

Definition validateState (state : jsobj) : result jsobj :=
  match find (fun field => negb (hasOwnProperty state field)) required_state_fields with
  | Some field => Throw ("Missing required field: " +:+ field)
  | None =>
      if negb (nonneg_integer (prop state "last_uid"))
      then Throw "last_uid must be a non-negative integer"
      else if negb (includes_value validStatuses (prop state "connection_status"))
      then Throw "connection_status must be one of: connected, reconnecting, disconnected"
      else if negb (nonempty_string (prop state "last_uid_received_at"))
      then Throw "last_uid_received_at must be a valid ISO 8601 string"
      else if negb (nonempty_string (prop state "last_connected_at"))
      then Throw "last_connected_at must be a valid ISO 8601 string"
      else if negb (bool_decide (prop state "last_error" = JNull))
               && negb (is_string (prop state "last_error"))
      then Throw "last_error must be a string or null"
      else Ok state
  end.

Definition readState (stateFilePath : string) : M files jsobj :=
  try_catch
    (fun fs =>
       match fs !! stateFilePath with
       | None => (Throw ("ENOENT: no such file or directory, open '"
                         +:+ stateFilePath +:+ "'"), fs)
       | Some (FText _) => (Throw "Unexpected token in JSON", fs)
       | Some (FJson state) => (validateState state, fs)
       end)
    (fun e => throw ("State read failed: " +:+ e)).

(** The two file-system calls of [writeStateAtomic], in order. *)
Inductive fs_op : Type :=
  | WriteFile (path : string) (c : fcontent)
  | Rename (src dst : string).

Definition fs_step (fs : files) (op : fs_op) : files :=
  match op with
  | WriteFile path c => <[path := c]> fs
  | Rename src dst =>
      match fs !! src with
      | Some c => <[dst := c]> (delete src fs)
      | None => fs
      end
  end.

Definition tempPath (stateFilePath : string) : string := stateFilePath +:+ ".tmp".

Definition writeStateAtomic_ops (stateFilePath : string) (state : jsobj)
    : list fs_op :=
  [ WriteFile (tempPath stateFilePath) (FJson (json_roundtrip state));
    Rename (tempPath stateFilePath) stateFilePath ].

Definition writeStateAtomic (stateFilePath : string) (state : jsobj)
    : M files unit :=
  fun fs => (Ok tt, foldl fs_step fs (writeStateAtomic_ops stateFilePath state)).


Definition initState (stateFilePath : string) : M files jsobj :=
  try_catch
    (fun fs =>
       match fs !! stateFilePath with
       | Some _ => readState stateFilePath fs
       | None =>
           (writeStateAtomic stateFilePath INITIAL_STATE >> ret INITIAL_STATE) fs
       end)
    (fun e => throw ("State initialization failed: " +:+ e)).

(** [{ ...currentState, ...updates }] *)
Definition spread (currentState updates : jsobj) : jsobj := updates ∪ currentState.

Definition updateState (stateFilePath : string) (updates : jsobj)
    : M files jsobj :=
  try_catch
    (let* currentState := readState stateFilePath in
     let newState := spread currentState updates in
     let* _ := lift_result (validateState newState) in
     writeStateAtomic stateFilePath newState >>
     ret newState)
    (fun e => throw ("State update failed: " +:+ e)).

Definition clearError (stateFilePath : string) : M files jsobj :=
  updateState stateFilePath {[ "last_error" := JNull ]}.

(** ** The host of the monitor *)

(** [attrs['x-gm-labels']] of a fetched message. *)
Inductive gm_labels : Type :=
  | LabelsAbsent
  | LabelsArray (l : list string)
  | LabelsOne (s : string).

(** The attributes node-imap reports for a message. *)
Record Attrs : Type := mkAttrs {
  attr_id : jsval;
  attr_labels : gm_labels;
  attr_thrid : jsval
}.

(** What [ImapClient.fetchEmail] resolves with; a part the server did
    not send stays [undefined]. *)
Record EmailData : Type := mkEmailData {
  ed_headers : option string;
  ed_body : option string;
  ed_attrs : option Attrs
}.

(** The fields of mailparser's result that [fetchEmail] reads, each a
    string when present: [p_from_text] is [parsed.from?.text], [p_html]
    is absent when mailparser gives [false], [p_date] is the ISO string
    of [parsed.date]. *)
Record Parsed : Type := mkParsed {
  p_text : option string;
  p_html : option string;
  p_subject : option string;
  p_from_text : option string;
  p_to_text : option string;
  p_cc_text : option string;
  p_date : option string
}.

(** How the server answers [connect]: ready, with the outcome of opening
    the INBOX (its message count), or an error. *)
Inductive connect_outcome : Type :=
  | ConnectReady (inbox : result nat)
  | ConnectError (msg : string).

(** Everything outside the program: the mail server, mailparser, the
    JavaScript runtime's JSON for label arrays, and the clock (the ISO
    string of the [n]-th reading of [new Date()]). *)
Record Host : Type := mkHost {
  imap_connect : connect_outcome;
  imap_search_all : result (list Z);
  imap_fetch : Z -> result EmailData;
  simpleParser : string -> result Parsed;
  JSON_stringify_labels : list string -> string;
  JSON_parse_is_array : string -> result bool;
  clock : nat -> string
}.

(** ** imap-client.js *)

(** The fields of an [ImapClient], and which listeners of the underlying
    connection are still registered ([once] listeners are removed when
    they fire). *)
Record ImapClient : Type := mkImapClient {
  has_imap : bool;
  isConnected : bool;
  isReconnecting : bool;
  once_error : bool;
  once_end : bool;
  on_mail_registered : bool
}.

Inductive level : Type := DEBUG | INFO | WARN | ERROR.

(** The state of the monitor process and of what it writes. *)
Record World : Type := mkWorld {
  w_db : Database;
  w_fs : files;
  w_log : list (level * string);
  w_time : nat;
  w_client : option ImapClient;
  w_shutting_down : bool;
  w_exit : option Z
}.

Definition on_db {A} (m : M Database A) : M World A :=
  fun w => let (r, db') := m (w_db w) in
           (r, mkWorld db' (w_fs w) (w_log w) (w_time w) (w_client w)
                 (w_shutting_down w) (w_exit w)).

Definition on_fs {A} (m : M files A) : M World A :=
  fun w => let (r, fs') := m (w_fs w) in
           (r, mkWorld (w_db w) fs' (w_log w) (w_time w) (w_client w)
                 (w_shutting_down w) (w_exit w)).

(** [logger.debug], [logger.info], [logger.warn], [logger.error] *)
Definition log (lvl : level) (msg : string) : M World unit :=
  fun w => (Ok tt, mkWorld (w_db w) (w_fs w) (w_log w ++ [(lvl, msg)]) (w_time w)
                     (w_client w) (w_shutting_down w) (w_exit w)).

(** [new Date().toISOString()] *)
Definition now (host : Host) : M World string :=
  fun w => (Ok (clock host (w_time w)),
            mkWorld (w_db w) (w_fs w) (w_log w) (S (w_time w)) (w_client w)
              (w_shutting_down w) (w_exit w)).

Definition set_client (c : option ImapClient) : M World unit :=
  fun w => (Ok tt, mkWorld (w_db w) (w_fs w) (w_log w) (w_time w) c
                     (w_shutting_down w) (w_exit w)).

Definition update_client (f : ImapClient -> ImapClient) : M World unit :=
  fun w => (Ok tt, mkWorld (w_db w) (w_fs w) (w_log w) (w_time w)
                     (f <$> w_client w) (w_shutting_down w) (w_exit w)).

Definition set_isConnected (b : bool) (c : ImapClient) : ImapClient :=
  mkImapClient (has_imap c) b (isReconnecting c) (once_error c) (once_end c)
    (on_mail_registered c).

(** [new ImapClient(config)] *)
Definition new_ImapClient : ImapClient :=
  mkImapClient false false false false false false.

(** The listeners the monitor registers on the client. *)
Record Listeners : Type := mkListeners {
  listen_mail : nat -> M World unit;
  listen_error : string -> M World unit;
  listen_end : M World unit
}.

(** The [once('error')] listener of [connect]; the rejection of the
    promise is the caller's when [connect] is still pending. *)
Definition client_on_error (l : Listeners) (msg : string) : M World unit :=
  log ERROR "IMAP connection error" >>
  update_client (fun c => set_isConnected false
                   (mkImapClient (has_imap c) (isConnected c) (isReconnecting c)
                      false (once_end c) (on_mail_registered c))) >>
  listen_error l msg.

(** The [once('end')] listener of [connect]. *)
Definition client_on_end (l : Listeners) : M World unit :=
  log WARN "IMAP connection ended" >>
  update_client (fun c => set_isConnected false
                   (mkImapClient (has_imap c) (isConnected c) (isReconnecting c)
                      (once_error c) false (on_mail_registered c))) >>
  listen_end l.

(** The [on('mail')] listener of [startIDLE]. *)
Definition client_on_mail (l : Listeners) (numNewMsgs : nat) : M World unit :=
  log DEBUG "New mail notification" >>
  listen_mail l numNewMsgs.

Definition openInbox (host_inbox : result nat) : M World unit :=
  match host_inbox with
  | Throw e => log ERROR "Failed to open INBOX" >> throw e
  | Ok _ => log INFO "INBOX opened"
  end.

(** [connect()]: a new connection with its three [once] listeners, then
    the server's answer. *)
Definition connect (host : Host) (l : Listeners) : M World unit :=
  update_client (fun c => mkImapClient true (isConnected c) (isReconnecting c)
                            true true false) >>
  match imap_connect host with
  | ConnectReady inbox =>
      log INFO "IMAP connection established" >>
      update_client (set_isConnected true) >>
      openInbox inbox
  | ConnectError msg =>
      client_on_error l msg >>
      throw msg
  end.

Definition startIDLE : M World unit :=
  fun w =>
    match w_client w with
    | Some c =>
        if negb (has_imap c) || negb (isConnected c)
        then (Throw "Cannot start IDLE: not connected", w)
        else (update_client (fun c => mkImapClient (has_imap c) (isConnected c)
                               (isReconnecting c) (once_error c) (once_end c) true) >>
              log INFO "IDLE activated - monitoring for new emails") w
    | None => (Throw "Cannot read properties of null (reading 'startIDLE')", w)
    end.

(** [disconnect()] *)
Definition disconnect : M World unit :=
  fun w =>
    match w_client w with
    | Some c =>
        if has_imap c
        then (update_client (set_isConnected false) >>
              log INFO "IMAP connection closed") w
        else (Ok tt, w)
    | None => (Ok tt, w)
    end.

Definition isReady (c : ImapClient) : bool := isConnected c && has_imap c.

(** ** email-processor.js *)

Definition CR : ascii := ascii_of_nat 13.
Definition LF : ascii := ascii_of_nat 10.
Definition CRLF : string := String CR (String LF EmptyString).

(** [s.split('\r\n')] *)
Fixpoint split_crlf (s : string) : list string :=
  match s with
  | EmptyString => [EmptyString]
  | String c s' =>
      match s' with
      | String d s'' =>
          if Ascii.eqb c CR && Ascii.eqb d LF
          then EmptyString :: split_crlf s''
          else match split_crlf s' with
               | l :: ls => String c l :: ls
               | [] => [String c EmptyString]
               end
      | EmptyString => [String c EmptyString]
      end
  end.

(** The text before the first colon and the text after it. *)
Fixpoint split_colon (s : string) : option (string * string) :=
  match s with
  | EmptyString => None
  | String c s' =>
      if Ascii.eqb c ":" then Some (EmptyString, s')
      else match split_colon s' with
           | Some (k, v) => Some (String c k, v)
           | None => None
           end
  end.

(** A character the regular expression [.] does not match. *)
Definition is_line_terminator (c : ascii) : bool :=
  Ascii.eqb c CR || Ascii.eqb c LF.

Fixpoint has_line_terminator (s : string) : bool :=
  match s with
  | EmptyString => false
  | String c s' => is_line_terminator c || has_line_terminator s'
  end.

(** The two groups of the regular expression of [parseHeaders]: one or
    more characters that are not a colon, the colon, white space, and
    the rest of the line up to the end of the string.  The key is not
    empty and ends at the first colon; the value starts after the white
    space that follows and holds no line terminator. *)
Definition match_header (line : string) : option (string * string) :=
  match split_colon line with
  | Some (key, rest) =>
      if (key =? "") || has_line_terminator (trim_start rest) then None
      else Some (key, trim_start rest)
  | None => None
  end.

Definition lower_char (c : ascii) : ascii :=
  let n := nat_of_ascii c in
  if ((65 <=? n) && (n <=? 90))%nat
     || ((192 <=? n) && (n <=? 222) && negb (n =? 215))%nat
  then ascii_of_nat (n + 32) else c.

(** [s.toLowerCase()] on 8-bit code units *)
Fixpoint toLowerCase (s : string) : string :=
  match s with
  | EmptyString => EmptyString
  | String c s' => String (lower_char c) (toLowerCase s')
  end.

(** [headers[name] = value] on an object literal: the name [__proto__]
    is the setter of the prototype, which ignores a string and creates
    no property. *)
Definition set_header (name : string) (value : jsval) (headers : jsobj) : jsobj :=
  if name =? "__proto__" then headers else <[name := value]> headers.

Definition parseHeaders (headerStr : string) : jsobj :=
  foldl (fun headers line =>
           match match_header line with
           | Some (key, value) => set_header (toLowerCase key) (JStr (trim value)) headers
           | None => headers
           end)
        ∅ (split_crlf headerStr).

(** [Array.isArray(labels) ? labels : [labels]] after [|| []] *)
Definition labels_array (l : gm_labels) : list string :=
  match l with
  | LabelsAbsent => []
  | LabelsArray a => a
  | LabelsOne s => if s =? "" then [] else [s]
  end.

(** A template literal prints a missing part as [undefined]. *)
Definition interpolate (o : option string) : string :=
  match o with Some s => s | None => "undefined" end.

(** An optional string as a value: [undefined] when absent. *)
Definition of_opt (o : option string) : jsval :=
  match o with Some s => JStr s | None => JUndefined end.

(** [o || ''] for an optional string *)
Definition or_empty (o : option string) : string :=
  match o with Some s => s | None => "" end.

Definition fetchEmail (host : Host) (id : Z) : M World jsobj :=
  try_catch
    (let* emailData := lift_result (imap_fetch host id) in
     let headers := parseHeaders (or_empty (ed_headers emailData)) in
     let fullEmail := interpolate (ed_headers emailData) +:+ CRLF +:+ CRLF
                      +:+ or_empty (ed_body emailData) in
     let* parsed := lift_result (simpleParser host fullEmail) in
     let labels := match ed_attrs emailData with
                   | Some attrs => labels_array (attr_labels attrs)
                   | None => []
                   end in
     let labelsJson := JSON_stringify_labels host labels in
     let threadId := match ed_attrs emailData with
                     | Some attrs =>
                         if truthy (attr_thrid attrs)
                         then js_String (attr_thrid attrs) else ""
                     | None => ""
                     end in
     let emailData_id := match ed_attrs emailData with
                         | Some attrs => attr_id attrs
                         | None => JUndefined
                         end in
     let* received_at := match p_date parsed with
                         | Some d => ret d
                         | None => now host
                         end in
     let* downloaded_at := now host in
     ret (list_to_map
            [ ("id", JStr (js_String emailData_id));
              ("thread_id", JStr threadId);
              ("received_at", JStr received_at);
              ("downloaded_at", JStr downloaded_at);
              ("from_address",
               js_or (js_or (of_opt (p_from_text parsed)) (prop headers "from")) (JStr ""));
              ("to_address",
               js_or (js_or (of_opt (p_to_text parsed)) (prop headers "to")) (JStr ""));
              ("cc_address",
               js_or (js_or (of_opt (p_cc_text parsed)) (prop headers "cc")) JNull);
              ("subject",
               js_or (js_or (of_opt (p_subject parsed)) (prop headers "subject")) (JStr ""));
              ("labels", JStr labelsJson);
              ("body", js_or (js_or (of_opt (p_text parsed)) (of_opt (p_html parsed))) (JStr "")) ]
          : jsobj))
    (fun e => log ERROR "Email fetch failed" >> throw e).

(** [v === null || v === undefined] *)
Definition nullish (v : jsval) : bool :=
  match v with JUndefined | JNull => true | _ => false end.

(** [if (nullish(email.k)) email.k = '']: the record is updated in place,
    so the caller stores the updated record. *)
Definition default_empty (k : string) (email : jsobj) : jsobj :=
  if nullish (prop email k) then <[k := JStr ""]> email else email.

Definition validateEmailRecord (host : Host) (email : jsobj) : result jsobj :=
  if negb (nonempty_string (prop email "id"))
  then Throw "id must be a non-empty string"
  else
    let email := default_empty "thread_id" email in
    if negb (is_string (prop email "thread_id"))
    then Throw "thread_id must be a string"
    else if negb (nonempty_string (prop email "from_address"))
    then Throw "from_address is required"
    else if negb (nonempty_string (prop email "to_address"))
    then Throw "to_address is required"
    else
      let email := default_empty "subject" email in
      let email := default_empty "body" email in
      let labels_checked :=
        if truthy (prop email "labels")
        then match JSON_parse_is_array host (js_String (prop email "labels")) with
             | Ok true => Ok email
             | _ => Throw "labels must be valid JSON array string"
             end
        else Ok (<["labels" := JStr "[]"]> email) in
      match labels_checked with
      | Throw e => Throw e
      | Ok email =>
          if negb (nonempty_string (prop email "received_at"))
          then Throw "received_at must be ISO 8601 format"
          else if negb (nonempty_string (prop email "downloaded_at"))
          then Throw "downloaded_at must be ISO 8601 format"
          else Ok email
      end.

(** [processEmail(imapClient, db, statePath, id)] *)
Definition processEmail (host : Host) (statePath : string) (id : Z)
    : M World bool :=
  try_catch
    (log DEBUG "Processing email" >>
     let* emailRecord := fetchEmail host id in
     let* emailRecord := lift_result (validateEmailRecord host emailRecord) in
     let* stored := on_db (storeEmail emailRecord) in
     if negb stored
     then log WARN "Duplicate email detected" >> ret false
     else
       let* _ := on_fs (updateState statePath
                          (list_to_map
                             [ ("last_id", prop emailRecord "id");
                               ("last_id_received_at", prop emailRecord "downloaded_at");
                               ("last_error", JNull) ])) in
       log INFO "Email processed successfully" >>
       ret true)
    (fun _ => log ERROR "Email processing failed" >> ret false).

(** ** imap-monitor.js *)

Record Config : Type := mkConfig {
  config_state_path : string
}.

(** The [for] loop of the [mail] listener: every uid in turn, each in
    its own [try]. *)
Definition process_each (host : Host) (statePath : string) (uids : list Z)
    : M World unit :=
  foldr (fun uid rest =>
           try_catch
             (processEmail host statePath uid >> ret tt)
             (fun _ => log WARN "Skipping email due to processing error") >>
           rest)
        (ret tt) uids.

(** The [mail] listener of [setupEventHandlers]. *)
Definition mail_handler (host : Host) (config : Config) (numNewMsgs : nat)
    : M World unit :=
  fun w =>
    if w_shutting_down w then (Ok tt, w)
    else
      (log DEBUG "New mail event" >>
       try_catch
         (let* uids := lift_result (imap_search_all host) in
          let* state := on_fs (readState (config_state_path config)) in
          let lastUid := prop state "last_uid" in
          let newUids :=
            List.filter (fun uid => match lastUid with
                                    | JNum last => (last <? uid)%Z
                                    | _ => false
                                    end) uids in
          match newUids with
          | [] => log DEBUG "No new emails to process"
          | _ :: _ =>
              log INFO "Processing new emails" >>
              process_each host (config_state_path config) newUids
          end)
         (fun _ => log ERROR "Error handling new mail")) w.

(** The [error] listener: the reconnection is left to a later phase. *)
Definition error_handler (msg : string) : M World unit :=
  log ERROR "IMAP error".

(** The [end] listener: likewise. *)
Definition end_handler : M World unit :=
  log WARN "IMAP connection ended".

Definition setupEventHandlers (host : Host) (config : Config) : Listeners :=
  mkListeners (mail_handler host config) error_handler end_handler.

Definition gracefulShutdown (exitCode : Z) : M World unit :=
  fun w =>
    if w_shutting_down w then (Ok tt, w)
    else
      ((fun w => (Ok tt, mkWorld (w_db w) (w_fs w) (w_log w) (w_time w)
                           (w_client w) true (w_exit w))) >>
       log INFO "Initiating graceful shutdown" >>
       disconnect >>
       (fun w => if db_open (w_db w) then on_db closeDatabase w else (Ok tt, w)) >>
       log INFO "Shutdown complete" >>
       (fun w => (Ok tt, mkWorld (w_db w) (w_fs w) (w_log w) (w_time w)
                           (w_client w) (w_shutting_down w) (Some exitCode)))) w.

Definition initialize (host : Host) (config : Config) : M World unit :=
  try_catch
    (log INFO "Starting Gmail IMAP Monitor" >>
     on_db initDatabase >>
     log INFO "Database initialized" >>
     let* state := on_fs (initState (config_state_path config)) in
     log INFO "State initialized" >>
     set_client (Some new_ImapClient) >>
     let listeners := setupEventHandlers host config in
     log INFO "Connecting to IMAP" >>
     connect host listeners >>
     startIDLE >>
     log INFO "Gmail IMAP Monitor started successfully")
    (fun _ => log ERROR "Initialization failed" >> gracefulShutdown 1).

(** What the server sends on an established connection. *)
Inductive imap_event : Type :=
  | EvMail (numNewMsgs : nat)
  | EvError (msg : string)
  | EvEnd.

(** The reaction of the process to one event of the connection.  An
    [error] with no listener left is an uncaught exception. *)
Definition dispatch (host : Host) (config : Config) (ev : imap_event)
    : M World unit :=
  fun w =>
    match w_exit w, w_client w with
    | None, Some c =>
        let l := setupEventHandlers host config in
        match ev with
        | EvMail n => if on_mail_registered c then client_on_mail l n w else (Ok tt, w)
        | EvError msg =>
            if once_error c then client_on_error l msg w
            else (log ERROR "Uncaught exception" >> gracefulShutdown 1) w
        | EvEnd => if once_end c then client_on_end l w else (Ok tt, w)
        end
    | _, _ => (Ok tt, w)
    end.

(** The events in order. *)
Definition deliver (host : Host) (config : Config) (evs : list imap_event)
    : M World unit :=
  foldr (fun ev rest => dispatch host config ev >> rest) (ret tt) evs.

(** A run of the process: start-up, then the events in order. *)
Definition run (host : Host) (config : Config) (evs : list imap_event)
    : M World unit :=
  initialize host config >> deliver host config evs.

(** The machine before the first run: no database file content, no
    state file, no process state. *)
Definition fresh_world : World :=
  mkWorld (mkDatabase false ∅ ∅ None) ∅ [] 0 None false None.

(** ** webhook-server.js *)

Definition MAX_PAYLOAD_SIZE : N := 1048576.

Definition REQUIRED_FIELDS : list string :=
  [ "id"; "thread_id"; "received_at"; "downloaded_at"; "from_address";
    "subject"; "body" ].

(** What [JSON.parse] makes of the request body: nothing (a syntax
    error), [null], or an object; a number, string, boolean or array has
    none of the properties read here and is the empty object. *)
Inductive json_body : Type :=
  | JsonInvalid
  | JsonNull
  | JsonObject (payload : jsobj).

Record Request : Type := mkRequest {
  req_content_type : option string;
  req_size : N;
  req_json : json_body
}.

(** The status code and the object sent as the JSON body. *)
Record Response : Type := mkResponse {
  res_status : nat;
  res_body : jsobj
}.

(** The outcome of [validatePayload]: valid, or a message and a code. *)
Inductive validation : Type :=
  | Valid
  | Invalid (message code : string).

(** [payload.hasOwnProperty(field)]: the method is looked up on the
    payload itself, so a member of the payload called [hasOwnProperty],
    which in a parsed JSON text is never a function, shadows it and the
    call is a TypeError. *)
Definition call_hasOwnProperty (payload : jsobj) (field : string) : result bool :=
  match payload !! "hasOwnProperty" with
  | Some _ => Throw "payload.hasOwnProperty is not a function"
  | None => Ok (hasOwnProperty payload field)
  end.

(** The test of the [filter] in [validatePayload]. *)
Definition field_missing (payload : jsobj) (field : string) : result bool :=
  match call_hasOwnProperty payload field with
  | Throw e => Throw e
  | Ok own =>
      Ok (negb own
          || nullish (prop payload field)
          || match prop payload field with
             | JStr s => trim s =? ""
             | _ => false
             end)
  end.

(** [list.filter(test)] for a test that can throw. *)
Fixpoint filter_result {A} (test : A -> result bool) (l : list A) : result (list A) :=
  match l with
  | [] => Ok []
  | x :: l' =>
      match test x with
      | Throw e => Throw e
      | Ok keep =>
          match filter_result test l' with
          | Throw e => Throw e
          | Ok kept => Ok (if keep then x :: kept else kept)
          end
      end
  end.

(** [list.join(', ')] *)
Fixpoint join_comma (l : list string) : string :=
  match l with
  | [] => ""
  | [x] => x
  | x :: l' => x +:+ ", " +:+ join_comma l'
  end.

Definition validatePayload (payload : jsobj) : result validation :=
  match filter_result (field_missing payload) REQUIRED_FIELDS with
  | Throw e => Throw e
  | Ok missingFields =>
      Ok match missingFields with
         | _ :: _ =>
             Invalid ("Missing required fields: " +:+ join_comma missingFields)
                     "VALIDATION_ERROR"
         | [] =>
             match find (fun field => negb (is_string (prop payload field)))
                        REQUIRED_FIELDS with
             | Some field =>
                 Invalid ("Field '" +:+ field +:+ "' must be a string, got "
                          +:+ typeof (prop payload field))
                         "VALIDATION_ERROR"
             | None => Valid
             end
         end
  end.

Definition formatSuccessResponse (messageId : jsval) (action : string) : jsobj :=
  list_to_map [ ("status", JStr "success"); ("action", JStr action);
                ("id", messageId) ].

Definition formatErrorResponse (message : string) (code : jsval) : jsobj :=
  list_to_map [ ("status", JStr "error"); ("message", JStr message);
                ("code", code) ].

(** What [parseRequestBody] rejects with: message, code, status code. *)
Record ParseError : Type := mkParseError {
  pe_message : string;
  pe_code : jsval;
  pe_statusCode : nat
}.

(** [parseRequestBody(req)] followed by the read of [payload.id], which
    is inside the same [try]: reading a property of [null] is a
    TypeError, an error without code or status. *)
Definition parseRequestBody (req : Request) : ParseError + jsobj :=
  if (MAX_PAYLOAD_SIZE <? req_size req)%N
  then inl (mkParseError "Payload too large (max 1MB)" (JStr "PAYLOAD_TOO_LARGE") 400)
  else match req_json req with
       | JsonInvalid =>
           inl (mkParseError "Invalid JSON in request body" (JStr "INVALID_JSON") 400)
       | JsonNull =>
           inl (mkParseError "Cannot read properties of null (reading 'id')"
                  JUndefined 400)
       | JsonObject payload => inr payload
       end.

(** [handleWebhookPost]: the response written, over the server's
    database handle. *)
Definition handleWebhookPost (req : Request) : M Database Response :=
  try_catch
    (match req_content_type req with
     | None =>
         ret (mkResponse 400 (formatErrorResponse
                "Content-Type must be application/json" (JStr "INVALID_CONTENT_TYPE")))
     | Some contentType =>
         if negb (includes contentType "application/json")
         then ret (mkResponse 400 (formatErrorResponse
                     "Content-Type must be application/json" (JStr "INVALID_CONTENT_TYPE")))
         else
           match parseRequestBody req with
           | inl parseError =>
               ret (mkResponse (pe_statusCode parseError)
                      (formatErrorResponse (pe_message parseError) (pe_code parseError)))
           | inr payload =>
               let messageId := js_or (prop payload "id") JNull in
               let* validation := lift_result (validatePayload payload) in
               match validation with
               | Invalid message code =>
                   ret (mkResponse 400 (formatErrorResponse message (JStr code)))
               | Valid =>
                   let* wasStored :=
                     try_catch (storeEmail payload)
                       (fun e => if includes e "UNIQUE constraint failed"
                                 then ret false else throw e) in
                   let action := if wasStored then "stored" else "skipped" in
                   ret (mkResponse 200 (formatSuccessResponse messageId action))
               end
           end
     end)
    (fun _ => ret (mkResponse 500 (formatErrorResponse
                     "Database operation failed" (JStr "DATABASE_ERROR")))).

(** The three machine-readable outcomes of the endpoint. *)
Inductive outcome : Type :=
  | AcceptedNew
  | AcceptedDuplicate
  | RejectedClient
  | RejectedServer
  | Unclassified.

Definition classify (res : Response) : outcome :=
  if (res_status res =? 200)%nat then
    match prop (res_body res) "action" with
    | JStr "stored" => AcceptedNew
    | JStr "skipped" => AcceptedDuplicate
    | _ => Unclassified
    end
  else if ((400 <=? res_status res) && (res_status res <? 500))%nat then RejectedClient
  else if (500 <=? res_status res)%nat then RejectedServer
  else Unclassified.

(** ** Vocabulary of the statements *)

(** The handle is open and [emails] has the current layout, with [rows]. *)
Definition current_layout (db : Database) (rows : list (list sqlval)) : Prop :=
  db_open db = true /\ db_tables db !! "emails" = Some (Table current_columns rows).

(** The rows of [emails]. *)
Definition emails_rows (db : Database) : list (list sqlval) :=
  match db_tables db !! "emails" with
  | Some t => t_rows t
  | None => []
  end.

(** The rows whose identifier (the first column) is the text [id]. *)
Definition rows_with_id (id : string) (rows : list (list sqlval))
    : list (list sqlval) :=
  filter (fun r => r !! 0%nat = Some (VText id)) rows.

Definition mandatory_fields : list string :=
  [ "id"; "thread_id"; "received_at"; "downloaded_at"; "from_address";
    "to_address"; "subject"; "labels"; "body" ].

(** A Message of the data model: every field but [cc_address] is a
    string, [cc_address] is a string or absent. *)
Definition Message (email : jsobj) : Prop :=
  Forall (fun k => is_string (prop email k) = true) mandatory_fields
  /\ (is_string (prop email "cc_address") = true
      \/ nullish (prop email "cc_address") = true).

(** The cell that holds the field [k] of a Message: its text, or NULL
    when the field is absent. *)
Definition field_cell (email : jsobj) (k : string) : sqlval :=
  match prop email k with
  | JStr s => VText s
  | _ => VNull
  end.

(** The row that holds a Message, as the data model has it: one cell
    for each column of the table, the cell of the field that has the
    name of the column. *)
Definition message_row (email : jsobj) : list sqlval :=
  map (fun c => field_cell email (col_name c)) current_columns.

(** The store after [storeEmail] was called on each record in turn,
    whatever each call returned or threw. *)
Definition store_all (emails : list jsobj) (db : Database) : Database :=
  foldl (fun db email => (storeEmail email db).2) db emails.

(** The row [INSERT] builds from the ten bound values of [storeEmail]. *)
Definition built_row (vals : list sqlval) : list sqlval :=
  map (fun c => apply_affinity (col_type c) (assigned email_columns vals (col_name c)))
      current_columns.

(** A mandatory field as the contract of the endpoint wants it: a
    string that is not blank. *)
Definition filled (payload : jsobj) (k : string) : Prop :=
  match prop payload k with
  | JStr s => trim s <> ""
  | _ => False
  end.

(** A valid payload: every mandatory field is filled, [cc_address] is a
    string or absent. *)
Definition ValidPayload (payload : jsobj) : Prop :=
  Forall (filled payload) mandatory_fields
  /\ (is_string (prop payload "cc_address") = true
      \/ nullish (prop payload "cc_address") = true).

(** A request that reaches the validation of its payload: JSON content
    type, within the size limit, a body that parses to [payload]. *)
Definition carries (req : Request) (payload : jsobj) : Prop :=
  (exists ct, req_content_type req = Some ct
              /\ includes ct "application/json" = true)
  /\ (req_size req <= MAX_PAYLOAD_SIZE)%N
  /\ req_json req = JsonObject payload.

(** A machine without database file. *)
Definition no_database : Database := mkDatabase false ∅ ∅ None.

(** What [fetchEmail] returns when the clock has been read [t] times. *)
Definition fetch_result (host : Host) (id : Z) (t : nat) : result jsobj :=
  (fetchEmail host id (mkWorld no_database ∅ [] t None false None)).1.

(** The record [processEmail] hands to [storeEmail]. *)
Definition validated (host : Host) (id : Z) (t : nat) : result jsobj :=
  match fetch_result host id t with
  | Ok r => validateEmailRecord host r
  | Throw e => Throw e
  end.

(** The fields [processEmail] passes to [updateState]. *)
Definition state_updates (emailRecord : jsobj) : jsobj :=
  list_to_map
    [ ("last_id", prop emailRecord "id");
      ("last_id_received_at", prop emailRecord "downloaded_at");
      ("last_error", JNull) ].

(** The process fields of the world are the same. *)
Definition same_process (w w' : World) : Prop :=
  w_client w' = w_client w /\ w_shutting_down w' = w_shutting_down w
  /\ w_exit w' = w_exit w.

(** The identifier [fetchEmail] gives the message with uid [uid]. *)
Definition message_id (host : Host) (uid : Z) : string :=
  match imap_fetch host uid with
  | Ok d => js_String (match ed_attrs d with
                       | Some attrs => attr_id attrs
                       | None => JUndefined
                       end)
  | Throw _ => ""
  end.

(** A message that can be fetched, parsed and validated whenever it is
    processed. *)
Definition well_formed (host : Host) (uid : Z) : Prop :=
  forall t, exists r, validated host uid t = Ok r.

(** A step of [processEmail] fails for [id] in the world [w]: the fetch
    or the parse, the validation, or the insert. *)
Inductive step_fails (host : Host) (id : Z) (w : World) : Prop :=
  | fails_fetch e :
      fetch_result host id (w_time w) = Throw e -> step_fails host id w
  | fails_validation r e :
      fetch_result host id (w_time w) = Ok r ->
      validateEmailRecord host r = Throw e -> step_fails host id w
  | fails_store r e :
      validated host id (w_time w) = Ok r ->
      (storeEmail r (w_db w)).1 = Throw e -> step_fails host id w.

(** A runtime as Node.js is: [JSON.stringify] of an array of labels is a
    non-empty text that [JSON.parse] reads back as an array, and the ISO
    text of a date is not empty. *)
Definition sound_runtime (host : Host) : Prop :=
  (forall labels, JSON_stringify_labels host labels <> ""
                  /\ JSON_parse_is_array host (JSON_stringify_labels host labels)
                     = Ok true)
  /\ (forall n, clock host n <> "")
  /\ (forall text p d, simpleParser host text = Ok p -> p_date p = Some d -> d <> "").

(** A message of the data model as it arrives: the identifier and the
    thread as text, the date of the message, sender, recipients, copy
    recipients if any, subject, labels and text. *)
Record Envelope : Type := mkEnvelope {
  env_id : string;
  env_thread : string;
  env_received : string;
  env_from : string;
  env_to : string;
  env_cc : option string;
  env_subject : string;
  env_labels : list string;
  env_body : string
}.

(** The mailbox delivers [e] for [uid].  The server sends headers, a
    body and attributes: the [id] attribute, as text, is the identifier;
    the thread number, as text, is the thread, and no thread number is
    the empty thread; the labels are the array of labels, and no labels
    the empty array.  mailparser, reading the headers and the body
    joined by an empty line, finds the date, the sender, the recipients,
    the subject, the text and the copy recipients of the envelope. *)
Definition delivers (host : Host) (uid : Z) (e : Envelope) : Prop :=
  exists headers body attrs p,
    imap_fetch host uid = Ok (mkEmailData (Some headers) (Some body) (Some attrs))
    /\ js_String (attr_id attrs) = env_id e
    /\ (truthy (attr_thrid attrs) = true /\ js_String (attr_thrid attrs) = env_thread e
        \/ attr_thrid attrs = JUndefined /\ env_thread e = "")
    /\ (attr_labels attrs = LabelsArray (env_labels e)
        \/ attr_labels attrs = LabelsAbsent /\ env_labels e = [])
    /\ simpleParser host (headers +:+ CRLF +:+ CRLF +:+ body) = Ok p
    /\ p_date p = Some (env_received e)
    /\ p_from_text p = Some (env_from e)
    /\ p_to_text p = Some (env_to e)
    /\ p_subject p = Some (env_subject e)
    /\ p_text p = Some (env_body e)
    /\ p_cc_text p = env_cc e.

(** A valid message: no field of the envelope is empty. *)
Definition valid_envelope (e : Envelope) : Prop :=
  env_id e <> "" /\ env_received e <> "" /\ env_from e <> "" /\ env_to e <> ""
  /\ env_subject e <> "" /\ env_body e <> ""
  /\ (forall cc, env_cc e = Some cc -> cc <> "").

(** A malformed message: the server sends it, and mailparser cannot
    read it. *)
Definition unreadable (host : Host) (uid : Z) : Prop :=
  exists headers body attrs e,
    imap_fetch host uid = Ok (mkEmailData (Some headers) (Some body) attrs)
    /\ simpleParser host (headers +:+ CRLF +:+ CRLF +:+ body) = Throw e.

(** The row of the envelope [e] ingested at [downloaded_at], with [cc]
    in the column of the copy recipients. *)
Definition envelope_row (host : Host) (e : Envelope) (cc : sqlval)
    (downloaded_at : string) : list sqlval :=
  [ VText (env_id e); VText (env_thread e); VText (env_received e);
    VText downloaded_at; VText (env_from e); VText (env_to e); cc;
    VText (env_subject e); VText (JSON_stringify_labels host (env_labels e));
    VText (env_body e) ].

(** [row] holds the envelope [e]: its cells are the fields of [e], the
    labels as JSON text; [downloaded_at] is a reading of the clock; the
    copy recipients are those of [e] when it has some. *)
Definition holds_envelope (host : Host) (e : Envelope) (row : list sqlval) : Prop :=
  exists n cc,
    row = envelope_row host e cc (clock host n)
    /\ match env_cc e with
       | Some c => cc = VText c
       | None => cc = VNull \/ exists s, cc = VText s
       end.

(** The identifier the server reports for [uid], as text: none when the
    message cannot be fetched. *)
Definition reported_id (host : Host) (uid : Z) : option string :=
  match imap_fetch host uid with
  | Ok d => Some (js_String (match ed_attrs d with
                             | Some attrs => attr_id attrs
                             | None => JUndefined
                             end))
  | Throw _ => None
  end.

(** The identifiers reported for the messages of a batch. *)
Definition reported_ids (host : Host) (uids : list Z) : list string :=
  omap (reported_id host) uids.

(** A value that is a string or [undefined]. *)
Definition stringish (v : jsval) : Prop := v = JUndefined \/ is_string v = true.

(** The shape of a record [fetchEmail] builds. *)
Definition fetched_shape (host : Host) (uid : Z) (r : jsobj) : Prop :=
  prop r "id" = JStr (message_id host uid)
  /\ Forall (fun k => is_string (prop r k) = true) mandatory_fields
  /\ (is_string (prop r "cc_address") = true \/ prop r "cc_address" = JNull).

(** [m] takes every state to one related to it by [R], whatever it
    returns or throws. *)
Definition preserves {S A} (R : S -> S -> Prop) (m : M S A) : Prop :=
  forall s, R s (m s).2.

(** The client, if there is one, is not connected. *)
Definition client_is_down (w : World) : Prop :=
  forall c, w_client w = Some c -> isConnected c = false.

(** The state file at [path] is the same, or it is a record before and
    after with the same phase and the same last uid. *)
Definition kept_fields (path : string) (fs fs' : files) : Prop :=
  fs' !! path = fs !! path
  \/ exists s s', fs !! path = Some (FJson s) /\ fs' !! path = Some (FJson s')
                  /\ prop s' "connection_status" = prop s "connection_status"
                  /\ prop s' "last_uid" = prop s "last_uid".

(** What no event of the connection changes: the phase and the last uid
    of the state file, and a client that is down stays down. *)
Definition stays (path : string) (w w' : World) : Prop :=
  kept_fields path (w_fs w) (w_fs w')
  /\ (client_is_down w -> client_is_down w').

(** The files are the same. *)
Definition same_files (w w' : World) : Prop := w_fs w' = w_fs w.

(** The state file of a first run: none yet, or a record with the
    phase [disconnected] and the sentinel last uid. *)
Definition first_run_state (path : string) (w : World) : Prop :=
  match w_fs w !! path with
  | None => True
  | Some (FJson s) =>
      prop s "connection_status" = JStr "disconnected" /\ prop s "last_uid" = JNum 0
  | Some (FText _) => False
  end.

Definition keeps_first_run (path : string) (w w' : World) : Prop :=
  first_run_state path w -> first_run_state path w'.

Definition legacy_text_fields : list string :=
  [ "received_at"; "downloaded_at"; "from_address"; "to_address"; "subject";
    "labels"; "body" ].

(** A row of the old layout: an integer identifier, text in the
    mandatory columns, text or NULL in [cc_address]. *)
Definition legacy_row (cols : list column) (r : list sqlval) : Prop :=
  (exists z, cell cols "id" r = Some (VInt z))
  /\ Forall (fun k => exists s, cell cols k r = Some (VText s)) legacy_text_fields
  /\ (cell cols "cc_address" r = Some VNull
      \/ exists s, cell cols "cc_address" r = Some (VText s)).

(** An old table, in whatever column order: the columns the copy reads
    are there, the rows are old rows, the identifiers are distinct. *)
Definition legacy_layout (t : table) : Prop :=
  Forall (fun k => has_column (t_cols t) k = true)
         ("id" :: "cc_address" :: legacy_text_fields)
  /\ Forall (legacy_row (t_cols t)) (t_rows t)
  /\ NoDup (map (cell (t_cols t) "id") (t_rows t)).

(** The row the copy makes of an old row. *)
Definition migrated_row (cols : list column) (r : list sqlval) : list sqlval :=
  zip_with (fun c e => apply_affinity (col_type c) (eval_expr cols r e))
           current_columns migration_select.

Definition migration_index_names : list string :=
  [ "idx_downloaded_at"; "idx_from_address"; "idx_thread_id" ].

(** The names the migration creates are free: no table or index is
    called [emails_new], no index is called [emails], and the three index
    names are not tables and, if they are indexes, are indexes of
    [emails], which go with it. *)
Definition free_names (db : Database) : Prop :=
  db_tables db !! "emails_new" = None
  /\ db_indexes db !! "emails_new" = None
  /\ db_indexes db !! "emails" = None
  /\ Forall (fun n => db_tables db !! n = None
                      /\ forall tc, db_indexes db !! n = Some tc -> tc.1 = "emails")
            migration_index_names.

(** The indexes once [emails] is dropped and [emails_new] renamed. *)
Definition swapped_indexes (indexes : gmap string (string * string))
    : gmap string (string * string) :=
  (fun tc : string * string => if tc.1 =? "emails_new" then ("emails", tc.2) else tc)
  <$> filter (fun kv => kv.2.1 <> "emails") indexes.

(** The indexes once the migration has created its three. *)
Definition migration_indexes_of (indexes : gmap string (string * string))
    : gmap string (string * string) :=
  <["idx_thread_id" := ("emails", "thread_id")]>
    (<["idx_from_address" := ("emails", "from_address")]>
       (<["idx_downloaded_at" := ("emails", "downloaded_at")]> indexes)).

(** What [needsMigration] looks for: a column [id] of type INTEGER and
    no column [thread_id]. *)
Definition old_identifier (cols : list column) : Prop :=
  (exists c, find (fun col => col_name col =? "id") cols = Some c
             /\ col_type c = "INTEGER")
  /\ existsb (fun col => col_name col =? "thread_id") cols = false.

(** ** Sample data *)

(** The store [initDatabase] makes of a machine without database. *)
Definition empty_store : Database := (initDatabase no_database).2.

Definition sample_message : jsobj :=
  list_to_map
    [ ("id", JStr "18c1a2b3"); ("thread_id", JStr "18c1a2b0");
      ("received_at", JStr "2025-11-01T10:00:00.000Z");
      ("downloaded_at", JStr "2025-11-01T10:00:02.000Z");
      ("from_address", JStr "ana@example.com");
      ("to_address", JStr "rui@example.com");
      ("cc_address", JNull);
      ("subject", JStr "Hello"); ("labels", JStr "[]"); ("body", JStr "A") ].


(** A POST of [payload] to [/webhook]. *)
Definition post (payload : jsobj) : Request :=
  mkRequest (Some "application/json") 512 (JsonObject payload).

(** A stand-in for the runtime's JSON on label arrays: labels joined
    between brackets, and a text in brackets counts as an array. *)
Definition sample_stringify (labels : list string) : string :=
  "[" +:+ join_comma labels +:+ "]".

Definition sample_parse_is_array (text : string) : result bool :=
  if String.prefix "[" text then Ok true else Throw "Unexpected token".

(** A parser that finds the same sender, recipient, subject and date in
    every message and takes the text after the blank line as the body. *)
Definition sample_parser (fullEmail : string) : result Parsed :=
  Ok (mkParsed (Some "Hello") None (Some "Greetings") (Some "ana@example.com")
        (Some "rui@example.com") None (Some "2025-10-30T08:00:00.000Z")).

Definition sample_clock (n : nat) : string :=
  "2025-11-01T10:00:0" +:+ pretty n +:+ ".000Z".

Definition sample_email (uid : Z) : EmailData :=
  mkEmailData (Some "From: ana@example.com") (Some "Hello")
    (Some (mkAttrs (JNum (100 + uid)) (LabelsArray ["Inbox"]) (JStr "1700"))).

(** A mailbox of three old messages, uids 1 to 3. *)
Definition mailbox_host : Host :=
  mkHost (ConnectReady (Ok 3%nat)) (Ok [1; 2; 3]%Z)
    (fun uid => if ((1 <=? uid) && (uid <=? 3))%Z then Ok (sample_email uid)
                else Throw "Nothing to fetch")
    sample_parser sample_stringify sample_parse_is_array sample_clock.

(** A mailbox with the single message 1. *)
Definition single_host : Host :=
  mkHost (ConnectReady (Ok 1%nat)) (Ok [1]%Z)
    (fun uid => if (uid =? 1)%Z then Ok (sample_email uid)
                else Throw "Nothing to fetch")
    sample_parser sample_stringify sample_parse_is_array sample_clock.

(** The same mailbox where message 2 cannot be fetched. *)
Definition faulty_host : Host :=
  mkHost (ConnectReady (Ok 3%nat)) (Ok [1; 2; 3]%Z)
    (fun uid => if ((uid =? 1) || (uid =? 3))%Z then Ok (sample_email uid)
                else Throw "Fetch failed")
    sample_parser sample_stringify sample_parse_is_array sample_clock.

Definition sample_config : Config := mkConfig "data/current_state.json".


(** The monitor of the faulty mailbox once started. *)
Definition started : World :=
  (initialize faulty_host sample_config fresh_world).2.

(** The layout before the refactoring: an integer identifier, no
    thread, the other columns in the old order. *)
Definition legacy_columns : list column :=
  [ Column "id" "INTEGER" true true;
    Column "from_address" "TEXT" true false;
    Column "to_address" "TEXT" true false;
    Column "cc_address" "TEXT" false false;
    Column "subject" "TEXT" true false;
    Column "body" "TEXT" true false;
    Column "received_at" "TEXT" true false;
    Column "labels" "TEXT" true false;
    Column "downloaded_at" "TEXT" true false ].

Definition legacy_rows : list (list sqlval) :=
  [ [ VInt 41; VText "ana@example.com"; VText "rui@example.com"; VNull;
      VText "First"; VText "Body one"; VText "2025-10-01T08:00:00.000Z";
      VText "[]"; VText "2025-10-01T08:00:05.000Z" ];
    [ VInt 42; VText "eva@example.com"; VText "rui@example.com";
      VText "ana@example.com"; VText "Second"; VText "Body two";
      VText "2025-10-02T09:00:00.000Z"; VText "[]";
      VText "2025-10-02T09:00:05.000Z" ] ].

(** A database file with the old [emails] table and its indexes. *)
Definition legacy_database : Database :=
  mkDatabase false
    {[ "emails" := Table legacy_columns legacy_rows ]}
    (list_to_map [ ("idx_downloaded_at", ("emails", "downloaded_at"));
                   ("idx_from_address", ("emails", "from_address")) ])
    None.

(** The same file with one more table, whose index has the name the
    migration gives to its third index. *)
Definition legacy_database_with_notes : Database :=
  mkDatabase false
    (list_to_map [ ("emails", Table legacy_columns legacy_rows);
                   ("notes", Table [Column "thread_id" "TEXT" false false] []) ])
    (list_to_map [ ("idx_downloaded_at", ("emails", "downloaded_at"));
                   ("idx_from_address", ("emails", "from_address"));
                   ("idx_thread_id", ("notes", "thread_id")) ])
    None.

(** The worlds the sample runs end in: a fresh machine and one message;
    the mailbox of three once started, after a [mail] event, and after
    the end of its connection. *)
Definition first_message_world : World :=
  (run single_host sample_config [EvMail 1] fresh_world).2.

Definition mailbox_started : World :=
  (initialize mailbox_host sample_config fresh_world).2.

Definition mailbox_after_mail : World :=
  (deliver mailbox_host sample_config [EvMail 1] mailbox_started).2.

Definition mailbox_after_end : World :=
  (dispatch mailbox_host sample_config EvEnd mailbox_started).2.

(** The file with the table [notes], opened, and after the first
    [db.exec] of the migration. *)
Definition notes_opened : Database :=
  (open_database legacy_database_with_notes).2.

Definition notes_copied : result unit * Database :=
  (sql_count "emails" >> migration_copy) notes_opened.

(** A state file holding the initial state, and an update of its phase. *)
Definition sample_files : files :=
  {[ "data/current_state.json" := FJson INITIAL_STATE ]}.


(** A parser that reads only a text that starts with a sender line. *)
Definition strict_parser (fullEmail : string) : result Parsed :=
  if String.prefix "From: " fullEmail then sample_parser fullEmail
  else Throw "Not a message".

(** A mailbox of three messages where message 2 is no mail text. *)
Definition mixed_host : Host :=
  mkHost (ConnectReady (Ok 3%nat)) (Ok [1; 2; 3]%Z)
    (fun uid => if ((uid =? 1) || (uid =? 3))%Z then Ok (sample_email uid)
                else if (uid =? 2)%Z
                then Ok (mkEmailData (Some "%PDF-1.4") (Some "Hello")
                           (Some (mkAttrs (JNum 102) LabelsAbsent JUndefined)))
                else Throw "Nothing to fetch")
    strict_parser sample_stringify sample_parse_is_array sample_clock.

(** The monitor of that mailbox once started. *)
Definition mixed_started : World :=
  (initialize mixed_host sample_config fresh_world).2.

(** Message 1 of the sample mailboxes as an envelope. *)
Definition sample_envelope : Envelope :=
  mkEnvelope "101" "1700" "2025-10-30T08:00:00.000Z" "ana@example.com"
    "rui@example.com" None "Greetings" ["Inbox"] "Hello".

(** A parser that tells two senders apart and reads nothing else. *)
Definition sender_parser (fullEmail : string) : result Parsed :=
  if String.prefix "From: ana" fullEmail
  then Ok (mkParsed (Some "Hello") None (Some "Greetings") (Some "ana@example.com")
             (Some "rui@example.com") None (Some "2025-10-30T08:00:00.000Z"))
  else if String.prefix "From: eva" fullEmail
  then Ok (mkParsed (Some "Bye") None (Some "Farewell") (Some "eva@example.com")
             (Some "rui@example.com") None (Some "2025-10-31T09:00:00.000Z"))
  else Throw "Not a message".

(** A mailbox of three messages whose attributes carry a thread and
    labels but no [id]: message 1 from ana, message 3 from eva, message 2
    no mail text. *)
Definition unnumbered_host : Host :=
  mkHost (ConnectReady (Ok 3%nat)) (Ok [1; 2; 3]%Z)
    (fun uid =>
       if (uid =? 1)%Z
       then Ok (mkEmailData (Some "From: ana@example.com") (Some "Hello")
                  (Some (mkAttrs JUndefined (LabelsArray ["Inbox"]) (JStr "1700"))))
       else if (uid =? 2)%Z
       then Ok (mkEmailData (Some "%PDF-1.4") (Some "Hello")
                  (Some (mkAttrs JUndefined LabelsAbsent JUndefined)))
       else if (uid =? 3)%Z
       then Ok (mkEmailData (Some "From: eva@example.com") (Some "Bye")
                  (Some (mkAttrs JUndefined (LabelsArray ["Inbox"]) (JStr "1701"))))
       else Throw "Nothing to fetch")
    sender_parser sample_stringify sample_parse_is_array sample_clock.

(** The monitor of that mailbox once started, and after the batch of
    its three messages. *)
Definition unnumbered_started : World :=
  (initialize unnumbered_host sample_config fresh_world).2.

Definition unnumbered_after_batch : World :=
  (process_each unnumbered_host "data/current_state.json" [1; 2; 3]%Z
     unnumbered_started).2.

(** Messages 1 and 3 of that mailbox as envelopes. *)
Definition ana_envelope : Envelope :=
  mkEnvelope "undefined" "1700" "2025-10-30T08:00:00.000Z" "ana@example.com"
    "rui@example.com" None "Greetings" ["Inbox"] "Hello".

Definition eva_envelope : Envelope :=
  mkEnvelope "undefined" "1701" "2025-10-31T09:00:00.000Z" "eva@example.com"
    "rui@example.com" None "Farewell" ["Inbox"] "Bye".

(** ** Further functions of the modules *)

(** A record [validateState] accepts. *)
Definition valid_state (s : jsobj) : Prop :=
  Forall (fun k => hasOwnProperty s k = true) required_state_fields
  /\ (exists z, prop s "last_uid" = JNum z /\ (0 <= z)%Z)
  /\ (exists st, prop s "connection_status" = JStr st /\ st ∈ validStatuses)
  /\ (exists t, prop s "last_uid_received_at" = JStr t /\ t <> "")
  /\ (exists t, prop s "last_connected_at" = JStr t /\ t <> "")
  /\ (prop s "last_error" = JNull \/ exists e, prop s "last_error" = JStr e).

(** The indexes once [CREATE INDEX IF NOT EXISTS iname ON emails(cname)]
    has run: an index of that name, whatever it indexes, is left alone. *)
Definition ensure_index (iname cname : string)
    (indexes : gmap string (string * string)) : gmap string (string * string) :=
  match indexes !! iname with
  | Some _ => indexes
  | None => <[iname := ("emails", cname)]> indexes
  end.

(** The indexes once [initDatabase] has created its three. *)
Definition ensure_indexes (indexes : gmap string (string * string))
    : gmap string (string * string) :=
  ensure_index "idx_thread_id" "thread_id"
    (ensure_index "idx_from_address" "from_address"
       (ensure_index "idx_downloaded_at" "downloaded_at" indexes)).

(** The order [ORDER BY] puts stored values in: NULL first, then the
    numbers by value, then the texts byte by byte. *)
Definition sql_leb (a b : sqlval) : bool :=
  match a, b with
  | VNull, _ => true
  | _, VNull => false
  | (VInt x | VReal x), (VInt y | VReal y) => (x <=? y)%Z
  | (VInt _ | VReal _), VText _ => true
  | VText _, (VInt _ | VReal _) => false
  | VText s, VText t => String.leb s t
  end.

(** [r] comes no later than [r'] under [ORDER BY cname]. *)
Definition ordered_by (cols : list column) (cname : string) : relation (list sqlval) :=
  fun r r' => sql_leb (default VNull (cell cols cname r))
                      (default VNull (cell cols cname r')) = true.

Global Instance ordered_by_dec cols cname r r' : Decision (ordered_by cols cname r r').
Proof. unfold ordered_by. apply _. Defined.

(** [ORDER BY cname]; SQLite leaves the order of rows with equal keys
    open, here it is the one of the merge sort. *)
Definition order_by (cols : list column) (cname : string)
    (rows : list (list sqlval)) : list (list sqlval) :=
  merge_sort (ordered_by cols cname) rows.

(** [ORDER BY cname DESC] *)
Definition order_by_desc (cols : list column) (cname : string)
    (rows : list (list sqlval)) : list (list sqlval) :=
  merge_sort (flip (ordered_by cols cname)) rows.

(** [getEmailsByThread(db, threadId)]: the rows of the thread by
    [received_at]; a row whose [thread_id] is empty is in no thread. *)
Definition getEmailsByThread (threadId : jsval) : M Database (list (list sqlval)) :=
  try_catch
    (with_open (fun db =>
       match db_tables db !! "emails" with
       | None => (Throw "no such table: emails", db)
       | Some t =>
           if negb (has_column (t_cols t) "thread_id")
           then (Throw "no such column: thread_id", db)
           else if negb (has_column (t_cols t) "received_at")
           then (Throw "no such column: received_at", db)
           else match bind_value threadId with
                | Throw e => (Throw e, db)
                | Ok v =>
                    (Ok (order_by (t_cols t) "received_at"
                           (filter (fun r => cell (t_cols t) "thread_id" r
                                             <> Some (VText ""))
                                   (rows_where_eq t "thread_id" v))), db)
                end
       end))
    (fun e => throw ("Thread query failed: " +:+ e)).

(** The four columns [getRecentEmails] selects. *)
Definition recent_columns : list string :=
  [ "id"; "from_address"; "subject"; "downloaded_at" ].

Definition select_columns (cols : list column) (names : list string)
    (r : list sqlval) : list sqlval :=
  map (fun n => default VNull (cell cols n r)) names.

(** [LIMIT n]: a negative bound is no bound. *)
Definition sql_limit {A} (n : Z) (l : list A) : list A :=
  if (n <? 0)%Z then l else take (Z.to_nat n) l.

(** [getRecentEmails(db, limit = 100)], for a [limit] that is an integer
    or left out. *)
Definition getRecentEmails (limit : option Z) : M Database (list (list sqlval)) :=
  try_catch
    (with_open (fun db =>
       match db_tables db !! "emails" with
       | None => (Throw "no such table: emails", db)
       | Some t =>
           match find (fun n => negb (has_column (t_cols t) n)) recent_columns with
           | Some n => (Throw ("no such column: " +:+ n), db)
           | None =>
               (Ok (map (select_columns (t_cols t) recent_columns)
                      (sql_limit (default 100%Z limit)
                         (order_by_desc (t_cols t) "downloaded_at" (t_rows t)))), db)
           end
       end))
    (fun e => throw ("Recent emails query failed: " +:+ e)).

(** An earlier message of the thread of the sample message, and a store
    that holds both, the later one stored first. *)
Definition sample_earlier : jsobj :=
  <["id" := JStr "18c1a2b1"]>
    (<["received_at" := JStr "2025-10-31T09:00:00.000Z"]>
       (<["downloaded_at" := JStr "2025-11-01T10:00:03.000Z"]> sample_message)).

Definition sample_thread_store : Database :=
  store_all [sample_message; sample_earlier] empty_store.

(** A header object: the names are lower-case, not empty and not
    [__proto__], the values are trimmed strings. *)
Definition normalised_headers (headers : jsobj) : Prop :=
  forall k v, headers !! k = Some v ->
    k <> "" /\ k <> "__proto__" /\ toLowerCase k = k
    /\ exists s, v = JStr s /\ trim s = s.

(** A text with no colon, and a text with no line terminator. *)
Fixpoint has_colon (s : string) : bool :=
  match s with
  | EmptyString => false
  | String c s' => Ascii.eqb c ":" || has_colon s'
  end.

Definition cons_head (c : ascii) (ls : list string) : list string :=
  match ls with
  | l :: ls' => String c l :: ls'
  | [] => [String c EmptyString]
  end.


(** A process that has created its client and nothing else. *)
Definition client_created : World :=
  mkWorld no_database ∅ [] 0 (Some new_ImapClient) false None.

(** A server that refuses the connection. *)
Definition refusing_host : Host :=
  mkHost (ConnectError "Invalid credentials") (Ok []) (fun _ => Throw "Not connected")
    sample_parser sample_stringify sample_parse_is_array sample_clock.

(** The test of [validatePayload] on a payload that has no member
    called [hasOwnProperty]. *)
Definition is_missing (payload : jsobj) (field : string) : bool :=
  negb (hasOwnProperty payload field)
  || nullish (prop payload field)
  || match prop payload field with
     | JStr s => trim s =? ""
     | _ => false
     end.

Definition PORT : Z := 8455.

(** [handleHealthGet]: [start_ms] is [SERVER_START_TIME], [now_ms] the
    reading of [Date.now()] and [timestamp] the ISO text of the date of
    the answer. *)
Definition handleHealthGet (start_ms now_ms : Z) (timestamp : string)
    : M Database Response :=
  fun db =>
    let uptime := ((now_ms - start_ms) / 1000)%Z in
    let (probe, db') := sql_count "emails" db in
    let connected := match probe with Ok _ => true | Throw _ => false end in
    (Ok (mkResponse 200
           (list_to_map
              [ ("status", JStr (if connected then "healthy" else "degraded"));
                ("uptime", JNum uptime);
                ("port", JNum PORT);
                ("database", JStr (if connected then "connected" else "disconnected"));
                ("timestamp", JStr timestamp) ])), db').

(** A request as the router sees it: the path with its query string,
    the method, and what [handleWebhookPost] reads. *)
Record HttpRequest : Type := mkHttpRequest {
  http_url : string;
  http_method : string;
  http_request : Request
}.

(** An answer with its [Allow] header, if it has one. *)
Record Reply : Type := mkReply {
  reply_response : Response;
  reply_allow : option string
}.

Definition handle404 (url : string) : Reply :=
  mkReply (mkResponse 404 (formatErrorResponse ("Endpoint not found: " +:+ url)
                             (JStr "NOT_FOUND"))) None.

Definition handle405 (method url allowedMethods : string) : Reply :=
  mkReply (mkResponse 405 (formatErrorResponse
                             ("Method " +:+ method +:+ " not allowed for " +:+ url)
                             (JStr "METHOD_NOT_ALLOWED")))
          (Some allowedMethods).

(** The listener of [http.createServer]. *)
Definition route (start_ms now_ms : Z) (timestamp : string) (req : HttpRequest)
    : M Database Reply :=
  try_catch
    (if (http_url req =? "/webhook") || (http_url req =? "/webhook/")
     then if http_method req =? "POST"
          then let* res := handleWebhookPost (http_request req) in
               ret (mkReply res None)
          else ret (handle405 (http_method req) (http_url req) "POST")
     else if (http_url req =? "/health") || (http_url req =? "/health/")
     then if http_method req =? "GET"
          then let* res := handleHealthGet start_ms now_ms timestamp in
               ret (mkReply res None)
          else ret (handle405 (http_method req) (http_url req) "GET")
     else ret (handle404 (http_url req)))
    (fun _ => ret (mkReply (mkResponse 500 (formatErrorResponse "Internal server error"
                                              (JStr "INTERNAL_ERROR"))) None)).

(** The paths of the two endpoints. *)
Definition webhook_path (url : string) : Prop := url = "/webhook" \/ url = "/webhook/".

Definition health_path (url : string) : Prop := url = "/health" \/ url = "/health/".

(** The store can be read: the handle is open and has a table
    [emails]. *)
Definition store_reachable (db : Database) : Prop :=
  db_open db = true /\ is_Some (db_tables db !! "emails").

(** ** tunnel.js *)
(** The waits between restarts, in milliseconds. *)
Definition BACKOFF_SCHEDULE : list Z :=
  [ 10 * 1000; 30 * 1000; 60 * 1000; 5 * 60 * 1000; 60 * 60 * 1000 ]%Z.

Definition getBackoffDelay (attempt : nat) : Z :=
  if (attempt <? length BACKOFF_SCHEDULE)%nat
  then nth attempt BACKOFF_SCHEDULE 0%Z
  else nth (length BACKOFF_SCHEDULE - 1) BACKOFF_SCHEDULE 0%Z.

(** [`${n} unit${n > 1 ? 's' : ''}`] *)
Definition counted (n : Z) (noun : string) : string :=
  pretty n +:+ " " +:+ noun +:+ (if (1 <? n)%Z then "s" else "").

Definition formatDelay (ms : Z) : string :=
  let seconds := (ms / 1000)%Z in
  let minutes := (seconds / 60)%Z in
  let hours := (minutes / 60)%Z in
  if (0 <? hours)%Z then counted hours "hour"
  else if (0 <? minutes)%Z then counted minutes "minute"
  else counted seconds "second".

(** The tunnel manager: the counter of restarts, the tunnels started,
    the timers set and the notifications sent, oldest first. *)
Record Manager : Type := mkManager {
  attemptCount : nat;
  tunnels_started : nat;
  timers_set : list Z;
  notifications : list string
}.

(** The text [handleRestart] notifies with. *)
Definition restart_notification (attemptCount : nat) : string :=
  let attemptInfo := if (attemptCount =? 3)%nat then "after 5 minutes"
                     else "attempt " +:+ pretty (S attemptCount) in
  "Tunnel failed to create connection (" +:+ attemptInfo +:+ "). Retrying in "
  +:+ formatDelay (getBackoffDelay attemptCount) +:+ ".".

(** [handleRestart()]: the timer is set, not yet fired. *)
Definition handleRestart (m : Manager) : Manager :=
  let delay := getBackoffDelay (attemptCount m) in
  mkManager (attemptCount m) (tunnels_started m) (timers_set m ++ [delay])
    (if (3 <=? attemptCount m)%nat
     then notifications m ++ [restart_notification (attemptCount m)]
     else notifications m).

(** The timer of [handleRestart] fires. *)
Definition timer_fires (m : Manager) : Manager :=
  mkManager (S (attemptCount m)) (S (tunnels_started m)) (timers_set m)
    (notifications m).

(** The [exit] listener of [startTunnel]: [code] is [null] when a signal
    ended the tunnel. *)
Definition on_exit (code : option Z) (signal : option string) (m : Manager) : Manager :=
  match code, signal with
  | Some 0%Z, None => m
  | Some 0%Z, Some "" => m
  | _, _ => handleRestart m
  end.

(** The first tunnel is running. *)
Definition manager_started : Manager := mkManager 0 1 [] [].

(** [n] tunnels in a row end with the exit code 1, each restarted when
    its timer fires. *)
Fixpoint failures (n : nat) (m : Manager) : Manager :=
  match n with
  | O => m
  | S n' => failures n' (timer_fires (on_exit (Some 1%Z) None m))
  end.

(** * Properties *)

(** ** The store *)
Lemma bind_values_10 a0 a1 a2 a3 a4 a5 a6 a7 a8 a9 vals :
  bind_values [a0;a1;a2;a3;a4;a5;a6;a7;a8;a9] = Ok vals ->
  exists b0 b1 b2 b3 b4 b5 b6 b7 b8 b9,
    vals = [b0;b1;b2;b3;b4;b5;b6;b7;b8;b9]
    /\ bind_value a0 = Ok b0 /\ bind_value a1 = Ok b1 /\ bind_value a2 = Ok b2
    /\ bind_value a3 = Ok b3 /\ bind_value a4 = Ok b4 /\ bind_value a5 = Ok b5
    /\ bind_value a6 = Ok b6 /\ bind_value a7 = Ok b7 /\ bind_value a8 = Ok b8
    /\ bind_value a9 = Ok b9.
Proof.
  simpl.
  destruct (bind_value a0), (bind_value a1), (bind_value a2), (bind_value a3),
    (bind_value a4), (bind_value a5), (bind_value a6), (bind_value a7),
    (bind_value a8), (bind_value a9); try discriminate.
  intros [= <-]. repeat eexists.
Qed.

Lemma holds_at_false i v rows :
  v <> VNull -> holds_at i v rows = false ->
  forall r, r ∈ rows -> r !! i <> Some v.
Proof.
  intros Hv H r Hr Heq. unfold holds_at in H.
  destruct v; try done; simpl in H.
  all: assert (existsb (λ r, bool_decide (r !! i = Some _)) rows = true) as Hex
    by (apply existsb_exists; exists r; split;
        [by apply list_elem_of_In | by apply bool_decide_eq_true]).
  all: congruence.
Qed.

Lemma sql_insert_current db rows args :
  current_layout db rows ->
  sql_insert "emails" email_columns args db =
  match bind_values args with
  | Throw e => (Throw e, db)
  | Ok vals =>
      match insert_row "emails" (Table current_columns rows) (built_row vals) with
      | Throw e => (Throw e, db)
      | Ok t' => (Ok tt, set_tables (<["emails" := t']> (db_tables db)) db)
      end
  end.
Proof.
  intros [Hopen Htab]. unfold sql_insert, with_open. rewrite Hopen, Htab.
  reflexivity.
Qed.

Lemma insert_row_current rows v0 row t' :
  insert_row "emails" (Table current_columns rows) (v0 :: row) = Ok t' ->
  t' = Table current_columns (rows ++ [v0 :: row])
  /\ v0 <> VNull
  /\ forall r, r ∈ rows -> r !! 0%nat <> Some v0.
Proof.
  unfold insert_row. simpl t_cols. simpl t_rows.
  destruct (notnull_violation current_columns (v0 :: row)) eqn:Hnn; [done|].
  destruct (unique_violation 0 current_columns rows (v0 :: row)) eqn:Hu; [done|].
  intros [= <-]. split; [done|].
  simpl in Hu. simpl in Hnn.
  assert (v0 <> VNull) as Hv by (by destruct v0).
  split; [done|].
  destruct (holds_at 0 v0 rows) eqn:Hh; [done|].
  by apply holds_at_false.
Qed.

Lemma select_id_current db rows arg :
  current_layout db rows ->
  sql_select_where_eq "emails" "id" arg db =
  (match bind_value arg with
   | Throw e => Throw e
   | Ok v => Ok (filter (fun r => text_of v <> VNull /\ r !! 0%nat = Some (text_of v)) rows)
   end, db).
Proof.
  intros [Hopen Htab]. unfold sql_select_where_eq, with_open.
  rewrite Hopen, Htab. simpl. by destruct (bind_value arg).
Qed.

Lemma storeEmail_cases db rows email :
  current_layout db rows ->
  match storeEmail email db with
  | (Ok true, db') =>
      exists row, current_layout db' (rows ++ [row])
                  /\ (forall r, r ∈ rows -> r !! 0%nat <> row !! 0%nat)
  | (_, db') => db' = db
  end.
Proof.
  intros Hcur.
  unfold storeEmail, try_catch, bind.
  rewrite (select_id_current _ _ _ Hcur).
  destruct (bind_value (prop email "id")) as [v|e]; simpl; [|done].
  destruct (filter _ rows); simpl; [|done].
  rewrite (sql_insert_current _ _ _ Hcur).
  destruct (bind_values (email_args email)) as [vals|e] eqn:Hb; simpl; [|done].
  apply bind_values_10 in Hb as (b0&b1&b2&b3&b4&b5&b6&b7&b8&b9&->&_).
  change (built_row [b0;b1;b2;b3;b4;b5;b6;b7;b8;b9])
    with [text_of b0; text_of b1; text_of b2; text_of b3; text_of b4;
          text_of b5; text_of b6; text_of b7; text_of b8; text_of b9].
  destruct (insert_row _ _ _) as [t'|e] eqn:Hins; simpl; [|done].
  apply insert_row_current in Hins as (-> & _ & Hfresh).
  eexists. split.
  - destruct Hcur as [Hopen _]. split; [done|]. simpl. by rewrite lookup_insert_eq.
  - exact Hfresh.
Qed.

Lemma storeEmail_duplicate db rows email id :
  current_layout db rows ->
  prop email "id" = JStr id ->
  rows_with_id id rows <> [] ->
  storeEmail email db = (Ok false, db).
Proof.
  intros Hcur Hid Hdup.
  unfold storeEmail, try_catch, bind.
  rewrite (select_id_current _ _ _ Hcur), Hid. simpl.
  rewrite (list_filter_iff _ (fun r => r !! 0%nat = Some (VText id)))
    by (intros r; split; [by intros [_ ?] | by split]).
  fold (rows_with_id id rows).
  by destruct (rows_with_id id rows).
Qed.

Lemma is_string_inv v : is_string v = true -> exists s, v = JStr s.
Proof. destruct v; try done. by eexists. Qed.

Lemma Message_bind email :
  Message email ->
  bind_values (email_args email) = Ok (message_row email)
  /\ built_row (message_row email) = message_row email
  /\ notnull_violation current_columns (message_row email) = None.
Proof.
  intros [Hm Hcc]. unfold mandatory_fields in Hm.
  repeat (apply Forall_cons in Hm as [[? ?]%is_string_inv Hm]).
  unfold message_row, field_cell, email_args, js_or. cbn [map current_columns col_name].
  repeat match goal with H : prop email _ = JStr _ |- _ => rewrite H; clear H end.
  destruct (prop email "cc_address"); destruct Hcc; try done;
    match goal with |- context [truthy (JStr ?t)] => destruct t end; done.
Qed.

Lemma holds_at_fresh i v rows :
  (forall r, r ∈ rows -> r !! i <> Some v) -> holds_at i v rows = false.
Proof.
  intros H. unfold holds_at. apply andb_false_iff. right.
  apply not_true_is_false. intros (r & Hr & Hd)%existsb_exists.
  apply bool_decide_eq_true in Hd. apply list_elem_of_In in Hr. by apply (H r).
Qed.

Lemma rows_with_id_nil id rows :
  rows_with_id id rows = [] <-> forall r, r ∈ rows -> r !! 0%nat <> Some (VText id).
Proof.
  unfold rows_with_id. split.
  - intros H r Hr Heq. by apply (filter_nil_not_elem_of _ _ r H).
  - induction rows as [|r rows IH]; intros H; [done|].
    rewrite filter_cons_False by (apply H, list_elem_of_here).
    apply IH. intros r' Hr'. apply H. by apply list_elem_of_further.
Qed.

Lemma rows_with_id_app id rows row :
  rows_with_id id (rows ++ [row]) =
  rows_with_id id rows ++ (if decide (row !! 0%nat = Some (VText id)) then [row] else []).
Proof.
  unfold rows_with_id. by rewrite filter_app.
Qed.

Lemma emails_rows_current db rows :
  current_layout db rows -> emails_rows db = rows.
Proof. intros [_ H]. unfold emails_rows. by rewrite H. Qed.

Lemma storeEmail_first db rows m id :
  current_layout db rows -> Message m -> prop m "id" = JStr id ->
  rows_with_id id rows = [] ->
  exists db1, storeEmail m db = (Ok true, db1)
              /\ current_layout db1 (rows ++ [message_row m]).
Proof.
  intros Hcur Hm Hid Hfresh.
  destruct (Message_bind m Hm) as (Hb & Hbuilt & Hnn).
  unfold storeEmail, try_catch, bind.
  rewrite (select_id_current _ _ _ Hcur), Hid. simpl.
  rewrite (list_filter_iff _ (fun r => r !! 0%nat = Some (VText id)))
    by (intros r; split; [by intros [_ ?] | by split]).
  fold (rows_with_id id rows). rewrite Hfresh.
  rewrite (sql_insert_current _ _ _ Hcur), Hb, Hbuilt.
  unfold insert_row. simpl t_cols. simpl t_rows. rewrite Hnn.
  assert (message_row m !! 0%nat = Some (VText id)) as H0
    by (unfold message_row, field_cell; simpl; by rewrite Hid).
  destruct (message_row m) as [|v0 row] eqn:Hrow; [done|].
  injection H0 as ->.
  simpl. rewrite (holds_at_fresh 0 (VText id) rows)
    by (by apply rows_with_id_nil).
  simpl. eexists. split; [reflexivity|].
  destruct Hcur as [Hopen _]. split; [done|]. simpl. by rewrite lookup_insert_eq.
Qed.

(** The row stored for [id] stays the only one, whatever is stored next. *)
Lemma storeEmail_keeps id row1 email db rows :
  current_layout db rows -> rows_with_id id rows = [row1] ->
  exists rows', current_layout (storeEmail email db).2 rows'
                /\ rows_with_id id rows' = [row1].
Proof.
  intros Hcur Hone.
  pose proof (storeEmail_cases db rows email Hcur) as Hc.
  destruct (storeEmail email db) as [[[|]|e] db']; simpl;
    try (subst db'; by exists rows).
  destruct Hc as (row & Hcur' & Hfresh).
  exists (rows ++ [row]). split; [done|].
  rewrite rows_with_id_app, Hone.
  destruct (decide (row !! 0%nat = Some (VText id))) as [Heq|]; [|done].
  exfalso.
  assert (row1 ∈ rows_with_id id rows) as Hin by (rewrite Hone; apply list_elem_of_here).
  apply list_elem_of_filter in Hin as [H1 Hin].
  apply (Hfresh row1 Hin). congruence.
Qed.

Lemma store_all_keeps id row1 emails : forall db rows,
  current_layout db rows -> rows_with_id id rows = [row1] ->
  exists rows', current_layout (store_all emails db) rows'
                /\ rows_with_id id rows' = [row1].
Proof.
  induction emails as [|e emails IH]; intros db rows Hcur Hone; simpl.
  - by exists rows.
  - destruct (storeEmail_keeps id row1 e db rows Hcur Hone) as (rows' & Hcur' & Hone').
    by apply (IH _ rows').
Qed.

Lemma rows_with_id_message id rows m :
  prop m "id" = JStr id -> rows_with_id id rows = [] ->
  rows_with_id id (rows ++ [message_row m]) = [message_row m].
Proof.
  intros Hid Hfresh. rewrite rows_with_id_app, Hfresh.
  rewrite decide_True; [done|].
  unfold message_row, field_cell. simpl. by rewrite Hid.
Qed.

(** C1: on a store that holds no row for the identifier of a Message,
    [storeEmail] writes the row of the message, in which the cell of
    each column is the field of the message that has the name of the
    column, and returns [true]; after that, and after any further calls
    of [storeEmail], a call with the same identifier returns [false] and
    writes nothing, and the store holds exactly one row for the
    identifier, the one stored first. *)
Theorem storeEmail_idempotent db rows m id :
  current_layout db rows -> Message m -> prop m "id" = JStr id ->
  rows_with_id id rows = [] ->
  exists db1,
    storeEmail m db = (Ok true, db1)
    /\ current_layout db1 (rows ++ [message_row m])
    /\ Forall (fun c => cell current_columns (col_name c) (message_row m)
                        = Some (field_cell m (col_name c)))
              current_columns
    /\ forall (later : list jsobj) (m' : jsobj),
         prop m' "id" = JStr id ->
         storeEmail m' (store_all later db1) = (Ok false, store_all later db1)
         /\ rows_with_id id (emails_rows (store_all later db1)) = [message_row m].
Proof.
  intros Hcur Hm Hid Hfresh.
  destruct (storeEmail_first db rows m id Hcur Hm Hid Hfresh) as (db1 & Hst & Hcur1).
  exists db1. split; [done|]. split; [done|].
  split; [repeat constructor|].
  intros later m' Hid'.
  pose proof (rows_with_id_message id rows m Hid Hfresh) as Hone.
  destruct (store_all_keeps id (message_row m) later db1 _ Hcur1 Hone)
    as (rows' & Hcur' & Hone').
  split.
  - apply (storeEmail_duplicate _ rows' _ id); [done|done|by rewrite Hone'].
  - by rewrite (emails_rows_current _ _ Hcur').
Qed.

Lemma storeEmail_idempotent_witness :
  exists db1,
    storeEmail sample_message empty_store = (Ok true, db1)
    /\ current_layout db1 ([] ++ [message_row sample_message])
    /\ Forall (fun c => cell current_columns (col_name c) (message_row sample_message)
                        = Some (field_cell sample_message (col_name c)))
              current_columns
    /\ forall (later : list jsobj) (m' : jsobj),
         prop m' "id" = JStr "18c1a2b3" ->
         storeEmail m' (store_all later db1) = (Ok false, store_all later db1)
         /\ rows_with_id "18c1a2b3" (emails_rows (store_all later db1))
            = [message_row sample_message].
Proof.
  apply (storeEmail_idempotent empty_store [] sample_message "18c1a2b3").
  - split; reflexivity.
  - split; [repeat constructor | right; reflexivity].
  - reflexivity.
  - reflexivity.
Defined.

(** ** The push endpoint *)







Lemma classify_stored v : classify (mkResponse 200 (formatSuccessResponse v "stored")) = AcceptedNew.
Proof. reflexivity. Qed.

Lemma classify_skipped v : classify (mkResponse 200 (formatSuccessResponse v "skipped")) = AcceptedDuplicate.
Proof. reflexivity. Qed.

Lemma echo_id v : prop (formatSuccessResponse v "skipped") "id" = v.
Proof. reflexivity. Qed.

Lemma getEmailById_one db rows id row :
  current_layout db rows -> rows_with_id id rows = [row] ->
  getEmailById (JStr id) db = (Ok (Some row), db).
Proof.
  intros Hcur Hone. unfold getEmailById, try_catch, bind.
  rewrite (select_id_current _ _ _ Hcur). simpl.
  rewrite (list_filter_iff _ (fun r => r !! 0%nat = Some (VText id)))
    by (intros r; split; [by intros [_ ?] | by split]).
  unfold rows_with_id in Hone. by rewrite Hone.
Qed.



Lemma filter_result_ext {A} (f g : A -> result bool) (l : list A) :
  (forall x, x ∈ l -> f x = g x) -> filter_result f l = filter_result g l.
Proof.
  induction l as [|x l IH]; intros H; [done|].
  simpl. rewrite (H x) by apply list_elem_of_here.
  rewrite IH; [done|]. intros y Hy. apply H. by apply list_elem_of_further.
Qed.

Lemma validatePayload_ext (p q : jsobj) :
  p !! "hasOwnProperty" = q !! "hasOwnProperty" ->
  (forall k, k ∈ REQUIRED_FIELDS -> p !! k = q !! k) ->
  validatePayload p = validatePayload q.
Proof.
  intros Hown H.
  assert (forall k, k ∈ REQUIRED_FIELDS -> field_missing p k = field_missing q k) as Hm.
  { intros k Hk. unfold field_missing, call_hasOwnProperty, hasOwnProperty, prop.
    by rewrite Hown, (H k Hk). }
  assert (forall k, k ∈ REQUIRED_FIELDS -> prop p k = prop q k) as Hp.
  { intros k Hk. unfold prop. by rewrite (H k Hk). }
  unfold validatePayload.
  rewrite (filter_result_ext (field_missing p) (field_missing q)) by exact Hm.
  destruct (filter_result (field_missing q) REQUIRED_FIELDS) as [[|? ?]|]; [|done|done].
  unfold REQUIRED_FIELDS in *. simpl.
  rewrite !Hp by (repeat constructor).
  repeat match goal with
         | |- context [is_string ?v] => destruct (is_string v); simpl
         end;
    rewrite ?Hp by (repeat constructor); done.
Qed.

(** The validation reads neither [to_address] nor [labels]. *)
Lemma validatePayload_ignores (payload : jsobj) :
  validatePayload (delete "to_address" (delete "labels" payload))
  = validatePayload payload.
Proof.
  apply validatePayload_ext; [by rewrite !lookup_delete_ne by done|].
  intros k Hk. unfold REQUIRED_FIELDS in Hk.
  rewrite !lookup_delete_ne; [done| |];
    intros <-; apply list_elem_of_In in Hk; simpl in Hk; intuition discriminate.
Qed.

(** C5: [REQUIRED_FIELDS] lists seven of the nine mandatory fields.  A
    payload without [to_address] is not a valid payload, yet
    [validatePayload] accepts it; the insert then fails on the NOT NULL
    column and the request is answered 500, a server error, where the
    specification wants the validation error 400. *)
Theorem webhook_accepts_missing_to_address :
  exists p, p = delete "to_address" sample_message /\
  ~ ValidPayload p
  /\ validatePayload p = Ok Valid
  /\ handleWebhookPost (post p) empty_store
     = (Ok (mkResponse 500 (formatErrorResponse "Database operation failed"
                              (JStr "DATABASE_ERROR"))), empty_store)
  /\ classify (mkResponse 500 (formatErrorResponse "Database operation failed"
                                 (JStr "DATABASE_ERROR"))) = RejectedServer.
Proof.
  eexists; split; [reflexivity|]. split; [|split; [|split]].
  - intros [H _]. unfold mandatory_fields in H.
    do 5 (apply Forall_cons in H as [_ H]). by apply Forall_cons in H as [H _].
  - reflexivity.
  - vm_compute. reflexivity.
  - reflexivity.
Qed.

(** ** The state file *)

Lemma length_append (a b : string) :
  String.length (a +:+ b) = (String.length a + String.length b)%nat.
Proof. induction a as [|c a IH]; simpl; [done|]. by rewrite IH. Qed.

Lemma tempPath_ne path : tempPath path <> path.
Proof.
  intros H. apply (f_equal String.length) in H.
  unfold tempPath in H. rewrite length_append in H. simpl in H. lia.
Qed.

Lemma validateState_ok state state' :
  validateState state = Ok state' -> state' = state.
Proof.
  unfold validateState.
  repeat match goal with
         | |- context [match ?x with _ => _ end] => destruct x; try discriminate
         end.
  by intros [= <-].
Qed.

Lemma readState_valid path s (fs : files) :
  fs !! path = Some (FJson s) -> validateState s = Ok s ->
  readState path fs = (Ok s, fs).
Proof.
  intros Hf Hv. unfold readState, try_catch. by rewrite Hf, Hv.
Qed.

Lemma writeStateAtomic_result path state (fs : files) :
  writeStateAtomic path state fs =
  (Ok tt, <[path := FJson (json_roundtrip state)]> (delete (tempPath path) fs)).
Proof.
  unfold writeStateAtomic, writeStateAtomic_ops. simpl.
  rewrite lookup_insert_eq. by rewrite delete_insert_eq.
Qed.



Lemma spread_frame (s u : jsobj) k : u !! k = None -> spread s u !! k = s !! k.
Proof. intros H. unfold spread. by rewrite lookup_union_r. Qed.

Lemma spread_update (s u : jsobj) k v : u !! k = Some v -> spread s u !! k = Some v.
Proof. intros H. unfold spread. by apply lookup_union_Some_l. Qed.



(** ** The mailbox path *)

Lemma fetchEmail_frame host id w :
  (fetchEmail host id w).1 = fetch_result host id (w_time w)
  /\ w_db (fetchEmail host id w).2 = w_db w
  /\ w_fs (fetchEmail host id w).2 = w_fs w
  /\ (w_time w <= w_time (fetchEmail host id w).2)%nat
  /\ same_process w (fetchEmail host id w).2.
Proof.
  unfold fetch_result, fetchEmail, try_catch, bind, lift_result, same_process.
  destruct (imap_fetch host id) as [d|e]; simpl; [|done].
  destruct (simpleParser host _) as [p|e]; simpl; [|done].
  destruct (p_date p); simpl; repeat split; lia.
Qed.

Lemma processEmail_cases host path id w :
  exists b w', processEmail host path id w = (Ok b, w') /\ same_process w w' /\
    match validated host id (w_time w) with
    | Throw _ => b = false /\ w_db w' = w_db w /\ w_fs w' = w_fs w
    | Ok r =>
        w_db w' = (storeEmail r (w_db w)).2 /\
        match (storeEmail r (w_db w)).1 with
        | Ok true =>
            w_fs w' = (updateState path (state_updates r) (w_fs w)).2
            /\ b = match (updateState path (state_updates r) (w_fs w)).1 with
                   | Ok _ => true
                   | Throw _ => false
                   end
        | _ => b = false /\ w_fs w' = w_fs w
        end
    end.
Proof.
  unfold processEmail, validated, try_catch, bind.
  set (w0 := (log DEBUG "Processing email" w).2).
  change (log DEBUG "Processing email" w) with (Ok tt, w0).
  cbv beta iota.
  destruct (fetchEmail_frame host id w0) as (Hr & Hdb & Hfs & _ & Hp).
  change (w_time w0) with (w_time w) in Hr.
  change (w_db w0) with (w_db w) in Hdb.
  change (w_fs w0) with (w_fs w) in Hfs.
  assert (same_process w w0) as Hp0 by done.
  destruct (fetchEmail host id w0) as [[r|e] w1]; simpl in Hr, Hdb, Hfs, Hp;
    rewrite <- Hr.
  2: { eexists _, _. split; [reflexivity|]. simpl. unfold same_process in *. 
       simpl. intuition congruence. }
  unfold lift_result.
  destruct (validateEmailRecord host r) as [r'|e].
  2: { eexists _, _. split; [reflexivity|]. simpl. unfold same_process in *.
       simpl. intuition congruence. }
  unfold on_db. rewrite Hdb.
  destruct (storeEmail r' (w_db w)) as [[[|]|e] db'] eqn:Hst; simpl.
  - unfold on_fs. simpl. rewrite Hfs.
    unfold state_updates.
    destruct (updateState path _ (w_fs w)) as [[s|e] fs']; simpl.
    + eexists _, _. split; [reflexivity|]. unfold same_process in *. simpl.
      intuition congruence.
    + eexists _, _. split; [reflexivity|]. unfold same_process in *. simpl.
      intuition congruence.
  - eexists _, _. split; [reflexivity|]. unfold same_process in *. simpl.
    intuition congruence.
  - eexists _, _. split; [reflexivity|]. unfold same_process in *. simpl.
    intuition congruence.
Qed.

(** C10: when the fetch, the parse, the validation or the insert fails
    for a message, [processEmail] returns [false] instead of throwing
    and every file, the state file among them, is as it was. *)
Theorem processEmail_failure host path id w :
  step_fails host id w ->
  exists w', processEmail host path id w = (Ok false, w') /\ w_fs w' = w_fs w.
Proof.
  intros Hf.
  destruct (processEmail_cases host path id w) as (b & w' & Hp & _ & Hc).
  exists w'.
  destruct Hf as [e He|r e Hr He|r e Hr He].
  - unfold validated in Hc. rewrite He in Hc. destruct Hc as (-> & _ & Hfs). done.
  - unfold validated in Hc. rewrite Hr, He in Hc.
    destruct Hc as (-> & _ & Hfs). done.
  - rewrite Hr in Hc. destruct Hc as (_ & Hc). rewrite He in Hc.
    destruct Hc as (-> & Hfs). done.
Qed.

Lemma stringish_or_string a b :
  stringish a -> is_string b = true -> is_string (js_or a b) = true.
Proof.
  intros [->|Ha] Hb; [done|]. unfold js_or. by destruct (truthy a).
Qed.

Lemma stringish_or a b : stringish a -> stringish b -> stringish (js_or a b).
Proof.
  intros [->|Ha] Hb; [done|]. unfold js_or. destruct (truthy a); [by right|done].
Qed.

Lemma stringish_of_opt o : stringish (of_opt o).
Proof. destruct o; [by right|by left]. Qed.

Lemma parseHeaders_stringish s k : stringish (prop (parseHeaders s) k).
Proof.
  unfold parseHeaders.
  generalize (split_crlf s). intros lines.
  assert (forall k, stringish (prop (∅ : jsobj) k)) as H0 by (intros; by left).
  revert H0. generalize (∅ : jsobj). revert k.
  induction lines as [|line lines IH]; intros k headers Hh; simpl; [done|].
  apply IH. intros k'.
  destruct (match_header line) as [[key value]|]; [|done].
  unfold set_header. destruct (toLowerCase key =? "__proto__"); [done|].
  unfold prop. destruct (decide (toLowerCase key = k')) as [->|Hne].
  - rewrite lookup_insert_eq. by right.
  - rewrite lookup_insert_ne by done. apply Hh.
Qed.

Lemma fetch_result_shape host uid t r :
  fetch_result host uid t = Ok r -> fetched_shape host uid r.
Proof.
  unfold fetch_result, fetchEmail, try_catch, bind, lift_result, fetched_shape,
    message_id.
  destruct (imap_fetch host uid) as [d|e]; simpl; [|done].
  destruct (simpleParser host _) as [p|e]; simpl; [|done].
  set (h := parseHeaders _).
  assert (forall k, stringish (prop h k)) as Hh
    by (intros; apply parseHeaders_stringish).
  assert (forall o k s, is_string (js_or (js_or (of_opt o) (prop h k)) (JStr s)) = true)
    as Hs.
  { intros. apply stringish_or_string; [|done].
    apply stringish_or; [apply stringish_of_opt | apply Hh]. }
  assert (forall o o' s, is_string (js_or (js_or (of_opt o) (of_opt o')) (JStr s)) = true)
    as Hs'.
  { intros. apply stringish_or_string; [|done].
    apply stringish_or; apply stringish_of_opt. }
  assert (forall o k, is_string (js_or (js_or (of_opt o) (prop h k)) JNull) = true
                      \/ js_or (js_or (of_opt o) (prop h k)) JNull = JNull) as Hcc.
  { intros o k.
    pose proof (stringish_or (of_opt o) (prop h k) (stringish_of_opt o) (Hh k)) as Hx.
    set (x := js_or (of_opt o) (prop h k)) in *.
    destruct Hx as [->|Hx]; [by right|].
    unfold js_or. destruct (truthy x); [by left|by right]. }
  destruct (p_date p); simpl; intros [= <-];
    (split; [reflexivity|]); (split; [|apply Hcc]);
    unfold mandatory_fields; repeat (constructor; [first [reflexivity|apply Hs|apply Hs']|]);
    constructor.
Qed.

Lemma fetched_shape_Message host uid r : fetched_shape host uid r -> Message r.
Proof.
  intros (_ & Hm & [Hc|Hc]); split; try done; [by left|right; by rewrite Hc].
Qed.

Lemma default_empty_string k email :
  is_string (prop email k) = true -> default_empty k email = email.
Proof. unfold default_empty. by destruct (prop email k). Qed.

Lemma fetched_shape_labels host uid r :
  fetched_shape host uid r -> fetched_shape host uid (<["labels" := JStr "[]"]> r).
Proof.
  intros (Hid & Hm & Hcc). unfold fetched_shape, prop in *.
  rewrite !lookup_insert_ne by done. split; [done|]. split; [|done].
  unfold mandatory_fields in *.
  repeat (apply Forall_cons in Hm as [? Hm]).
  repeat (constructor; [first [by rewrite lookup_insert_ne by done
                              | by rewrite lookup_insert_eq]|]).
  constructor.
Qed.

Lemma validate_shape host uid r r' :
  fetched_shape host uid r -> validateEmailRecord host r = Ok r' ->
  fetched_shape host uid r'.
Proof.
  intros Hs Hv. pose proof Hs as (_ & Hm & _).
  unfold mandatory_fields in Hm. repeat (apply Forall_cons in Hm as [? Hm]).
  unfold validateEmailRecord in Hv.
  rewrite (default_empty_string "thread_id") in Hv by done.
  rewrite (default_empty_string "subject") in Hv by done.
  rewrite (default_empty_string "body") in Hv by done.
  repeat match type of Hv with
         | (if ?c then _ else _) = _ => destruct c; [discriminate|]
         end.
  cbv beta iota zeta in Hv.
  destruct (truthy (prop r "labels")).
  - destruct (JSON_parse_is_array host _) as [[|]|]; try discriminate.
    cbv beta iota zeta in Hv.
    repeat match type of Hv with
           | (if ?c then _ else _) = _ => destruct c; [discriminate|]
           end.
    by injection Hv as <-.
  - cbv beta iota zeta in Hv.
    repeat match type of Hv with
           | (if ?c then _ else _) = _ => destruct c; [discriminate|]
           end.
    injection Hv as <-. by apply fetched_shape_labels.
Qed.

Lemma validated_shape host uid t r :
  validated host uid t = Ok r -> fetched_shape host uid r.
Proof.
  unfold validated. destruct (fetch_result host uid t) as [r0|] eqn:Hf; [|done].
  intros Hv. eapply validate_shape; [|exact Hv]. by eapply fetch_result_shape.
Qed.

Lemma rows_with_id_grows id rows added :
  rows_with_id id rows <> [] -> rows_with_id id (rows ++ added) <> [].
Proof.
  unfold rows_with_id. rewrite filter_app.
  destruct (filter _ rows); [done|]. done.
Qed.

(** [storeEmail] on a Message: the row is added unless its identifier is
    there, and it is there afterwards. *)
Lemma storeEmail_Message db rows m id :
  current_layout db rows -> Message m -> prop m "id" = JStr id ->
  exists b added,
    (storeEmail m db).1 = Ok b
    /\ current_layout (storeEmail m db).2 (rows ++ added)
    /\ (added = [] \/ added = [message_row m])
    /\ rows_with_id id (rows ++ added) <> [].
Proof.
  intros Hcur Hm Hid.
  destruct (rows_with_id id rows) as [|row l] eqn:Hr.
  - destruct (storeEmail_first db rows m id Hcur Hm Hid Hr) as (db1 & Hst & Hcur1).
    exists true, [message_row m]. rewrite Hst. simpl.
    split; [done|]. split; [done|]. split; [by right|].
    by rewrite (rows_with_id_message id rows m Hid Hr).
  - assert (rows_with_id id rows <> []) as Hne by (by rewrite Hr).
    exists false, []. rewrite (storeEmail_duplicate db rows m id Hcur Hid Hne).
    simpl. rewrite app_nil_r. split; [done|]. split; [done|]. split; [by left|done].
Qed.

(** What one turn of the loop does to the store. *)
Lemma processEmail_store host path uid w rows :
  current_layout (w_db w) rows ->
  exists b w' added,
    processEmail host path uid w = (Ok b, w')
    /\ same_process w w'
    /\ current_layout (w_db w') (rows ++ added)
    /\ (forall row, row ∈ added ->
          exists rec, validated host uid (w_time w) = Ok rec /\ row = message_row rec)
    /\ (forall rec, validated host uid (w_time w) = Ok rec ->
          rows_with_id (message_id host uid) (rows ++ added) <> []).
Proof.
  intros Hcur.
  destruct (processEmail_cases host path uid w) as (b & w' & Hp & Hsame & Hc).
  exists b, w'.
  destruct (validated host uid (w_time w)) as [rec|e] eqn:Hv.
  - pose proof (validated_shape _ _ _ _ Hv) as Hshape.
    pose proof Hshape as (Hid & _).
    destruct (storeEmail_Message (w_db w) rows rec _ Hcur
                (fetched_shape_Message _ _ _ Hshape) Hid)
      as (b' & added & _ & Hcur' & Hadded & Hin).
    destruct Hc as (Hdb & _). rewrite <- Hdb in Hcur'.
    exists added. split; [done|]. split; [done|]. split; [done|]. split.
    + intros row Hrow. exists rec. split; [done|].
      destruct Hadded as [->| ->]; [by apply not_elem_of_nil in Hrow|].
      by apply list_elem_of_singleton in Hrow.
    + by intros rec' [= <-].
  - destruct Hc as (_ & Hdb & _). exists []. rewrite app_nil_r, Hdb.
    split; [done|]. split; [done|]. split; [done|]. split; [|done].
    intros row Hrow. by apply not_elem_of_nil in Hrow.
Qed.

Lemma same_process_trans w1 w2 w3 :
  same_process w1 w2 -> same_process w2 w3 -> same_process w1 w3.
Proof. unfold same_process. intuition congruence. Qed.

Lemma process_each_cons host path uid uids w b w1 :
  processEmail host path uid w = (Ok b, w1) ->
  process_each host path (uid :: uids) w = process_each host path uids w1.
Proof.
  intros H. unfold process_each at 1. simpl. unfold bind at 1, try_catch, bind.
  by rewrite H.
Qed.

Lemma js_or_nonempty s b : s <> "" -> js_or (JStr s) b = JStr s.
Proof. intros H. unfold js_or. simpl. apply String.eqb_neq in H. by rewrite H. Qed.

Lemma fetch_result_fields host uid t r :
  sound_runtime host ->
  fetch_result host uid t = Ok r ->
  (exists l, prop r "labels" = JStr (JSON_stringify_labels host l))
  /\ (exists d, prop r "received_at" = JStr d /\ d <> "")
  /\ (exists d, prop r "downloaded_at" = JStr d /\ d <> "").
Proof.
  intros (Hjson & Hclock & Hdate).
  unfold fetch_result, fetchEmail, try_catch, bind, lift_result.
  destruct (imap_fetch host uid) as [d|e]; simpl; [|done].
  destruct (simpleParser host _) as [p|e] eqn:Hp; simpl; [|done].
  destruct (p_date p) as [x|] eqn:Hx; simpl; intros [= <-].
  - split; [by eexists|]. split; eexists; (split; [reflexivity|]).
    + by eapply Hdate.
    + apply Hclock.
  - split; [by eexists|]. split; eexists; (split; [reflexivity|]); apply Hclock.
Qed.

(** On a sound runtime the record of a fetched message with an
    identifier passes the validation as it is, unless its sender or its
    recipients are empty. *)
Lemma validate_fetched host uid t r :
  sound_runtime host ->
  fetch_result host uid t = Ok r ->
  message_id host uid <> "" ->
  exists from to,
    prop r "from_address" = JStr from /\ prop r "to_address" = JStr to
    /\ validateEmailRecord host r =
       if from =? "" then Throw "from_address is required"
       else if to =? "" then Throw "to_address is required"
       else Ok r.
Proof.
  intros Hsound Hfetch Hid.
  destruct (fetch_result_fields host uid t r Hsound Hfetch)
    as ((l & Hlab) & (d1 & Hd1 & Hne1) & (d2 & Hd2 & Hne2)).
  pose proof (fetch_result_shape host uid t r Hfetch) as (Hrid & Hm & _).
  unfold mandatory_fields in Hm.
  repeat (apply Forall_cons in Hm as [? Hm]).
  destruct (is_string_inv (prop r "from_address")) as [from Hfrom]; [done|].
  destruct (is_string_inv (prop r "to_address")) as [to Hto]; [done|].
  exists from, to. split; [done|]. split; [done|].
  unfold validateEmailRecord.
  rewrite (default_empty_string "thread_id") by done.
  rewrite (default_empty_string "subject") by done.
  rewrite (default_empty_string "body") by done.
  destruct Hsound as (Hjson & _ & _). destruct (Hjson l) as [Hl1 Hl2].
  rewrite Hrid, Hfrom, Hto, Hlab.
  assert (forall s, s <> "" -> nonempty_string (JStr s) = true) as Hns.
  { intros s Hs. unfold nonempty_string. simpl. apply String.eqb_neq in Hs.
    by rewrite Hs. }
  rewrite (Hns _ Hid). cbn [negb].
  assert (is_string (prop r "thread_id") = true) as -> by done. cbn [negb].
  unfold nonempty_string at 1. simpl truthy. simpl is_string.
  destruct (from =? "") eqn:Hf; [done|]. cbn [negb andb].
  unfold nonempty_string at 1. simpl truthy. simpl is_string.
  destruct (to =? "") eqn:Ht; [done|]. cbn [negb andb].
  cbv zeta. simpl truthy.
  apply String.eqb_neq in Hl1. rewrite Hl1. cbn [negb]. simpl js_String.
  rewrite Hl2.
  rewrite Hd1, Hd2, !Hns by done. reflexivity.
Qed.

Lemma delivers_reported host uid e :
  delivers host uid e ->
  reported_id host uid = Some (env_id e) /\ message_id host uid = env_id e.
Proof.
  intros (h & b & attrs & p & Hf & Hid & _).
  unfold reported_id, message_id. rewrite Hf. simpl. by rewrite Hid.
Qed.

Lemma reported_message_id host uid id :
  reported_id host uid = Some id -> message_id host uid = id.
Proof.
  unfold reported_id, message_id. destruct (imap_fetch host uid); [|done].
  by intros [= <-].
Qed.

(** What [fetchEmail] makes of a delivered envelope. *)
Lemma delivered_record host uid e t :
  delivers host uid e -> valid_envelope e ->
  exists r cc,
    fetch_result host uid t = Ok r
    /\ prop r "id" = JStr (env_id e)
    /\ prop r "thread_id" = JStr (env_thread e)
    /\ prop r "received_at" = JStr (env_received e)
    /\ prop r "downloaded_at" = JStr (clock host t)
    /\ prop r "from_address" = JStr (env_from e)
    /\ prop r "to_address" = JStr (env_to e)
    /\ prop r "cc_address" = cc
    /\ prop r "subject" = JStr (env_subject e)
    /\ prop r "labels" = JStr (JSON_stringify_labels host (env_labels e))
    /\ prop r "body" = JStr (env_body e)
    /\ match env_cc e with
       | Some c => cc = JStr c
       | None => cc = JNull \/ exists s, cc = JStr s
       end.
Proof.
  intros (h & b & attrs & p & Hf & Hid & Hth & Hlab & Hp & Hdate & Hfrom & Hto & Hsub
          & Htext & Hcc)
         (Vid & Vrec & Vfrom & Vto & Vsub & Vbody & Vcc).
  unfold fetch_result, fetchEmail, try_catch, bind, lift_result.
  rewrite Hf. cbn [ed_headers ed_body ed_attrs interpolate or_empty].
  rewrite Hp, Hdate, Hfrom, Hto, Hsub, Htext, Hcc, Hid.
  cbn [of_opt ret now w_time fst snd].
  rewrite !js_or_nonempty by done.
  assert ((if truthy (attr_thrid attrs) then js_String (attr_thrid attrs) else "")
          = env_thread e) as ->.
  { destruct Hth as [[H1 H2]|[H1 H2]]; [by rewrite H1|by rewrite H1, H2]. }
  assert (labels_array (attr_labels attrs) = env_labels e) as ->.
  { destruct Hlab as [H1|[H1 H2]]; [by rewrite H1|by rewrite H1, H2]. }
  eexists _, _. split; [reflexivity|].
  repeat (split; [reflexivity|]).
  destruct (env_cc e) as [c|] eqn:Hc.
  - simpl. rewrite js_or_nonempty by (by apply Vcc).
    by rewrite js_or_nonempty by (by apply Vcc).
  - change (js_or (of_opt None) (prop (parseHeaders h) "cc"))
      with (prop (parseHeaders h) "cc").
    destruct (parseHeaders_stringish h "cc") as [Hu|Hs].
    + left. by rewrite Hu.
    + apply is_string_inv in Hs as [s Hs]. rewrite Hs.
      unfold js_or. destruct (truthy (JStr s)); [right; by eexists|by left].
Qed.

(** A valid envelope that the mailbox delivers is fetched and validated
    whenever it is processed, and the row of its record holds it. *)
Lemma delivered_validated host uid e t :
  sound_runtime host -> delivers host uid e -> valid_envelope e ->
  exists rec,
    validated host uid t = Ok rec
    /\ prop rec "id" = JStr (env_id e)
    /\ holds_envelope host e (message_row rec).
Proof.
  intros Hsound Hd Hv.
  destruct (delivered_record host uid e t Hd Hv)
    as (r & cc & Hfetch & Hid & Hth & Hrec & Hdl & Hfrom & Hto & Hcc & Hsub & Hlab
        & Hbody & Hccv).
  destruct (delivers_reported host uid e Hd) as [_ Hmid].
  pose proof Hv as (Vid & _ & Vfrom & Vto & _).
  destruct (validate_fetched host uid t r Hsound Hfetch) as (from & to & Hf & Ht & Hval).
  { by rewrite Hmid. }
  rewrite Hfrom in Hf. injection Hf as <-. rewrite Hto in Ht. injection Ht as <-.
  apply String.eqb_neq in Vfrom, Vto. rewrite Vfrom, Vto in Hval.
  exists r. unfold validated. rewrite Hfetch. split; [done|]. split; [done|].
  exists t, (match cc with JStr s => VText s | _ => VNull end).
  split.
  - unfold message_row, field_cell, envelope_row. cbn [map current_columns col_name].
    by rewrite Hid, Hth, Hrec, Hdl, Hfrom, Hto, Hcc, Hsub, Hlab, Hbody.
  - destruct (env_cc e) as [c|]; [by rewrite Hccv|].
    destruct Hccv as [->|[s ->]]; [by left|right; by eexists].
Qed.

Lemma validated_reported host uid t rec :
  validated host uid t = Ok rec ->
  reported_id host uid = Some (message_id host uid)
  /\ prop rec "id" = JStr (message_id host uid) /\ Message rec.
Proof.
  intros Hv. pose proof (validated_shape _ _ _ _ Hv) as Hshape.
  split; [|split; [by destruct Hshape|by eapply fetched_shape_Message]].
  unfold validated, fetch_result, fetchEmail, try_catch, bind, lift_result in Hv.
  unfold reported_id, message_id.
  destruct (imap_fetch host uid) as [d|e]; [done|]. simpl in Hv. done.
Qed.

Lemma unreadable_not_validated host uid t :
  unreadable host uid -> exists e, validated host uid t = Throw e.
Proof.
  intros (h & b & attrs & e & Hf & Hp).
  unfold validated, fetch_result, fetchEmail, try_catch, bind, lift_result.
  rewrite Hf. cbn [ed_headers ed_body interpolate or_empty]. rewrite Hp.
  by eexists.
Qed.

(** What one turn of the loop adds to the store. *)
Lemma processEmail_step host path uid w rows :
  current_layout (w_db w) rows ->
  exists b w' added,
    processEmail host path uid w = (Ok b, w')
    /\ current_layout (w_db w') (rows ++ added)
    /\ match validated host uid (w_time w) with
       | Ok rec =>
           rows_with_id (message_id host uid) rows = [] /\ added = [message_row rec]
           \/ rows_with_id (message_id host uid) rows <> [] /\ added = []
       | Throw _ => added = []
       end.
Proof.
  intros Hcur.
  destruct (processEmail_cases host path uid w) as (b & w' & Hp & _ & Hc).
  exists b, w'.
  destruct (validated host uid (w_time w)) as [rec|e] eqn:Hv.
  - destruct (validated_reported _ _ _ _ Hv) as (_ & Hid & Hm).
    destruct Hc as (Hdb & _).
    destruct (rows_with_id (message_id host uid) rows) as [|r0 l] eqn:Hr.
    + destruct (storeEmail_first (w_db w) rows rec _ Hcur Hm Hid Hr)
        as (db1 & Hst & Hcur1).
      rewrite Hst in Hdb. simpl in Hdb. rewrite <- Hdb in Hcur1.
      exists [message_row rec]. split; [done|]. split; [done|]. by left.
    + assert (rows_with_id (message_id host uid) rows <> []) as Hne by (by rewrite Hr).
      rewrite (storeEmail_duplicate _ _ _ _ Hcur Hid Hne) in Hdb. simpl in Hdb.
      exists []. rewrite app_nil_r, Hdb. split; [done|]. split; [done|]. right.
      by rewrite <- Hr.
  - destruct Hc as (_ & Hdb & _). exists []. by rewrite app_nil_r, Hdb.
Qed.

Lemma rows_with_id_append id a b :
  rows_with_id id (a ++ b) = rows_with_id id a ++ rows_with_id id b.
Proof. unfold rows_with_id. apply filter_app. Qed.

Lemma message_row_id rec id :
  prop rec "id" = JStr id -> message_row rec !! 0%nat = Some (VText id).
Proof. intros H. unfold message_row, field_cell. simpl. by rewrite H. Qed.

Lemma reported_ids_cons host uid uids :
  reported_ids host (uid :: uids) =
  match reported_id host uid with
  | Some id => id :: reported_ids host uids
  | None => reported_ids host uids
  end.
Proof. reflexivity. Qed.

Lemma reported_ids_elem host uid uids id :
  uid ∈ uids -> reported_id host uid = Some id -> id ∈ reported_ids host uids.
Proof. intros Hu Hr. unfold reported_ids. apply list_elem_of_omap. by exists uid. Qed.

(** ** What the events of the connection leave unchanged *)

Section Preserves.
Context {S : Type} (R : S -> S -> Prop).
Hypothesis R_refl : forall s, R s s.
Hypothesis R_trans : forall a b c, R a b -> R b c -> R a c.

Lemma preserves_ret {A} (a : A) : preserves R (ret a).
Proof. intros s. apply R_refl. Qed.

Lemma preserves_throw {A} e : preserves R (@throw S A e).
Proof. intros s. apply R_refl. Qed.

Lemma preserves_lift {A} (r : result A) : preserves R (lift_result r).
Proof. intros s. apply R_refl. Qed.

Lemma preserves_bind {A B} (m : M S A) (k : A -> M S B) :
  preserves R m -> (forall a, preserves R (k a)) -> preserves R (bind m k).
Proof.
  intros Hm Hk s. unfold bind. specialize (Hm s).
  destruct (m s) as [[a|e] s']; simpl in *; [|done].
  eapply R_trans; [exact Hm|apply Hk].
Qed.

Lemma preserves_catch {A} (m : M S A) (h : string -> M S A) :
  preserves R m -> (forall e, preserves R (h e)) -> preserves R (try_catch m h).
Proof.
  intros Hm Hh s. unfold try_catch. specialize (Hm s).
  destruct (m s) as [[a|e] s']; simpl in *; [done|].
  eapply R_trans; [exact Hm|apply Hh].
Qed.
End Preserves.

Section Stays.
Variable path : string.

Lemma kept_fields_refl fs : kept_fields path fs fs.
Proof. by left. Qed.

Lemma kept_fields_trans fs1 fs2 fs3 :
  kept_fields path fs1 fs2 -> kept_fields path fs2 fs3 -> kept_fields path fs1 fs3.
Proof.
  intros [H12|(s & s' & Ha & Hb & Hc & Hd)] [H23|(t & t' & Ha' & Hb' & Hc' & Hd')].
  - left. congruence.
  - right. exists t, t'. rewrite <- H12. by repeat split.
  - right. exists s, s'. rewrite H23. by repeat split.
  - right. exists s, t'. rewrite Hb in Ha'. injection Ha' as <-.
    repeat split; try done; congruence.
Qed.

Lemma stays_refl w : stays path w w.
Proof. split; [apply kept_fields_refl|done]. Qed.

Lemma stays_trans w1 w2 w3 :
  stays path w1 w2 -> stays path w2 w3 -> stays path w1 w3.
Proof.
  intros [Ha Hb] [Hc Hd]. split; [by eapply kept_fields_trans|auto].
Qed.

Lemma stays_same w w' :
  w_fs w' = w_fs w -> w_client w' = w_client w -> stays path w w'.
Proof.
  intros Hfs Hc. split; [left; by rewrite Hfs|].
  unfold client_is_down. by rewrite Hc.
Qed.

Lemma stays_log lvl msg : preserves (stays path) (log lvl msg).
Proof. intros w. by apply stays_same. Qed.

Lemma stays_on_db {A} (m : M Database A) : preserves (stays path) (on_db m).
Proof. intros w. unfold on_db. destruct (m (w_db w)). by apply stays_same. Qed.

Lemma stays_update_client f :
  (forall c, isConnected c = false -> isConnected (f c) = false) ->
  preserves (stays path) (update_client f).
Proof.
  intros Hf w. split; [by left|]. simpl. unfold client_is_down. simpl.
  intros Hd c' Hc'. destruct (w_client w) as [c|]; [|done].
  injection Hc' as <-. by apply Hf, Hd.
Qed.

Lemma stays_client_down f :
  (forall c, isConnected (f c) = false) ->
  preserves (stays path) (update_client f).
Proof.
  intros Hf w. split; [by left|]. simpl. unfold client_is_down. simpl.
  intros _ c' Hc'. destruct (w_client w) as [c|]; [|done].
  injection Hc' as <-. by apply Hf.
Qed.
End Stays.

Lemma prop_json_roundtrip (o : jsobj) k : prop (json_roundtrip o) k = prop o k.
Proof.
  unfold prop, json_roundtrip.
  destruct (o !! k) as [v|] eqn:Hk; simpl.
  - destruct (decide (v = JUndefined)) as [->|Hne].
    + assert (filter (fun kv : string * jsval => kv.2 <> JUndefined) o !! k = None) as ->; [|done].
      apply map_lookup_filter_None. right. intros v' Hv' Hp. simpl in Hp. congruence.
    + assert (filter (fun kv : string * jsval => kv.2 <> JUndefined) o !! k = Some v) as ->; [|done].
      by apply map_lookup_filter_Some.
  - assert (filter (fun kv : string * jsval => kv.2 <> JUndefined) o !! k = None) as ->; [|done].
    apply map_lookup_filter_None. by left.
Qed.

Lemma readState_cases path (fs : files) :
  (exists s, fs !! path = Some (FJson s) /\ readState path fs = (Ok s, fs))
  \/ exists e, readState path fs = (Throw e, fs).
Proof.
  unfold readState, try_catch.
  destruct (fs !! path) as [[s|t]|] eqn:Hf; simpl; try (right; by eexists).
  destruct (validateState s) as [s'|e] eqn:Hv; [|right; by eexists].
  apply validateState_ok in Hv as ->. left. by exists s.
Qed.

Lemma updateState_effect path u (fs : files) :
  (updateState path u fs).2 = fs
  \/ exists s, fs !! path = Some (FJson s)
               /\ (updateState path u fs).2
                  = <[path := FJson (json_roundtrip (spread s u))]>
                      (delete (tempPath path) fs).
Proof.
  unfold updateState, try_catch, bind, lift_result.
  destruct (readState_cases path fs) as [(s & Hf & ->)|(e & ->)]; [|by left].
  destruct (validateState (spread s u)) as [s'|e]; [|by left].
  rewrite writeStateAtomic_result. simpl. right. by exists s.
Qed.

Section Stays_mailbox.
Variable host : Host.
Variable path : string.

Lemma stays_processEmail id : preserves (stays path) (processEmail host path id).
Proof.
  intros w.
  destruct (processEmail_cases host path id w) as (b & w' & Hp & (Hcl & _) & Hc).
  rewrite Hp. simpl. split; [|unfold client_is_down; by rewrite Hcl].
  destruct (validated host id (w_time w)) as [r|e]; [|left; by destruct Hc as (_ & _ & ->)].
  destruct Hc as (_ & Hc).
  destruct ((storeEmail r (w_db w)).1) as [[|]|e];
    [|left; by destruct Hc as (_ & ->)..].
  destruct Hc as (-> & _).
  destruct (updateState_effect path (state_updates r) (w_fs w)) as [->|(s & Hs & ->)];
    [by left|].
  right. exists s, (json_roundtrip (spread s (state_updates r))).
  split; [done|]. split; [by rewrite lookup_insert_eq|].
  rewrite !prop_json_roundtrip. unfold prop.
  by rewrite !spread_frame by reflexivity.
Qed.

Lemma stays_process_each uids : preserves (stays path) (process_each host path uids).
Proof.
  induction uids as [|uid uids IH]; simpl.
  - apply preserves_ret, stays_refl.
  - apply preserves_bind; [apply stays_trans| |by intros].
    apply preserves_catch; [apply stays_trans| |intros; apply stays_log].
    apply preserves_bind; [apply stays_trans|apply stays_processEmail|].
    intros. apply preserves_ret, stays_refl.
Qed.
End Stays_mailbox.

Section Stays_events.
Variable host : Host.
Variable config : Config.

Lemma stays_on_fs_readState : preserves (stays (config_state_path config)) (on_fs (readState (config_state_path config))).
Proof.
  intros w. unfold on_fs.
  destruct (readState_cases (config_state_path config) (w_fs w)) as [(s & _ & ->)|(e & ->)];
    by apply stays_same.
Qed.

Lemma stays_mail_handler n : preserves (stays (config_state_path config)) (mail_handler host config n).
Proof.
  intros w. unfold mail_handler.
  destruct (w_shutting_down w); [apply stays_refl|].
  revert w. change (preserves (stays (config_state_path config))
    (log DEBUG "New mail event" >>
     try_catch
       (let* uids := lift_result (imap_search_all host) in
        let* state := on_fs (readState (config_state_path config)) in
        match List.filter (fun uid => match prop state "last_uid" with
                                      | JNum last => (last <? uid)%Z
                                      | _ => false
                                      end) uids with
        | [] => log DEBUG "No new emails to process"
        | _ :: _ => log INFO "Processing new emails" >>
                    process_each host (config_state_path config)
                      (List.filter (fun uid => match prop state "last_uid" with
                                               | JNum last => (last <? uid)%Z
                                               | _ => false
                                               end) uids)
        end)
       (fun _ => log ERROR "Error handling new mail"))).
  apply preserves_bind; [apply stays_trans|apply stays_log|intros _].
  apply preserves_catch; [apply stays_trans| |intros; apply stays_log].
  apply preserves_bind; [apply stays_trans|apply preserves_lift, stays_refl|intros uids].
  apply preserves_bind; [apply stays_trans|apply stays_on_fs_readState|intros state].
  destruct (List.filter _ uids) eqn:Hf; [apply stays_log|].
  apply preserves_bind; [apply stays_trans|apply stays_log|intros _].
  apply stays_process_each.
Qed.

Lemma stays_disconnect : preserves (stays (config_state_path config)) disconnect.
Proof.
  intros w. unfold disconnect. destruct (w_client w) as [c|] eqn:Hc; [|apply stays_refl].
  destruct (has_imap c); [|apply stays_refl].
  revert w Hc. intros w _.
  apply (preserves_bind (stays (config_state_path config)) (stays_trans (config_state_path config)));
    [by apply stays_client_down|intros; apply stays_log].
Qed.

Lemma stays_gracefulShutdown code : preserves (stays (config_state_path config)) (gracefulShutdown code).
Proof.
  intros w. unfold gracefulShutdown. destruct (w_shutting_down w); [apply stays_refl|].
  apply (preserves_bind (stays (config_state_path config)) (stays_trans (config_state_path config)));
    [intros w'; by apply stays_same|intros _].
  apply preserves_bind; [apply stays_trans|apply stays_log|intros _].
  apply preserves_bind; [apply stays_trans|apply stays_disconnect|intros _].
  apply preserves_bind; [apply stays_trans| |intros _].
  { intros w'. destruct (db_open (w_db w')); [apply stays_on_db|apply stays_refl]. }
  apply preserves_bind; [apply stays_trans|apply stays_log|intros _].
  intros w'. by apply stays_same.
Qed.

Lemma stays_dispatch ev : preserves (stays (config_state_path config)) (dispatch host config ev).
Proof.
  intros w. unfold dispatch.
  destruct (w_exit w); [apply stays_refl|].
  destruct (w_client w) as [c|]; [|apply stays_refl].
  destruct ev as [n|msg|].
  - destruct (on_mail_registered c); [|apply stays_refl].
    apply (preserves_bind (stays (config_state_path config)) (stays_trans (config_state_path config)));
      [apply stays_log|intros _; apply stays_mail_handler].
  - destruct (once_error c).
    + apply (preserves_bind (stays (config_state_path config)) (stays_trans (config_state_path config)));
        [apply stays_log|intros _].
      apply preserves_bind; [apply stays_trans|by apply stays_client_down|intros _].
      apply stays_log.
    + apply (preserves_bind (stays (config_state_path config)) (stays_trans (config_state_path config)));
        [apply stays_log|intros _; apply stays_gracefulShutdown].
  - destruct (once_end c); [|apply stays_refl].
    apply (preserves_bind (stays (config_state_path config)) (stays_trans (config_state_path config)));
      [apply stays_log|intros _].
    apply preserves_bind; [apply stays_trans|by apply stays_client_down|intros _].
    apply stays_log.
Qed.

Lemma stays_deliver evs : preserves (stays (config_state_path config)) (deliver host config evs).
Proof.
  induction evs as [|ev evs IH]; simpl.
  - apply preserves_ret, stays_refl.
  - apply preserves_bind; [apply stays_trans|apply stays_dispatch|by intros].
Qed.

(** A drop that reaches its listener leaves the client down. *)
Lemma drop_brings_down w c :
  w_exit w = None -> w_client w = Some c -> once_end c = true ->
  client_is_down (dispatch host config EvEnd w).2.
Proof.
  intros He Hc Ho. unfold dispatch. rewrite He, Hc, Ho.
  unfold client_on_end, bind, log, update_client, client_is_down. simpl.
  rewrite Hc. simpl. by intros c' [= <-].
Qed.
End Stays_events.

Section Start.
Variable host : Host.
Variable config : Config.

Lemma same_files_refl w : same_files w w.
Proof. done. Qed.

Lemma same_files_trans w1 w2 w3 :
  same_files w1 w2 -> same_files w2 w3 -> same_files w1 w3.
Proof. unfold same_files. congruence. Qed.

Lemma keeps_refl w : keeps_first_run (config_state_path config) w w.
Proof. by intros ?. Qed.

Lemma keeps_trans w1 w2 w3 :
  keeps_first_run (config_state_path config) w1 w2 -> keeps_first_run (config_state_path config) w2 w3 ->
  keeps_first_run (config_state_path config) w1 w3.
Proof. unfold keeps_first_run. auto. Qed.

Lemma keeps_of_same {A} (m : M World A) :
  preserves same_files m -> preserves (keeps_first_run (config_state_path config)) m.
Proof. intros H w. unfold keeps_first_run, first_run_state. by rewrite (H w). Qed.

Lemma keeps_of_stays {A} (m : M World A) :
  preserves (stays (config_state_path config)) m -> preserves (keeps_first_run (config_state_path config)) m.
Proof.
  intros H w. destruct (H w) as [[Hk|(s & s' & Hs & Hs' & Hc & Hu)] _];
    unfold keeps_first_run, first_run_state.
  - by rewrite Hk.
  - rewrite Hs, Hs'. by rewrite Hc, Hu.
Qed.

Lemma same_files_log lvl msg : preserves same_files (log lvl msg).
Proof. by intros w. Qed.

Lemma same_files_on_db {A} (m : M Database A) : preserves same_files (on_db m).
Proof. intros w. unfold on_db. by destruct (m (w_db w)). Qed.

Lemma same_files_update_client f : preserves same_files (update_client f).
Proof. by intros w. Qed.

Lemma same_files_connect : preserves same_files (connect host (setupEventHandlers host config)).
Proof.
  unfold connect.
  apply preserves_bind; [apply same_files_trans|apply same_files_update_client|intros _].
  destruct (imap_connect host) as [inbox|msg].
  - apply preserves_bind; [apply same_files_trans|apply same_files_log|intros _].
    apply preserves_bind; [apply same_files_trans|apply same_files_update_client|intros _].
    destruct inbox; simpl; [apply same_files_log|].
    apply preserves_bind; [apply same_files_trans|apply same_files_log|intros _].
    apply preserves_throw, same_files_refl.
  - apply preserves_bind; [apply same_files_trans| |intros _; apply preserves_throw, same_files_refl].
    apply preserves_bind; [apply same_files_trans|apply same_files_log|intros _].
    apply preserves_bind; [apply same_files_trans|apply same_files_update_client|intros _].
    apply same_files_log.
Qed.

Lemma same_files_startIDLE : preserves same_files startIDLE.
Proof.
  intros w. unfold startIDLE. destruct (w_client w) as [c|]; [|done].
  by destruct (negb (has_imap c) || negb (isConnected c)).
Qed.

Lemma same_files_gracefulShutdown code : preserves same_files (gracefulShutdown code).
Proof.
  intros w. unfold gracefulShutdown. destruct (w_shutting_down w); [done|].
  apply (preserves_bind same_files same_files_trans); [by intros ?|intros _].
  apply preserves_bind; [apply same_files_trans|apply same_files_log|intros _].
  apply preserves_bind; [apply same_files_trans| |intros _].
  { intros w'. unfold disconnect. destruct (w_client w') as [c|]; [|done].
    by destruct (has_imap c). }
  apply preserves_bind; [apply same_files_trans| |intros _].
  { intros w'. destruct (db_open (w_db w')); [apply same_files_on_db|done]. }
  apply preserves_bind; [apply same_files_trans|apply same_files_log|intros _].
  by intros ?.
Qed.

Lemma keeps_initState : preserves (keeps_first_run (config_state_path config)) (on_fs (initState (config_state_path config))).
Proof.
  intros w. unfold keeps_first_run, first_run_state, on_fs, initState, try_catch.
  destruct (w_fs w !! (config_state_path config)) as [c|] eqn:Hf.
  - destruct (readState_cases (config_state_path config) (w_fs w)) as [(s & _ & ->)|(e & ->)];
      simpl; by rewrite Hf.
  - intros _. unfold bind. rewrite writeStateAtomic_result. simpl.
    rewrite lookup_insert_eq. done.
Qed.

Lemma keeps_initialize : preserves (keeps_first_run (config_state_path config)) (initialize host config).
Proof.
  unfold initialize.
  apply preserves_catch; [apply keeps_trans| |].
  2: { intros _. apply keeps_of_same.
       apply preserves_bind; [apply same_files_trans|apply same_files_log|intros _].
       apply same_files_gracefulShutdown. }
  apply preserves_bind; [apply keeps_trans|apply keeps_of_same, same_files_log|intros _].
  apply preserves_bind; [apply keeps_trans|apply keeps_of_same, same_files_on_db|intros _].
  apply preserves_bind; [apply keeps_trans|apply keeps_of_same, same_files_log|intros _].
  apply preserves_bind; [apply keeps_trans|apply keeps_initState|intros _].
  apply keeps_of_same.
  apply preserves_bind; [apply same_files_trans|apply same_files_log|intros _].
  apply preserves_bind; [apply same_files_trans|by intros ?|intros _].
  apply preserves_bind; [apply same_files_trans|apply same_files_log|intros _].
  apply preserves_bind; [apply same_files_trans|apply same_files_connect|intros _].
  apply preserves_bind; [apply same_files_trans|apply same_files_startIDLE|intros _].
  apply same_files_log.
Qed.

(** On a first run the state file never leaves the phase
    [disconnected] nor the sentinel last uid, whatever the server
    sends. *)
Lemma first_run_state_forever evs :
  first_run_state (config_state_path config) (run host config evs fresh_world).2.
Proof.
  assert (preserves (keeps_first_run (config_state_path config)) (run host config evs)) as H.
  { unfold run. apply preserves_bind; [apply keeps_trans|apply keeps_initialize|intros _].
    apply keeps_of_stays. apply stays_deliver. }
  apply H. unfold first_run_state. simpl. by rewrite lookup_empty.
Qed.
End Start.

Lemma process_each_total host path uids : forall w,
  exists w', process_each host path uids w = (Ok tt, w').
Proof.
  induction uids as [|uid uids IH]; intros w; [by eexists|].
  destruct (processEmail_cases host path uid w) as (b & w1 & Hp & _).
  rewrite (process_each_cons _ _ _ _ _ _ _ Hp). apply IH.
Qed.

Lemma filter_above_sentinel uids :
  Forall (fun uid => 0 < uid)%Z uids ->
  List.filter (fun uid => (0 <? uid)%Z) uids = uids.
Proof.
  induction 1 as [|uid uids Hu _ IH]; simpl; [done|].
  rewrite (proj2 (Z.ltb_lt 0 uid) Hu). by rewrite IH.
Qed.

(** While the state file holds the sentinel last uid, the [mail]
    listener hands every uid of the mailbox to the loop. *)
Lemma mail_handler_sentinel host config n w s uid uids :
  w_shutting_down w = false ->
  imap_search_all host = Ok (uid :: uids) ->
  Forall (fun uid => 0 < uid)%Z (uid :: uids) ->
  w_fs w !! config_state_path config = Some (FJson s) ->
  validateState s = Ok s ->
  prop s "last_uid" = JNum 0 ->
  mail_handler host config n w =
  process_each host (config_state_path config) (uid :: uids)
    ((log DEBUG "New mail event" >> log INFO "Processing new emails") w).2.
Proof.
  intros Hsd Hsearch Hpos Hf Hv Hlast.
  unfold mail_handler. rewrite Hsd.
  unfold bind at 1. unfold log at 1.
  unfold try_catch, bind, lift_result, on_fs. rewrite Hsearch.
  cbn [w_fs w_db w_log w_time w_client w_shutting_down w_exit].
  rewrite (readState_valid _ _ _ Hf Hv), Hlast.
  rewrite (filter_above_sentinel _ Hpos).
  unfold log.
  cbn [w_fs w_db w_log w_time w_client w_shutting_down w_exit fst snd].
  match goal with |- context [process_each ?h ?p ?l ?w0] =>
    destruct (process_each_total h p l w0) as (w' & Hw') end.
  by rewrite Hw'.
Qed.

(** ** Runs of the monitor *)

Lemma processEmail_failure_witness :
  exists w', processEmail faulty_host "data/current_state.json" 2 started = (Ok false, w')
             /\ w_fs w' = w_fs started.
Proof.
  apply (processEmail_failure faulty_host "data/current_state.json" 2 started).
  apply (fails_fetch faulty_host 2 started "Fetch failed"). vm_compute. reflexivity.
Defined.

(** Message 1 of the faulty mailbox is well formed, message 2 is not. *)
Example faulty_mailbox_messages :
  well_formed faulty_host 1 /\ ~ well_formed faulty_host 2.
Proof.
  split.
  - intros t. eexists. vm_compute. reflexivity.
  - intros H. destruct (H 0%nat) as [r Hr]. vm_compute in Hr. discriminate.
Qed.

(** The faulty batch, run: messages 1 and 3 are stored, 2 is skipped. *)
Example faulty_batch_stores_the_others :
  map (fun r => r !! 0%nat)
      (emails_rows (w_db (process_each faulty_host "data/current_state.json"
                            [1; 2; 3]%Z started).2))
  = [Some (VText "101"); Some (VText "103")].
Proof. vm_compute. reflexivity. Qed.

(** C9: the loop does skip and continue, but it does not store all
    the valid messages.  The identifier of a record is the text of the
    [id] attribute of the fetched message, not the uid it was fetched
    by.  In a mailbox whose attributes carry no [id], messages 1 and 3
    are both delivered as valid envelopes, from different senders, and
    message 2 is unreadable; both valid messages get the identifier
    [undefined].  The batch ends normally and message 2 is skipped, but
    the store holds a single row, the one of message 1: message 3 is
    taken for a duplicate and its envelope is in no row. *)
Theorem batch_without_id_attribute_stores_one :
  delivers unnumbered_host 1 ana_envelope /\ valid_envelope ana_envelope
  /\ delivers unnumbered_host 3 eva_envelope /\ valid_envelope eva_envelope
  /\ unreadable unnumbered_host 2
  /\ current_layout (w_db unnumbered_started) []
  /\ (process_each unnumbered_host "data/current_state.json" [1; 2; 3]%Z
        unnumbered_started).1 = Ok tt
  /\ (countEmails (w_db unnumbered_after_batch)).1 = Ok 1%nat
  /\ emails_rows (w_db unnumbered_after_batch)
     = [ envelope_row unnumbered_host ana_envelope VNull "2025-11-01T10:00:00.000Z" ]
  /\ (processEmail unnumbered_host "data/current_state.json" 3
        (processEmail unnumbered_host "data/current_state.json" 1
           unnumbered_started).2).1 = Ok false
  /\ Forall (fun row => cell current_columns "from_address" row
                        <> Some (VText (env_from eva_envelope)))
            (emails_rows (w_db unnumbered_after_batch)).
Proof.
  split.
  { do 4 eexists. split; [reflexivity|]. split; [reflexivity|].
    split; [left; split; reflexivity|]. split; [left; reflexivity|].
    repeat (split; [reflexivity|]). reflexivity. }
  split.
  { unfold valid_envelope. simpl. repeat (split; [discriminate|]).
    intros cc H. discriminate. }
  split.
  { do 4 eexists. split; [reflexivity|]. split; [reflexivity|].
    split; [left; split; reflexivity|]. split; [left; reflexivity|].
    repeat (split; [reflexivity|]). reflexivity. }
  split.
  { unfold valid_envelope. simpl. repeat (split; [discriminate|]).
    intros cc H. discriminate. }
  split; [do 4 eexists; split; reflexivity|].
  split; [split; vm_compute; reflexivity|].
  do 4 (split; [vm_compute; reflexivity|]).
  vm_compute. repeat constructor. discriminate.
Qed.

(** C2: a fresh machine, the monitor started on a mailbox with one
    message, one [mail] event.  The store counts one row and the state
    file holds the identifier of the message under [last_id] with no
    error; but nothing on the mailbox path writes [connection_status],
    which is still [disconnected], not [connected], and [last_uid] is
    still the sentinel. *)
Theorem first_message_phase_stays_disconnected :
  (countEmails (w_db first_message_world)).1 = Ok 1%nat
  /\ exists s, w_fs first_message_world !! "data/current_state.json" = Some (FJson s)
               /\ prop s "last_id" = JStr "101"
               /\ prop s "last_error" = JNull
               /\ prop s "last_uid" = JNum 0
               /\ prop s "connection_status" = JStr "disconnected"
               /\ prop s "connection_status" <> JStr "connected".
Proof.
  split; [vm_compute; reflexivity|].
  eexists. split; [vm_compute; reflexivity|].
  do 4 (split; [vm_compute; reflexivity|]). vm_compute. discriminate.
Qed.

(** C3: a first run on a mailbox that already holds three messages.
    The state file holds the sentinel, the [mail] listener searches ALL
    and keeps every uid above the sentinel: one [mail] event fetches and
    stores the three old messages. *)
Theorem first_run_processes_whole_mailbox :
  w_fs mailbox_started !! "data/current_state.json" = Some (FJson INITIAL_STATE)
  /\ imap_search_all mailbox_host = Ok [1; 2; 3]%Z
  /\ emails_rows (w_db mailbox_started) = []
  /\ map (fun r => r !! 0%nat) (emails_rows (w_db mailbox_after_mail))
     = [Some (VText "101"); Some (VText "102"); Some (VText "103")]
  /\ (countEmails (w_db mailbox_after_mail)).1 = Ok 3%nat.
Proof. repeat split; vm_compute; reflexivity. Qed.

(** C4: the connection of a started monitor ends.  The client and the
    monitor each log a warning and nothing else happens: the state file
    is untouched (the phase is not set to [reconnecting]), the client is
    disconnected and not reconnecting, the process keeps running, and
    whatever the server sends afterwards the client is never connected
    again: there is no reconnection attempt, hence no delay between
    attempts. *)
Theorem connection_drop_is_only_logged :
  w_log mailbox_after_end
  = w_log mailbox_started
    ++ [(WARN, "IMAP connection ended"); (WARN, "IMAP connection ended")]
  /\ w_fs mailbox_after_end = w_fs mailbox_started
  /\ w_fs mailbox_after_end !! "data/current_state.json" = Some (FJson INITIAL_STATE)
  /\ (isConnected <$> w_client mailbox_started) = Some true
  /\ (isConnected <$> w_client mailbox_after_end) = Some false
  /\ (isReconnecting <$> w_client mailbox_after_end) = Some false
  /\ w_exit mailbox_after_end = None
  /\ forall evs,
       client_is_down (deliver mailbox_host sample_config evs mailbox_after_end).2.
Proof.
  do 7 (split; [vm_compute; reflexivity|]).
  intros evs. apply (stays_deliver mailbox_host sample_config evs).
  vm_compute. by intros c [= <-].
Qed.

(** ** The migration *)

Lemma legacy_row_migrated cols r :
  legacy_row cols r ->
  exists z a b c d e f g cc,
    cell cols "id" r = Some (VInt z)
    /\ (cc = VNull \/ exists s, cc = VText s)
    /\ cell cols "cc_address" r = Some cc
    /\ cell cols "received_at" r = Some (VText a)
    /\ cell cols "downloaded_at" r = Some (VText b)
    /\ cell cols "from_address" r = Some (VText c)
    /\ cell cols "to_address" r = Some (VText d)
    /\ cell cols "subject" r = Some (VText e)
    /\ cell cols "labels" r = Some (VText f)
    /\ cell cols "body" r = Some (VText g)
    /\ migrated_row cols r =
       [ VText (pretty z); VText ""; VText a; VText b; VText c; VText d; cc;
         VText e; VText f; VText g ].
Proof.
  intros ((z & Hz) & Ht & Hcc). unfold legacy_text_fields in Ht.
  repeat (apply Forall_cons in Ht as [[? ?] Ht]).
  assert (exists cc, cell cols "cc_address" r = Some cc
                     /\ (cc = VNull \/ exists s, cc = VText s)) as (cc & Hc & Hcc').
  { destruct Hcc as [?|[s ?]]; eexists; split; eauto. }
  exists z. do 7 eexists. exists cc.
  repeat (split; [eassumption|]).
  unfold migrated_row. simpl.
  repeat match goal with H : cell cols _ r = Some _ |- _ => rewrite H; clear H end.
  simpl. destruct Hcc' as [->|[s ->]]; reflexivity.
Qed.

Lemma migrated_row_id cols r z :
  legacy_row cols r -> cell cols "id" r = Some (VInt z) ->
  migrated_row cols r !! 0%nat = Some (VText (pretty z)).
Proof.
  intros (z' & a & b & c & d & e & f & g & cc & Hz & _ & _ & _ & _ & _ & _ & _ & _ & _ & ->)%legacy_row_migrated Hz'.
  rewrite Hz in Hz'. by injection Hz' as ->.
Qed.

Lemma migrated_row_notnull cols r :
  legacy_row cols r -> notnull_violation current_columns (migrated_row cols r) = None.
Proof.
  intros (z' & a & b & c & d & e & f & g & cc & _ & _ & _ & _ & _ & _ & _ & _ & _ & _ & ->)%legacy_row_migrated.
  reflexivity.
Qed.

Lemma insert_rows_legacy tname cols : forall rows acc,
  Forall (legacy_row cols) rows ->
  NoDup (map (cell cols "id") rows) ->
  (forall r a, r ∈ rows -> a ∈ acc -> a !! 0%nat <> migrated_row cols r !! 0%nat) ->
  insert_rows tname (Table current_columns acc) (map (migrated_row cols) rows)
  = Ok (Table current_columns (acc ++ map (migrated_row cols) rows)).
Proof.
  induction rows as [|r rows IH]; intros acc Hl Hnd Hfresh.
  - simpl. by rewrite app_nil_r.
  - apply Forall_cons in Hl as [Hr Hl].
    rewrite map_cons in Hnd. apply NoDup_cons in Hnd as [Hnin Hnd].
    rewrite map_cons. cbn [insert_rows].
    unfold insert_row. cbn [t_cols t_rows].
    rewrite (migrated_row_notnull _ _ Hr).
    pose proof Hr as ((z & Hz) & _).
    pose proof (migrated_row_id _ _ _ Hr Hz) as Hid.
    assert (unique_violation 0 current_columns acc (migrated_row cols r) = None) as ->.
    { cbn [unique_violation current_columns col_pk andb]. rewrite Hid.
      change (default VNull (Some (VText (pretty z)))) with (VText (pretty z)).
      rewrite (holds_at_fresh 0 (VText (pretty z)) acc); [done|].
      intros a Ha. rewrite <- Hid. apply (Hfresh r a); [apply list_elem_of_here|done]. }
    rewrite IH; [by rewrite <- app_assoc|done|done|].
    intros r' a Hr' [Ha|Ha]%elem_of_app.
    + apply (Hfresh r' a); [by apply list_elem_of_further|done].
    + apply list_elem_of_singleton in Ha as ->.
      assert (legacy_row cols r') as Hlr' by (by eapply Forall_forall in Hl).
      pose proof Hlr' as ((z' & Hz') & _).
      rewrite (migrated_row_id _ _ _ Hlr' Hz'), Hid.
      intros [= Heq]. apply (inj pretty) in Heq. subst z'.
      apply Hnin. rewrite Hz, <- Hz'. apply list_elem_of_In, in_map.
      by apply list_elem_of_In.
Qed.

Lemma missing_column_none cols :
  Forall (fun k => has_column cols k = true)
         ("id" :: "cc_address" :: legacy_text_fields) ->
  missing_column cols migration_select = None.
Proof.
  intros H. unfold legacy_text_fields in H.
  repeat (apply Forall_cons in H as [? H]).
  unfold missing_column, migration_select. simpl.
  repeat match goal with H : has_column cols _ = true |- _ => rewrite H; clear H end.
  reflexivity.
Qed.

Lemma migration_copy_legacy tables indexes cols rows :
  tables !! "emails" = Some (Table cols rows) ->
  tables !! "emails_new" = None ->
  indexes !! "emails_new" = None ->
  legacy_layout (Table cols rows) ->
  migration_copy (mkDatabase true tables indexes None)
  = (Ok tt, mkDatabase true
              (<["emails_new" := Table current_columns (map (migrated_row cols) rows)]> tables)
              indexes None).
Proof.
  intros He Hn Hi (Hcols & Hrows & Hnd). simpl in Hcols, Hrows, Hnd.
  unfold migration_copy, bind, sql_begin, sql_create_table, sql_insert_select,
    sql_commit, with_open, set_tables, set_content.
  cbn [db_open db_tables db_indexes db_txn].
  rewrite Hn, Hi. cbn [db_open db_tables db_indexes db_txn].
  rewrite lookup_insert_eq, lookup_insert_ne by done. rewrite He.
  cbn [t_cols t_rows]. rewrite (missing_column_none _ Hcols).
  change (negb (length migration_select =? length current_columns)%nat) with false.
  cbn iota.
  change (map (fun r => zip_with (fun c e => apply_affinity (col_type c)
                                            (eval_expr cols r e))
                               current_columns migration_select) rows)
    with (map (migrated_row cols) rows).
  rewrite (insert_rows_legacy "emails_new" cols rows []); try done.
  2: { intros r a _ Ha. by apply not_elem_of_nil in Ha. }
  cbn [db_open db_tables db_indexes db_txn app].
  by rewrite insert_insert_eq.
Qed.

Lemma migration_swap_ok tables indexes t_old t_new :
  tables !! "emails" = Some t_old ->
  tables !! "emails_new" = Some t_new ->
  indexes !! "emails" = None ->
  migration_swap (mkDatabase true tables indexes None)
  = (Ok tt, mkDatabase true
              (<["emails" := t_new]> (delete "emails_new" (delete "emails" tables)))
              (swapped_indexes indexes) None).
Proof.
  intros He Hn Hi.
  unfold migration_swap, bind, sql_begin, sql_drop_table, sql_rename_table,
    sql_commit, with_open, set_tables, set_content.
  cbn [db_open db_tables db_indexes db_txn]. rewrite He.
  cbn [db_open db_tables db_indexes db_txn].
  rewrite lookup_delete_ne by done. rewrite Hn.
  rewrite lookup_delete_eq.
  assert (filter (fun kv : string * (string * string) => kv.2.1 <> "emails") indexes
          !! "emails" = None) as ->.
  { apply map_lookup_filter_None. by left. }
  cbn [db_open db_tables db_indexes db_txn]. reflexivity.
Qed.

Lemma swapped_indexes_free indexes n :
  (forall tc, indexes !! n = Some tc -> tc.1 = "emails") ->
  swapped_indexes indexes !! n = None.
Proof.
  intros H. unfold swapped_indexes. rewrite lookup_fmap.
  assert (filter (fun kv : string * (string * string) => kv.2.1 <> "emails") indexes
          !! n = None) as ->; [|done].
  apply map_lookup_filter_None.
  destruct (indexes !! n) as [tc|] eqn:Hn; [right|by left].
  intros tc' [= <-] Hne. simpl in Hne. by apply Hne, H.
Qed.

Lemma create_index_ok tables indexes rows iname cname :
  tables !! "emails" = Some (Table current_columns rows) ->
  tables !! iname = None -> indexes !! iname = None ->
  has_column current_columns cname = true ->
  sql_create_index false iname "emails" cname (mkDatabase true tables indexes None)
  = (Ok tt, mkDatabase true tables (<[iname := ("emails", cname)]> indexes) None).
Proof.
  intros He Ht Hi Hc. unfold sql_create_index, with_open, set_content.
  cbn [db_open db_tables db_indexes db_txn]. rewrite He, Ht, Hi.
  cbn [t_cols]. by rewrite Hc.
Qed.

Lemma migration_indexes_ok tables indexes rows :
  tables !! "emails" = Some (Table current_columns rows) ->
  Forall (fun n => tables !! n = None /\ indexes !! n = None) migration_index_names ->
  migration_indexes (mkDatabase true tables indexes None)
  = (Ok tt, mkDatabase true tables (migration_indexes_of indexes) None).
Proof.
  intros He Hfree. unfold migration_index_names in Hfree.
  repeat (apply Forall_cons in Hfree as [[? ?] Hfree]).
  unfold migration_indexes, bind.
  rewrite (create_index_ok _ _ rows) by done.
  rewrite (create_index_ok _ _ rows) by (by rewrite ?lookup_insert_ne).
  rewrite (create_index_ok _ _ rows) by (by rewrite ?lookup_insert_ne).
  done.
Qed.

Lemma sql_count_open tables indexes txn name t :
  tables !! name = Some t ->
  sql_count name (mkDatabase true tables indexes txn)
  = (Ok (length (t_rows t)), mkDatabase true tables indexes txn).
Proof. intros H. unfold sql_count, with_open. simpl. by rewrite H. Qed.

(** Migration parity: an old table with [M] rows becomes the current
    table with the [M] migrated rows, in the same order. *)
Lemma migrateSchema_parity tables indexes cols rows :
  let db := mkDatabase true tables indexes None in
  tables !! "emails" = Some (Table cols rows) ->
  legacy_layout (Table cols rows) ->
  free_names db ->
  migrateSchema db
  = (Ok tt, mkDatabase true
              (<["emails" := Table current_columns (map (migrated_row cols) rows)]>
                 (delete "emails_new" (delete "emails" tables)))
              (migration_indexes_of (swapped_indexes indexes)) None)
  /\ length (map (migrated_row cols) rows) = length rows.
Proof.
  intros db He Hleg (Hn & Hin & Hie & Hfree). subst db. simpl in Hn, Hin, Hie, Hfree.
  set (t_new := Table current_columns (map (migrated_row cols) rows)).
  set (tables1 := <["emails_new" := t_new]> tables).
  set (tables2 := <["emails" := t_new]> (delete "emails_new" (delete "emails" tables1))).
  assert (tables2 = <["emails" := t_new]> (delete "emails_new" (delete "emails" tables)))
    as Htables2.
  { unfold tables2, tables1. f_equal.
    rewrite (delete_insert_ne tables) by done. by rewrite delete_insert_eq.
     }
  assert (migration_indexes (mkDatabase true tables2 (swapped_indexes indexes) None)
          = (Ok tt, mkDatabase true tables2
                      (migration_indexes_of (swapped_indexes indexes)) None)) as Hix.
  { apply (migration_indexes_ok tables2 (swapped_indexes indexes)
             (map (migrated_row cols) rows)).
    { unfold tables2. by rewrite lookup_insert_eq. }
  { unfold migration_index_names in *.
    repeat (apply Forall_cons in Hfree as [[? ?] Hfree]).
    repeat (constructor; [split; [|by apply swapped_indexes_free]|]); try constructor;
      unfold tables2, tables1;
      by rewrite lookup_insert_ne, !lookup_delete_ne, lookup_insert_ne by done. } }
  split; [|by rewrite length_map].
  unfold migrateSchema, try_catch. unfold bind at 1.
  rewrite (sql_count_open _ _ _ _ _ He). cbn [t_rows].
  unfold bind at 1. rewrite (migration_copy_legacy _ _ _ _ He Hn Hin Hleg).
  fold t_new. fold tables1.
  unfold bind at 1.
  rewrite (sql_count_open tables1 indexes None "emails_new" t_new)
    by (unfold tables1; by rewrite lookup_insert_eq).
  unfold t_new at 1. cbn [t_rows]. rewrite length_map, Nat.eqb_refl. cbn [negb].
  unfold bind.
  rewrite (migration_swap_ok tables1 indexes (Table cols rows) t_new);
    [|unfold tables1; by rewrite lookup_insert_ne|unfold tables1; by rewrite lookup_insert_eq|done].
  fold tables2. rewrite Hix. by rewrite Htables2.
Qed.

Lemma insert_rows_shape tname cols : forall rows acc t',
  insert_rows tname (Table cols acc) rows = Ok t' -> t' = Table cols (acc ++ rows).
Proof.
  induction rows as [|r rows IH]; intros acc t'; simpl.
  - intros [= <-]. by rewrite app_nil_r.
  - unfold insert_row. cbn [t_cols t_rows].
    destruct (notnull_violation cols r); [done|].
    destruct (unique_violation 0 cols acc r); [done|].
    intros H%IH. by rewrite <- app_assoc in H.
Qed.

(** The copy either commits a full copy in [emails_new], or stops inside
    its transaction, from where [ROLLBACK] restores the file. *)
Lemma migration_copy_cases tables indexes t :
  tables !! "emails" = Some t ->
  match migration_copy (mkDatabase true tables indexes None) with
  | (Ok _, db1) =>
      exists rows', db1 = mkDatabase true
                            (<["emails_new" := Table current_columns rows']> tables)
                            indexes None
                    /\ length rows' = length (t_rows t)
  | (Throw _, db1) => db_open db1 = true /\ db_txn db1 = Some (tables, indexes)
  end.
Proof.
  intros He.
  unfold migration_copy, bind, sql_begin, sql_create_table, sql_insert_select,
    sql_commit, with_open, set_tables, set_content.
  cbn [db_open db_tables db_indexes db_txn].
  destruct (tables !! "emails_new"); [done|].
  destruct (indexes !! "emails_new"); [done|].
  cbn [db_open db_tables db_indexes db_txn].
  rewrite lookup_insert_eq, lookup_insert_ne by done. rewrite He.
  cbn [t_cols t_rows].
  destruct (missing_column (t_cols t) migration_select); [done|].
  change (negb (length migration_select =? length current_columns)%nat) with false.
  cbn iota.
  destruct (insert_rows _ _ _) as [t'|e] eqn:Hins; [|done].
  apply insert_rows_shape in Hins as ->.
  cbn [db_open db_tables db_indexes db_txn app].
  eexists. split; [by rewrite insert_insert_eq|]. by rewrite length_map.
Qed.

(** With the names of its indexes free, a migration either replaces the
    table by a current one with as many rows, or throws and leaves the
    file as it was. *)
Lemma migrateSchema_cases tables indexes t :
  let db := mkDatabase true tables indexes None in
  tables !! "emails" = Some t ->
  indexes !! "emails" = None ->
  Forall (fun n => tables !! n = None
                   /\ forall tc, indexes !! n = Some tc -> tc.1 = "emails")
         migration_index_names ->
  match migrateSchema db with
  | (Ok _, db') =>
      exists rows',
        db' = mkDatabase true
                (<["emails" := Table current_columns rows']>
                   (delete "emails_new" (delete "emails" tables)))
                (migration_indexes_of (swapped_indexes indexes)) None
        /\ length rows' = length (t_rows t)
  | (Throw _, db') => db' = db
  end.
Proof.
  intros db He Hie Hfree. subst db.
  unfold migrateSchema, try_catch. unfold bind at 1.
  rewrite (sql_count_open _ _ _ _ _ He).
  unfold bind at 1.
  pose proof (migration_copy_cases tables indexes t He) as Hc.
  destruct (migration_copy _) as [[[]|e1] db1].
  - destruct Hc as (rows' & -> & Hlen).
    set (t_new := Table current_columns rows').
    set (tables1 := <["emails_new" := t_new]> tables).
    unfold bind at 1.
    rewrite (sql_count_open tables1 indexes None "emails_new" t_new)
      by (unfold tables1; by rewrite lookup_insert_eq).
    unfold t_new at 1. cbn [t_rows]. rewrite Hlen, Nat.eqb_refl. cbn [negb].
    unfold bind.
    rewrite (migration_swap_ok tables1 indexes t t_new);
      [|unfold tables1; by rewrite lookup_insert_ne|unfold tables1; by rewrite lookup_insert_eq|done].
    rewrite (migration_indexes_ok
                (<["emails" := t_new]> (delete "emails_new" (delete "emails" tables1)))
                (swapped_indexes indexes) rows').
    + exists rows'. split; [|done]. unfold tables1. do 2 f_equal.
      rewrite (delete_insert_ne tables) by done. by rewrite delete_insert_eq.
    + by rewrite lookup_insert_eq.
    + unfold migration_index_names in *.
      repeat (apply Forall_cons in Hfree as [[? ?] Hfree]).
      repeat (constructor; [split; [|by apply swapped_indexes_free]|]); try constructor;
        unfold tables1;
        by rewrite lookup_insert_ne, !lookup_delete_ne, lookup_insert_ne by done.
  - destruct Hc as (Hopen & Htxn).
    destruct db1 as [o ts ix tx]. simpl in Hopen, Htxn. subst o tx.
    cbn. done.
Qed.

Lemma needsMigration_old tables indexes txn t :
  tables !! "emails" = Some t -> old_identifier (t_cols t) ->
  needsMigration (mkDatabase true tables indexes txn)
  = (Ok true, mkDatabase true tables indexes txn).
Proof.
  intros He ((c & Hc & Hty) & Hth).
  unfold needsMigration, try_catch, bind, sql_table_exists, sql_table_info, with_open.
  cbn [db_open db_tables]. rewrite He. cbn [negb]. cbn [db_open db_tables].
  rewrite He, Hc, Hth, Hty. reflexivity.
Qed.

(** [initDatabase] on a file with an old table and free names: the
    start-up succeeds on the migrated table. *)
Lemma initDatabase_migrates o tables indexes txn cols rows :
  tables !! "emails" = Some (Table cols rows) ->
  old_identifier cols ->
  legacy_layout (Table cols rows) ->
  free_names (mkDatabase true tables indexes None) ->
  exists db',
    initDatabase (mkDatabase o tables indexes txn) = (Ok tt, db')
    /\ current_layout db' (map (migrated_row cols) rows)
    /\ length (map (migrated_row cols) rows) = length rows
    /\ db_txn db' = None.
Proof.
  intros He Hold Hleg Hfree.
  destruct (migrateSchema_parity tables indexes cols rows He Hleg Hfree) as [Hm Hlen].
  unfold initDatabase, try_catch. unfold bind at 1. unfold open_database.
  cbn [db_tables db_indexes].
  unfold bind at 1. rewrite (needsMigration_old _ _ _ _ He Hold).
  unfold bind at 1. rewrite Hm.
  set (tables' := <["emails" := _]> _).
  set (indexes' := migration_indexes_of _).
  assert (tables' !! "emails"
          = Some (Table current_columns (map (migrated_row cols) rows))) as He'
    by (unfold tables'; by rewrite lookup_insert_eq).
  assert (forall n, n ∈ migration_index_names -> tables' !! n = None) as Hfree'.
  { destruct Hfree as (_ & _ & _ & Hf). simpl in Hf.
    intros n Hn. eapply Forall_forall in Hf as [Hf _]; [|exact Hn].
    unfold migration_index_names in Hn. unfold tables'.
    rewrite lookup_insert_ne, !lookup_delete_ne; [done| | |];
      intros <-; apply list_elem_of_In in Hn; simpl in Hn; intuition discriminate. }
  assert (tables' !! "idx_downloaded_at" = None) as H1
    by (apply Hfree'; unfold migration_index_names; repeat constructor).
  assert (tables' !! "idx_from_address" = None) as H2
    by (apply Hfree'; unfold migration_index_names; repeat constructor).
  assert (tables' !! "idx_thread_id" = None) as H3
    by (apply Hfree'; unfold migration_index_names; repeat constructor).
  assert (indexes' !! "idx_downloaded_at" = Some ("emails", "downloaded_at")) as I1
    by (unfold indexes', migration_indexes_of;
        by rewrite lookup_insert_ne, lookup_insert_ne, lookup_insert_eq by done).
  assert (indexes' !! "idx_from_address" = Some ("emails", "from_address")) as I2
    by (unfold indexes', migration_indexes_of;
        by rewrite lookup_insert_ne, lookup_insert_eq by done).
  assert (indexes' !! "idx_thread_id" = Some ("emails", "thread_id")) as I3
    by (unfold indexes', migration_indexes_of; by rewrite lookup_insert_eq).
  clearbody tables' indexes'.
  unfold bind, sql_create_table, sql_create_index, with_open, set_content.
  cbn [db_open db_tables db_indexes db_txn]. rewrite He'.
  cbn [db_open db_tables db_indexes db_txn]. rewrite He', H1, I1.
  cbn [db_open db_tables db_indexes db_txn]. rewrite He', H2, I2.
  cbn [db_open db_tables db_indexes db_txn]. rewrite He', H3, I3.
  eexists. split; [reflexivity|]. split; [by split|]. by split.
Qed.

(** Start-up on a file with an old table, whatever its rows, when the
    names of the three indexes are free: [initDatabase] returns on the
    current layout with as many rows as the old table had, or throws and
    the tables and indexes of the file are as they were. *)
Lemma initDatabase_cases o tables indexes t :
  tables !! "emails" = Some t ->
  old_identifier (t_cols t) ->
  indexes !! "emails" = None ->
  Forall (fun n => tables !! n = None
                   /\ forall tc, indexes !! n = Some tc -> tc.1 = "emails")
         migration_index_names ->
  match initDatabase (mkDatabase o tables indexes None) with
  | (Ok _, db') =>
      exists rows', current_layout db' rows' /\ length rows' = length (t_rows t)
  | (Throw _, db') => db_tables db' = tables /\ db_indexes db' = indexes
  end.
Proof.
  intros He Hold Hie Hfree.
  pose proof (migrateSchema_cases tables indexes t He Hie Hfree) as Hm.
  unfold initDatabase, try_catch. unfold bind at 1. unfold open_database.
  cbn [db_tables db_indexes].
  unfold bind at 1. rewrite (needsMigration_old _ _ _ _ He Hold).
  unfold bind at 1. simpl in Hm.
  destruct (migrateSchema _) as [[[]|e] db1]; [|by subst db1].
  destruct Hm as (rows' & -> & Hlen).
  set (tables' := <["emails" := _]> _).
  set (indexes' := migration_indexes_of _).
  assert (tables' !! "emails" = Some (Table current_columns rows')) as He'
    by (unfold tables'; by rewrite lookup_insert_eq).
  assert (forall n, n ∈ migration_index_names -> tables' !! n = None) as Hfree'.
  { intros n Hn. eapply Forall_forall in Hfree as [Hf _]; [|exact Hn].
    unfold migration_index_names in Hn. unfold tables'.
    rewrite lookup_insert_ne, !lookup_delete_ne; [done| | |];
      intros <-; apply list_elem_of_In in Hn; simpl in Hn; intuition discriminate. }
  assert (tables' !! "idx_downloaded_at" = None) as H1
    by (apply Hfree'; unfold migration_index_names; repeat constructor).
  assert (tables' !! "idx_from_address" = None) as H2
    by (apply Hfree'; unfold migration_index_names; repeat constructor).
  assert (tables' !! "idx_thread_id" = None) as H3
    by (apply Hfree'; unfold migration_index_names; repeat constructor).
  assert (indexes' !! "idx_downloaded_at" = Some ("emails", "downloaded_at")) as I1
    by (unfold indexes', migration_indexes_of;
        by rewrite lookup_insert_ne, lookup_insert_ne, lookup_insert_eq by done).
  assert (indexes' !! "idx_from_address" = Some ("emails", "from_address")) as I2
    by (unfold indexes', migration_indexes_of;
        by rewrite lookup_insert_ne, lookup_insert_eq by done).
  assert (indexes' !! "idx_thread_id" = Some ("emails", "thread_id")) as I3
    by (unfold indexes', migration_indexes_of; by rewrite lookup_insert_eq).
  clearbody tables' indexes'.
  unfold bind, sql_create_table, sql_create_index, with_open, set_content.
  cbn [db_open db_tables db_indexes db_txn]. rewrite He'.
  cbn [db_open db_tables db_indexes db_txn]. rewrite He', H1, I1.
  cbn [db_open db_tables db_indexes db_txn]. rewrite He', H2, I2.
  cbn [db_open db_tables db_indexes db_txn]. rewrite He', H3, I3.
  exists rows'. split; [by split|done].
Qed.

(** The old table of the sample file is migrated row by row. *)
Example legacy_database_migrates :
  (initDatabase legacy_database).1 = Ok tt
  /\ db_tables (initDatabase legacy_database).2 !! "emails"
     = Some (Table current_columns (map (migrated_row legacy_columns) legacy_rows))
  /\ map (migrated_row legacy_columns) legacy_rows
     = [ [ VText "41"; VText ""; VText "2025-10-01T08:00:00.000Z";
           VText "2025-10-01T08:00:05.000Z"; VText "ana@example.com";
           VText "rui@example.com"; VNull; VText "First"; VText "[]";
           VText "Body one" ];
         [ VText "42"; VText ""; VText "2025-10-02T09:00:00.000Z";
           VText "2025-10-02T09:00:05.000Z"; VText "eva@example.com";
           VText "rui@example.com"; VText "ana@example.com"; VText "Second";
           VText "[]"; VText "Body two" ] ].
Proof. repeat split; vm_compute; reflexivity. Qed.

(** C7: an old table is detected and the file also holds a table whose
    index is called [idx_thread_id].  The copy is committed before the
    row counts are compared; the swap is committed next; then the third
    index cannot be created.  [migrateSchema] throws, its [ROLLBACK] has
    no transaction to undo, [initDatabase] throws and the start-up is
    aborted, but [emails] has the new layout: the old one is gone. *)
Theorem migration_failure_after_swap :
  (needsMigration notes_opened).1 = Ok true
  /\ notes_copied.1 = Ok tt
  /\ db_txn notes_copied.2 = None
  /\ db_tables notes_copied.2 !! "emails_new"
     = Some (Table current_columns (map (migrated_row legacy_columns) legacy_rows))
  /\ (migrateSchema notes_opened).1
     = Throw "Schema migration failed: index idx_thread_id already exists"
  /\ (initDatabase legacy_database_with_notes).1
     = Throw "Database initialization failed: Schema migration failed: index idx_thread_id already exists"
  /\ db_tables notes_opened !! "emails" = Some (Table legacy_columns legacy_rows)
  /\ db_tables (initDatabase legacy_database_with_notes).2 !! "emails"
     = Some (Table current_columns (map (migrated_row legacy_columns) legacy_rows))
  /\ db_tables (initDatabase legacy_database_with_notes).2 !! "emails"
     <> db_tables notes_opened !! "emails".
Proof.
  do 8 (split; [vm_compute; reflexivity|]). vm_compute. discriminate.
Qed.

(** ** Further properties of the modules *)

Lemma validateState_INITIAL : validateState INITIAL_STATE = Ok INITIAL_STATE.
Proof. reflexivity. Qed.

Lemma json_roundtrip_INITIAL : json_roundtrip INITIAL_STATE = INITIAL_STATE.
Proof. by vm_compute. Qed.

(** X1: on a path that has no file, [initState] writes the initial state
    through the temporary sibling, which is gone afterwards, returns the
    initial state and touches no other file; the file then reads back as
    the initial state, and a second [initState] finds it and returns it
    without writing. *)
Theorem initState_creates path (fs : files) :
  fs !! path = None ->
  exists fs',
    initState path fs = (Ok INITIAL_STATE, fs')
    /\ fs' !! path = Some (FJson INITIAL_STATE)
    /\ fs' !! tempPath path = None
    /\ (forall p, p <> path -> p <> tempPath path -> fs' !! p = fs !! p)
    /\ readState path fs' = (Ok INITIAL_STATE, fs')
    /\ initState path fs' = (Ok INITIAL_STATE, fs').
Proof.
  intros Hnone. pose proof (tempPath_ne path) as Hne.
  exists (<[path := FJson INITIAL_STATE]> (delete (tempPath path) fs)).
  assert (initState path fs
          = (Ok INITIAL_STATE, <[path := FJson INITIAL_STATE]> (delete (tempPath path) fs)))
    as Hinit.
  { unfold initState, try_catch. rewrite Hnone. unfold bind.
    rewrite writeStateAtomic_result. by rewrite json_roundtrip_INITIAL. }
  assert (readState path (<[path := FJson INITIAL_STATE]> (delete (tempPath path) fs))
          = (Ok INITIAL_STATE, <[path := FJson INITIAL_STATE]> (delete (tempPath path) fs)))
    as Hread.
  { apply readState_valid; [by rewrite lookup_insert_eq | reflexivity]. }
  split; [done|]. split; [by rewrite lookup_insert_eq|].
  split; [by rewrite lookup_insert_ne, lookup_delete_eq by done|].
  split; [intros p H1 H2; by rewrite lookup_insert_ne, lookup_delete_ne by done|].
  split; [done|].
  unfold initState, try_catch. rewrite lookup_insert_eq. by rewrite Hread.
Qed.

Lemma initState_creates_witness :
  exists fs',
    initState "data/current_state.json" ∅ = (Ok INITIAL_STATE, fs')
    /\ fs' !! "data/current_state.json" = Some (FJson INITIAL_STATE)
    /\ fs' !! tempPath "data/current_state.json" = None
    /\ (forall p, p <> "data/current_state.json" ->
                  p <> tempPath "data/current_state.json" ->
                  fs' !! p = (∅ : files) !! p)
    /\ readState "data/current_state.json" fs' = (Ok INITIAL_STATE, fs')
    /\ initState "data/current_state.json" fs' = (Ok INITIAL_STATE, fs').
Proof.
  apply (initState_creates "data/current_state.json" ∅). reflexivity.
Defined.

(** X2: [initState] never writes over a file that is there.  A valid
    record is returned as it is; a record that is not valid, or a file
    that is no JSON, makes [initState] throw, and in every case the files
    are as they were: a damaged state file is not reset. *)
Theorem initState_keeps_existing path (fs : files) c :
  fs !! path = Some c ->
  (initState path fs).2 = fs
  /\ match c with
     | FJson s =>
         match validateState s with
         | Ok _ => (initState path fs).1 = Ok s
         | Throw e =>
             (initState path fs).1
             = Throw ("State initialization failed: State read failed: " +:+ e)
         end
     | FText _ =>
         exists e, (initState path fs).1
                   = Throw ("State initialization failed: State read failed: " +:+ e)
     end.
Proof.
  intros Hc. unfold initState, try_catch. rewrite Hc.
  unfold readState, try_catch. rewrite Hc.
  destruct c as [s|t]; simpl.
  - destruct (validateState s) as [s'|e] eqn:Hv; simpl; [|done].
    apply validateState_ok in Hv. by subst.
  - split; [done|]. by eexists.
Qed.

Lemma initState_keeps_existing_witness :
  (initState "data/current_state.json" sample_files).2 = sample_files
  /\ match FJson INITIAL_STATE with
     | FJson s =>
         match validateState s with
         | Ok _ => (initState "data/current_state.json" sample_files).1 = Ok s
         | Throw e =>
             (initState "data/current_state.json" sample_files).1
             = Throw ("State initialization failed: State read failed: " +:+ e)
         end
     | FText _ =>
         exists e, (initState "data/current_state.json" sample_files).1
                   = Throw ("State initialization failed: State read failed: " +:+ e)
     end.
Proof.
  apply (initState_keeps_existing "data/current_state.json" sample_files
           (FJson INITIAL_STATE)).
  reflexivity.
Defined.

Lemma nonempty_string_inv v :
  nonempty_string v = true <-> exists t, v = JStr t /\ t <> "".
Proof.
  unfold nonempty_string. split.
  - destruct v; simpl; try (intros H; rewrite ?andb_false_r in H; done).
    intros H. apply andb_true_iff in H as [H _]. apply negb_true_iff in H.
    apply String.eqb_neq in H. by eexists.
  - intros (t & -> & Ht). simpl. apply String.eqb_neq in Ht. by rewrite Ht.
Qed.

Lemma includes_value_inv l v :
  includes_value l v = true <-> exists st, v = JStr st /\ st ∈ l.
Proof.
  unfold includes_value. split.
  - destruct v; try done. intros (x & Hin & Heq)%existsb_exists.
    apply String.eqb_eq in Heq. subst x. exists s. split; [done|].
    by apply list_elem_of_In.
  - intros (st & -> & Hin). apply existsb_exists. exists st.
    split; [by apply list_elem_of_In | apply String.eqb_refl].
Qed.

Lemma validateState_iff s : validateState s = Ok s <-> valid_state s.
Proof.
  unfold validateState, valid_state. split.
  - destruct (find _ required_state_fields) eqn:Hf; [done|].
    destruct (nonneg_integer (prop s "last_uid")) eqn:H1; [|done].
    destruct (includes_value validStatuses (prop s "connection_status")) eqn:H2; [|done].
    destruct (nonempty_string (prop s "last_uid_received_at")) eqn:H3; [|done].
    destruct (nonempty_string (prop s "last_connected_at")) eqn:H4; [|done].
    destruct (negb (bool_decide (prop s "last_error" = JNull))
              && negb (is_string (prop s "last_error"))) eqn:H5; [done|].
    intros _.
    split.
    { apply Forall_forall. intros k Hk. apply list_elem_of_In in Hk.
      pose proof (find_none _ _ Hf k Hk) as Hn. simpl in Hn.
      by apply negb_false_iff in Hn. }
    split.
    { destruct (prop s "last_uid"); try done. eexists. split; [done|].
      simpl in H1. lia. }
    split; [by apply includes_value_inv|].
    split; [by apply nonempty_string_inv|].
    split; [by apply nonempty_string_inv|].
    destruct (prop s "last_error"); try done; [by left|right; by eexists].
  - intros (Hreq & (z & Hz & Hz0) & Hst & Ht1 & Ht2 & He).
    assert (find (fun field => negb (hasOwnProperty s field)) required_state_fields = None)
      as ->.
    { unfold required_state_fields in *.
      repeat (apply Forall_cons in Hreq as [? Hreq]). simpl.
      repeat match goal with H : hasOwnProperty _ _ = true |- _ => rewrite H; clear H end.
      done. }
    rewrite Hz. simpl.
    assert ((0 <=? z)%Z = true) as -> by lia. simpl.
    apply includes_value_inv in Hst. rewrite Hst. simpl.
    apply nonempty_string_inv in Ht1. rewrite Ht1. simpl.
    apply nonempty_string_inv in Ht2. rewrite Ht2. simpl.
    destruct He as [->|(e & ->)]; done.
Qed.

(** X3: [readState] never writes, and what it returns is the record of
    the file and is valid: the five fields are there, [last_uid] is a
    non-negative integer, [connection_status] is one of the three phases,
    the two dates are non-empty strings and [last_error] is [null] or a
    string.  Anything else, a missing file included, is an exception
    whose message starts with [State read failed: ]. *)
Theorem readState_returns_valid path (fs : files) :
  (readState path fs).2 = fs
  /\ match (readState path fs).1 with
     | Ok s => fs !! path = Some (FJson s) /\ valid_state s
     | Throw e => exists e0, e = "State read failed: " +:+ e0
     end.
Proof.
  unfold readState, try_catch.
  destruct (fs !! path) as [[s|t]|] eqn:Hf; simpl.
  - destruct (validateState s) as [s'|e] eqn:Hv; simpl.
    + pose proof (validateState_ok _ _ Hv) as ->. split; [done|]. split; [done|].
      by apply validateState_iff.
    + split; [done|]. by eexists.
  - split; [done|]. by eexists.
  - split; [done|]. by eexists.
Qed.

Lemma valid_state_roundtrip s : valid_state s -> valid_state (json_roundtrip s).
Proof.
  intros (Hreq & H1 & H2 & H3 & H4 & H5).
  unfold valid_state. rewrite !prop_json_roundtrip.
  split; [|done].
  assert (forall k, hasOwnProperty s k = true -> prop s k <> JUndefined ->
                    hasOwnProperty (json_roundtrip s) k = true) as Hown.
  { intros k Hk Hu. unfold hasOwnProperty, prop, json_roundtrip in *.
    destruct (s !! k) as [v|] eqn:Hsk; [|done]. simpl in Hu.
    assert (filter (λ kv : string * jsval, kv.2 ≠ JUndefined) s !! k = Some v) as ->; [|done].
    apply map_lookup_filter_Some. done. }
  unfold required_state_fields in *.
  repeat (apply Forall_cons in Hreq as [? Hreq]).
  destruct H1 as (z & Hz & _). destruct H2 as (st & Hst & _).
  destruct H3 as (t1 & Ht1 & _). destruct H4 as (t2 & Ht2 & _).
  repeat (constructor; [apply Hown; [done|]|]); try constructor.
  - by rewrite Hz.
  - by rewrite Ht1.
  - by rewrite Ht2.
  - destruct H5 as [->|(e & ->)]; done.
  - by rewrite Hst.
Qed.

(** X4: a call of [updateState] that returns has left a state file that
    reads back as the record it returned, without the properties whose
    value is [undefined] (JSON does not write them), and the five fields
    of the state read the same in both; a call that throws has left the
    files as they were, whatever was wrong: no file, a damaged file, or
    an update that makes the record invalid. *)
Theorem updateState_reads_back path u (fs : files) :
  match updateState path u fs with
  | (Ok s', fs') =>
      readState path fs' = (Ok (json_roundtrip s'), fs')
      /\ (forall k, prop (json_roundtrip s') k = prop s' k)
      /\ valid_state s'
  | (Throw e, fs') =>
      fs' = fs /\ exists e0, e = "State update failed: " +:+ e0
  end.
Proof.
  unfold updateState, try_catch, bind, lift_result.
  destruct (readState_cases path fs) as [(s & Hf & ->)|(e & ->)].
  2: { split; [done|]. by eexists. }
  destruct (validateState (spread s u)) as [s'|e] eqn:Hv.
  2: { split; [done|]. by eexists. }
  pose proof (validateState_ok _ _ Hv) as ->.
  rewrite writeStateAtomic_result. cbn [ret].
  apply validateState_iff in Hv.
  split; [|split; [apply prop_json_roundtrip|done]].
  apply readState_valid; [by rewrite lookup_insert_eq|].
  by apply validateState_iff, valid_state_roundtrip.
Qed.

(** X5: on a valid state file [clearError] does not throw: it returns
    the record with [last_error] set to [null] and every other property
    as it was, and leaves it as the state file. *)
Theorem clearError_on_valid_state path s (fs : files) :
  fs !! path = Some (FJson s) -> validateState s = Ok s ->
  exists s' fs',
    clearError path fs = (Ok s', fs')
    /\ prop s' "last_error" = JNull
    /\ (forall k, k <> "last_error" -> s' !! k = s !! k)
    /\ fs' !! path = Some (FJson (json_roundtrip s')).
Proof.
  intros Hf Hv.
  assert (validateState (spread s {["last_error" := JNull]})
          = Ok (spread s {["last_error" := JNull]})) as Hv'.
  { apply validateState_iff. apply validateState_iff in Hv.
    destruct Hv as (Hreq & H1 & H2 & H3 & H4 & H5).
    assert (forall k, k <> "last_error" ->
                      spread s {["last_error" := JNull]} !! k = s !! k) as Hk.
    { intros k Hne. apply spread_frame. by rewrite lookup_singleton_ne. }
    unfold valid_state, prop, hasOwnProperty in *.
    rewrite !Hk by done.
    split.
    { unfold required_state_fields in *.
      repeat (apply Forall_cons in Hreq as [? Hreq]).
      repeat (constructor; [first [by rewrite Hk by done
                                  | by rewrite (spread_update _ _ _ JNull)
                                      by apply lookup_singleton_eq]|]).
      constructor. }
    repeat (split; [done|]).
    left. by rewrite (spread_update _ _ _ JNull) by apply lookup_singleton_eq. }
  exists (spread s {["last_error" := JNull]}). eexists.
  unfold clearError, updateState, try_catch, bind, lift_result.
  rewrite (readState_valid _ _ _ Hf Hv), Hv', writeStateAtomic_result.
  split; [reflexivity|].
  split; [unfold prop; by rewrite (spread_update _ _ _ JNull) by apply lookup_singleton_eq|].
  split; [intros k Hne; apply spread_frame; by rewrite lookup_singleton_ne|].
  by rewrite lookup_insert_eq.
Qed.

Lemma clearError_on_valid_state_witness :
  exists s' fs',
    clearError "data/current_state.json" sample_files = (Ok s', fs')
    /\ prop s' "last_error" = JNull
    /\ (forall k, k <> "last_error" -> s' !! k = INITIAL_STATE !! k)
    /\ fs' !! "data/current_state.json" = Some (FJson (json_roundtrip s')).
Proof.
  apply (clearError_on_valid_state "data/current_state.json" INITIAL_STATE sample_files);
    reflexivity.
Defined.

Lemma sql_select_where_eq_frame tname cname arg db :
  (sql_select_where_eq tname cname arg db).2 = db.
Proof.
  unfold sql_select_where_eq, with_open.
  destruct (db_open db); [|done].
  destruct (db_tables db !! tname); [|done].
  destruct (negb _); [done|]. by destruct (bind_value arg).
Qed.

Lemma insert_row_appends tname t row t' :
  insert_row tname t row = Ok t' -> t' = Table (t_cols t) (t_rows t ++ [row]).
Proof.
  unfold insert_row. destruct (notnull_violation _ _); [done|].
  destruct (unique_violation _ _ _ _); [done|]. by intros [= <-].
Qed.

Lemma sql_insert_effect tname names args db :
  match sql_insert tname names args db with
  | (Ok _, db') =>
      db_open db = true
      /\ exists t row,
           db_tables db !! tname = Some t
           /\ length row = length (t_cols t)
           /\ db' = set_tables (<[tname := Table (t_cols t) (t_rows t ++ [row])]>
                                  (db_tables db)) db
  | (Throw _, db') => db' = db
  end.
Proof.
  unfold sql_insert, with_open.
  destruct (db_open db) eqn:Hopen; [|done].
  destruct (db_tables db !! tname) as [t|] eqn:Ht; [|done].
  destruct (find _ names); [done|].
  destruct (bind_values args) as [vals|]; [|done].
  destruct (insert_row _ _ _) as [t'|] eqn:Hins; [|done].
  apply insert_row_appends in Hins as ->.
  split; [done|]. eexists _, _. split; [done|]. split; [|done].
  by rewrite length_map.
Qed.

(** What one call of [storeEmail] writes. *)
Lemma storeEmail_frame email db :
  match storeEmail email db with
  | (Ok true, db') =>
      exists t row,
        db_tables db !! "emails" = Some t
        /\ length row = length (t_cols t)
        /\ db_tables db' = <["emails" := Table (t_cols t) (t_rows t ++ [row])]>
                             (db_tables db)
        /\ db_indexes db' = db_indexes db
        /\ db_open db' = true /\ db_open db = true
        /\ db_txn db' = db_txn db
  | (_, db') => db' = db
  end.
Proof.
  unfold storeEmail, try_catch, bind.
  pose proof (sql_select_where_eq_frame "emails" "id" (prop email "id") db) as Hsel.
  destruct (sql_select_where_eq "emails" "id" (prop email "id") db) as [[found|e] db0];
    simpl in Hsel; subst db0; [|done].
  destruct found; [|done].
  pose proof (sql_insert_effect "emails" email_columns (email_args email) db) as Hins.
  destruct (sql_insert "emails" email_columns (email_args email) db) as [[[]|e] db'];
    [|by subst].
  destruct Hins as (Hopen & t & row & Ht & Hlen & ->).
  exists t, row. simpl. done.
Qed.

Lemma store_all_cons email emails db :
  store_all (email :: emails) db = store_all emails (storeEmail email db).2.
Proof. reflexivity. Qed.

(** X6: [storeEmail] only appends to [emails].  One call writes only
    when it returns [true], and then it appends one row and changes
    nothing else; when it returns [false] or throws, the database is as
    it was.  So after any sequence of calls every other table, every
    index, the handle and the transaction are as they were, and the
    rows the table had are still there, in their order, before the rows
    added, which are at most as many as the calls. *)
Theorem storeEmail_only_appends emails db :
  (forall email,
     match storeEmail email db with
     | (Ok true, db') =>
         exists t row,
           db_tables db !! "emails" = Some t
           /\ db_tables db' = <["emails" := Table (t_cols t) (t_rows t ++ [row])]>
                                (db_tables db)
     | (_, db') => db' = db
     end)
  /\ (forall n, n <> "emails" ->
                db_tables (store_all emails db) !! n = db_tables db !! n)
  /\ db_indexes (store_all emails db) = db_indexes db
  /\ db_open (store_all emails db) = db_open db
  /\ db_txn (store_all emails db) = db_txn db
  /\ match db_tables db !! "emails" with
     | Some t =>
         exists added,
           db_tables (store_all emails db) !! "emails"
           = Some (Table (t_cols t) (t_rows t ++ added))
           /\ (length added <= length emails)%nat
     | None => store_all emails db = db
     end.
Proof.
  split.
  { intros email. pose proof (storeEmail_frame email db) as H.
    destruct (storeEmail email db) as [[[|]|e] db']; try done.
    destruct H as (t & row & Ht & _ & Htab & _). by exists t, row. }
  revert db. induction emails as [|email emails IH]; intros db.
  { repeat (split; [done|]).
    destruct (db_tables db !! "emails") as [t|] eqn:Ht; [|done].
    exists []. rewrite app_nil_r. split; [|done].
    unfold store_all. cbn [foldl]. rewrite Ht. by destruct t. }
  rewrite store_all_cons.
  pose proof (storeEmail_frame email db) as H.
  destruct (IH (storeEmail email db).2) as (I1 & I2 & I3 & I4 & I5).
  destruct (storeEmail email db) as [[[|]|e] db'] eqn:Hst; cbn [snd] in *.
  - destruct H as (t & row & Ht & _ & Htab & Hix & Ho' & Ho & Htx).
    split; [intros n Hn; by rewrite I1, Htab, lookup_insert_ne|].
    split; [by rewrite I2|]. split; [by rewrite I3, Ho', Ho|].
    split; [by rewrite I4|].
    rewrite Ht. rewrite Htab, lookup_insert_eq in I5.
    destruct I5 as (added & Hadd & Hlen). cbn [t_cols t_rows] in Hadd.
    exists (row :: added). rewrite Hadd. split; [by rewrite <- app_assoc|].
    simpl. lia.
  - subst db'. repeat (split; [done|]).
    destruct (db_tables db !! "emails") as [t|] eqn:Ht; [|done].
    destruct I5 as (added & Hadd & Hlen). exists added. split; [done|]. simpl. lia.
  - subst db'. repeat (split; [done|]).
    destruct (db_tables db !! "emails") as [t|] eqn:Ht; [|done].
    destruct I5 as (added & Hadd & Hlen). exists added. split; [done|]. simpl. lia.
Qed.

Lemma create_index_if_missing tables indexes rows iname cname :
  tables !! "emails" = Some (Table current_columns rows) ->
  tables !! iname = None ->
  has_column current_columns cname = true ->
  sql_create_index true iname "emails" cname (mkDatabase true tables indexes None)
  = (Ok tt, mkDatabase true tables (ensure_index iname cname indexes) None).
Proof.
  intros He Hi Hc. unfold sql_create_index, with_open, ensure_index. simpl.
  rewrite He, Hi. destruct (indexes !! iname); [done|].
  simpl. by rewrite Hc.
Qed.

Lemma ensure_index_is_Some iname cname indexes :
  is_Some (ensure_index iname cname indexes !! iname).
Proof.
  unfold ensure_index. destruct (indexes !! iname) eqn:H; [by rewrite H|].
  by rewrite lookup_insert_eq.
Qed.

Lemma ensure_index_keeps iname cname indexes n tc :
  indexes !! n = Some tc -> ensure_index iname cname indexes !! n = Some tc.
Proof.
  intros H. unfold ensure_index. destruct (indexes !! iname) eqn:Hi; [done|].
  rewrite lookup_insert_ne; [done|]. intros <-. congruence.
Qed.

Lemma ensure_index_idem iname cname indexes :
  is_Some (indexes !! iname) -> ensure_index iname cname indexes = indexes.
Proof. intros [tc H]. unfold ensure_index. by rewrite H. Qed.

Lemma ensure_indexes_spec indexes :
  Forall (fun n => is_Some (ensure_indexes indexes !! n)) migration_index_names
  /\ (forall n tc, indexes !! n = Some tc -> ensure_indexes indexes !! n = Some tc)
  /\ ensure_indexes (ensure_indexes indexes) = ensure_indexes indexes.
Proof.
  assert (forall n tc, indexes !! n = Some tc -> ensure_indexes indexes !! n = Some tc)
    as Hk.
  { intros n tc H. unfold ensure_indexes. by do 3 apply ensure_index_keeps. }
  assert (Forall (fun n => is_Some (ensure_indexes indexes !! n)) migration_index_names)
    as Hs.
  { unfold migration_index_names, ensure_indexes.
    repeat constructor.
    - destruct (ensure_index_is_Some "idx_downloaded_at" "downloaded_at" indexes) as [tc H].
      exists tc. by do 2 apply ensure_index_keeps.
    - destruct (ensure_index_is_Some "idx_from_address" "from_address"
                  (ensure_index "idx_downloaded_at" "downloaded_at" indexes)) as [tc H].
      exists tc. by apply ensure_index_keeps.
    - apply ensure_index_is_Some. }
  split; [done|]. split; [done|].
  unfold migration_index_names in Hs.
  repeat (apply Forall_cons in Hs as [? Hs]).
  unfold ensure_indexes at 1.
  rewrite (ensure_index_idem "idx_downloaded_at") by done.
  rewrite (ensure_index_idem "idx_from_address") by done.
  by rewrite (ensure_index_idem "idx_thread_id") by done.
Qed.

Lemma needsMigration_current tables indexes txn :
  match tables !! "emails" with
  | None => True
  | Some t => t_cols t = current_columns
  end ->
  needsMigration (mkDatabase true tables indexes txn)
  = (Ok false, mkDatabase true tables indexes txn).
Proof.
  intros H. unfold needsMigration, try_catch, bind, sql_table_exists, sql_table_info,
    with_open. cbn [db_open db_tables].
  destruct (tables !! "emails") as [[cols rows]|] eqn:He; [|done].
  simpl in H. subst cols. cbn [negb]. cbn [db_open db_tables]. rewrite He.
  reflexivity.
Qed.

Lemma initDatabase_on_current o tables indexes txn rows :
  tables !! "emails" = Some (Table current_columns rows) ->
  Forall (fun n => tables !! n = None) migration_index_names ->
  initDatabase (mkDatabase o tables indexes txn)
  = (Ok tt, mkDatabase true tables (ensure_indexes indexes) None).
Proof.
  intros He Hfree. unfold migration_index_names in Hfree.
  repeat (apply Forall_cons in Hfree as [? Hfree]).
  unfold initDatabase, try_catch. unfold bind at 1. unfold open_database. simpl.
  unfold bind at 1. rewrite needsMigration_current by (by rewrite He).
  unfold bind at 1. unfold ret at 1.
  unfold bind at 1. unfold sql_create_table, with_open. simpl. rewrite He.
  unfold bind at 1.
  rewrite (create_index_if_missing _ _ rows) by done.
  unfold bind at 1.
  rewrite (create_index_if_missing _ _ rows) by done.
  rewrite (create_index_if_missing _ _ rows) by done.
  reflexivity.
Qed.

Lemma initDatabase_on_none o tables indexes txn :
  tables !! "emails" = None -> indexes !! "emails" = None ->
  Forall (fun n => tables !! n = None) migration_index_names ->
  initDatabase (mkDatabase o tables indexes txn)
  = (Ok tt, mkDatabase true (<["emails" := Table current_columns []]> tables)
              (ensure_indexes indexes) None).
Proof.
  intros He Hie Hfree. unfold migration_index_names in Hfree.
  repeat (apply Forall_cons in Hfree as [? Hfree]).
  unfold initDatabase, try_catch. unfold bind at 1. unfold open_database. simpl.
  unfold bind at 1. rewrite needsMigration_current by (by rewrite He).
  unfold bind at 1. unfold ret at 1.
  unfold bind at 1. unfold sql_create_table, with_open. simpl. rewrite He, Hie.
  unfold set_tables, set_content. simpl.
  unfold bind at 1.
  rewrite (create_index_if_missing _ _ [])
    by (first [by rewrite lookup_insert_eq | by rewrite lookup_insert_ne | done]).
  unfold bind at 1.
  rewrite (create_index_if_missing _ _ [])
    by (first [by rewrite lookup_insert_eq | by rewrite lookup_insert_ne | done]).
  rewrite (create_index_if_missing _ _ [])
    by (first [by rewrite lookup_insert_eq | by rewrite lookup_insert_ne | done]).
  reflexivity.
Qed.

(** X7: on a database file that has no [emails] table, or has it in the
    current layout, and where no table bears the name of one of the
    three indexes, [initDatabase] succeeds without migrating: the handle
    is open on [emails] in the current layout with the rows it had (none
    if it was created), every other table is as it was, the three index
    names exist, the indexes that were there are kept, and running
    [initDatabase] again on the result changes nothing. *)
Theorem initDatabase_current_store o tables indexes txn :
  match tables !! "emails" with
  | None => indexes !! "emails" = None
  | Some t => t_cols t = current_columns
  end ->
  Forall (fun n => tables !! n = None) migration_index_names ->
  exists db',
    initDatabase (mkDatabase o tables indexes txn) = (Ok tt, db')
    /\ current_layout db' (emails_rows (mkDatabase o tables indexes txn))
    /\ (forall n, n <> "emails" -> db_tables db' !! n = tables !! n)
    /\ Forall (fun n => is_Some (db_indexes db' !! n)) migration_index_names
    /\ (forall n tc, indexes !! n = Some tc -> db_indexes db' !! n = Some tc)
    /\ initDatabase db' = (Ok tt, db').
Proof.
  intros He Hfree.
  destruct (ensure_indexes_spec indexes) as (Hs & Hk & Hidem).
  unfold emails_rows. simpl.
  destruct (tables !! "emails") as [[cols rows]|] eqn:Ht.
  - simpl in He. subst cols.
    eexists. split; [by apply (initDatabase_on_current _ _ _ _ rows)|].
    split; [by split|]. split; [done|]. split; [done|]. split; [done|].
    rewrite (initDatabase_on_current _ _ _ _ rows) by done. by rewrite Hidem.
  - eexists. split; [by apply initDatabase_on_none|].
    split; [split; [done|]; simpl; by rewrite lookup_insert_eq|].
    split; [intros n Hn; simpl; by rewrite lookup_insert_ne|].
    split; [done|]. split; [done|].
    rewrite (initDatabase_on_current _ _ _ _ []).
    + by rewrite Hidem.
    + by rewrite lookup_insert_eq.
    + unfold migration_index_names in *.
      repeat (apply Forall_cons in Hfree as [? Hfree]).
      repeat (constructor; [by rewrite lookup_insert_ne|]). constructor.
Qed.

Lemma initDatabase_current_store_witness :
  exists db',
    initDatabase (mkDatabase false ∅ ∅ None) = (Ok tt, db')
    /\ current_layout db' (emails_rows (mkDatabase false ∅ ∅ None))
    /\ (forall n, n <> "emails" -> db_tables db' !! n = (∅ : gmap string table) !! n)
    /\ Forall (fun n => is_Some (db_indexes db' !! n)) migration_index_names
    /\ (forall n tc, (∅ : gmap string (string * string)) !! n = Some tc ->
                     db_indexes db' !! n = Some tc)
    /\ initDatabase db' = (Ok tt, db').
Proof.
  apply (initDatabase_current_store false ∅ ∅ None).
  - reflexivity.
  - repeat constructor.
Defined.

Lemma getEmailById_none db rows id :
  current_layout db rows -> rows_with_id id rows = [] ->
  getEmailById (JStr id) db = (Ok None, db).
Proof.
  intros Hcur Hnone. unfold getEmailById, try_catch, bind.
  rewrite (select_id_current _ _ _ Hcur). simpl.
  rewrite (list_filter_iff _ (fun r => r !! 0%nat = Some (VText id)))
    by (intros r; split; [by intros [_ ?] | by split]).
  unfold rows_with_id in Hnone. by rewrite Hnone.
Qed.

(** X8: insert, then look up.  On a store in the current layout that
    has no row for the identifier of a Message, [getEmailById] returns
    [null] before the message is stored and, once [storeEmail] has stored
    it, the row with all ten values of the message; the lookup writes
    nothing. *)
Theorem getEmailById_after_storeEmail db rows m id :
  current_layout db rows -> Message m -> prop m "id" = JStr id ->
  rows_with_id id rows = [] ->
  getEmailById (JStr id) db = (Ok None, db)
  /\ exists db1,
       storeEmail m db = (Ok true, db1)
       /\ getEmailById (JStr id) db1 = (Ok (Some (message_row m)), db1)
       /\ Forall (fun k => cell current_columns k (message_row m)
                           = Some (field_cell m k))
                 email_columns.
Proof.
  intros Hcur Hm Hid Hfresh.
  split; [by apply (getEmailById_none _ rows)|].
  destruct (storeEmail_first db rows m id Hcur Hm Hid Hfresh) as (db1 & Hst & Hcur1).
  exists db1. split; [done|]. split.
  - apply (getEmailById_one _ _ _ _ Hcur1).
    by apply rows_with_id_message.
  - repeat constructor.
Qed.

Lemma getEmailById_after_storeEmail_witness :
  getEmailById (JStr "18c1a2b3") empty_store = (Ok None, empty_store)
  /\ exists db1,
       storeEmail sample_message empty_store = (Ok true, db1)
       /\ getEmailById (JStr "18c1a2b3") db1
          = (Ok (Some (message_row sample_message)), db1)
       /\ Forall (fun k => cell current_columns k (message_row sample_message)
                           = Some (field_cell sample_message k))
                 email_columns.
Proof.
  apply (getEmailById_after_storeEmail empty_store [] sample_message "18c1a2b3").
  - split; reflexivity.
  - split; [repeat constructor | right; reflexivity].
  - reflexivity.
  - reflexivity.
Defined.

Lemma countEmails_current db rows :
  current_layout db rows -> countEmails db = (Ok (length rows), db).
Proof.
  intros [Hopen Ht]. unfold countEmails, try_catch, sql_count, with_open.
  by rewrite Hopen, Ht.
Qed.

(** X9: on a store in the current layout [countEmails] returns the
    number of rows and writes nothing, and it counts what [storeEmail]
    does: one more after a call that returned [true], the same number
    after a call that returned [false] or threw, whatever the record. *)
Theorem countEmails_follows_storeEmail db rows email :
  current_layout db rows ->
  countEmails db = (Ok (length rows), db)
  /\ match storeEmail email db with
     | (Ok true, db') => countEmails db' = (Ok (S (length rows)), db')
     | (_, db') => countEmails db' = (Ok (length rows), db')
     end.
Proof.
  intros Hcur. split; [by apply countEmails_current|].
  pose proof (storeEmail_cases db rows email Hcur) as Hc.
  destruct (storeEmail email db) as [[[|]|e] db'].
  - destruct Hc as (row & Hcur' & _).
    rewrite (countEmails_current _ _ Hcur'). rewrite length_app. simpl.
    by rewrite Nat.add_1_r.
  - subst db'. by apply countEmails_current.
  - subst db'. by apply countEmails_current.
Qed.

Lemma countEmails_follows_storeEmail_witness :
  countEmails empty_store = (Ok (length ([] : list (list sqlval))), empty_store)
  /\ match storeEmail sample_message empty_store with
     | (Ok true, db') => countEmails db' = (Ok (S (length ([] : list (list sqlval)))), db')
     | (_, db') => countEmails db' = (Ok (length ([] : list (list sqlval))), db')
     end.
Proof.
  apply (countEmails_follows_storeEmail empty_store [] sample_message).
  split; reflexivity.
Defined.

(** X10: [closeDatabase] never throws and closes the handle; on a
    closed handle [storeEmail], [getEmailById] and [countEmails] throw,
    each with its own prefix, and nothing is written.  Closing outside a
    transaction leaves the tables and the indexes of the file as they
    were, and closing twice is the same as closing once. *)
Theorem closed_database_rejects db email id :
  exists db',
    closeDatabase db = (Ok tt, db')
    /\ db_open db' = false
    /\ (db_txn db = None ->
        db_tables db' = db_tables db /\ db_indexes db' = db_indexes db)
    /\ closeDatabase db' = (Ok tt, db')
    /\ (exists e, storeEmail email db' = (Throw ("Email insertion failed: " +:+ e), db'))
    /\ (exists e, getEmailById id db' = (Throw ("Email query failed: " +:+ e), db'))
    /\ (exists e, countEmails db' = (Throw ("Email count failed: " +:+ e), db')).
Proof.
  eexists. split; [reflexivity|].
  split; [by destruct (db_txn db) as [[? ?]|]|].
  split; [by intros ->|].
  split; [by destruct (db_txn db) as [[? ?]|]|].
  split; [|split]; eexists;
    unfold storeEmail, getEmailById, countEmails, try_catch, bind,
      sql_select_where_eq, sql_count, with_open;
    by destruct (db_txn db) as [[? ?]|].
Qed.

(** X11: start-up on a file whose [emails] table has the old layout,
    when the names the migration creates are free: [initDatabase]
    migrates and returns on the current layout with as many rows as the
    old table had, in the same order; each row has the old integer
    identifier as text, an empty [thread_id], and the other eight values
    as they were. *)
Theorem initDatabase_migrates_every_row o tables indexes txn cols rows :
  tables !! "emails" = Some (Table cols rows) ->
  old_identifier cols ->
  legacy_layout (Table cols rows) ->
  free_names (mkDatabase true tables indexes None) ->
  exists db' rows',
    initDatabase (mkDatabase o tables indexes txn) = (Ok tt, db')
    /\ current_layout db' rows'
    /\ length rows' = length rows
    /\ forall i r, rows !! i = Some r ->
         exists r' z,
           rows' !! i = Some r'
           /\ cell cols "id" r = Some (VInt z)
           /\ cell current_columns "id" r' = Some (VText (pretty z))
           /\ cell current_columns "thread_id" r' = Some (VText "")
           /\ Forall (fun k => cell current_columns k r' = cell cols k r)
                     ("cc_address" :: legacy_text_fields).
Proof.
  intros He Hold Hleg Hfree.
  destruct (initDatabase_migrates o tables indexes txn cols rows He Hold Hleg Hfree)
    as (db' & Hinit & Hcur & Hlen & _).
  exists db', (map (migrated_row cols) rows).
  split; [done|]. split; [done|]. split; [done|].
  intros i r Hr.
  destruct Hleg as (_ & Hrows & _). simpl in Hrows.
  assert (legacy_row cols r) as Hlr.
  { eapply Forall_forall; [exact Hrows|]. by eapply list_elem_of_lookup_2. }
  destruct (legacy_row_migrated cols r Hlr)
    as (z & a & b & c & d & e & f & g & cc & Hz & _ & Hcc & Ha & Hb & Hc & Hd & Hee
        & Hf & Hg & Hmr).
  exists (migrated_row cols r), z.
  split; [by rewrite list_lookup_fmap, Hr|].
  split; [done|]. rewrite Hmr.
  split; [reflexivity|]. split; [reflexivity|].
  unfold legacy_text_fields.
  repeat (constructor; [by rewrite ?Hcc, ?Ha, ?Hb, ?Hc, ?Hd, ?Hee, ?Hf, ?Hg|]).
  constructor.
Qed.

Lemma initDatabase_migrates_every_row_witness :
  exists db' rows',
    initDatabase (mkDatabase false (db_tables legacy_database)
                    (db_indexes legacy_database) None) = (Ok tt, db')
    /\ current_layout db' rows'
    /\ length rows' = length legacy_rows
    /\ forall i r, legacy_rows !! i = Some r ->
         exists r' z,
           rows' !! i = Some r'
           /\ cell legacy_columns "id" r = Some (VInt z)
           /\ cell current_columns "id" r' = Some (VText (pretty z))
           /\ cell current_columns "thread_id" r' = Some (VText "")
           /\ Forall (fun k => cell current_columns k r' = cell legacy_columns k r)
                     ("cc_address" :: legacy_text_fields).
Proof.
  apply (initDatabase_migrates_every_row false (db_tables legacy_database)
           (db_indexes legacy_database) None legacy_columns legacy_rows).
  - reflexivity.
  - split; [exists (Column "id" "INTEGER" true true); split; reflexivity | reflexivity].
  - split; [repeat constructor|]. split.
    + simpl. apply Forall_cons. split.
      { split; [by eexists|]. split; [repeat constructor; by eexists|].
        left; reflexivity. }
      apply Forall_cons. split; [|by apply Forall_nil].
      split; [by eexists|]. split; [repeat constructor; by eexists|].
      right; by eexists.
    + simpl. repeat constructor; simpl; intros H;
        repeat (apply elem_of_cons in H as [H|H]; [discriminate|]);
        by apply not_elem_of_nil in H.
  - split; [reflexivity|]. split; [reflexivity|]. split; [reflexivity|].
    repeat constructor; simpl; intros tc H; vm_compute in H; try discriminate;
      by injection H as <-.
Defined.

Lemma ascii_compare_N a b : Ascii.compare a b = N.compare (N_of_ascii a) (N_of_ascii b).
Proof. reflexivity. Qed.

Lemma ascii_compare_lt_trans a b c :
  Ascii.compare a b = Lt -> Ascii.compare b c = Lt -> Ascii.compare a c = Lt.
Proof.
  rewrite !ascii_compare_N, !N.compare_lt_iff. lia.
Qed.

Lemma string_compare_lt_trans a : forall b c,
  String.compare a b = Lt -> String.compare b c = Lt -> String.compare a c = Lt.
Proof.
  induction a as [|x a IH]; intros [|y b] [|z c]; simpl; try done.
  destruct (Ascii.compare x y) eqn:Hxy; try done;
    destruct (Ascii.compare y z) eqn:Hyz; try done.
  - apply Ascii.compare_eq_iff in Hxy, Hyz. subst.
    assert (Ascii.compare z z = Eq) as -> by (rewrite ascii_compare_N; apply N.compare_refl).
    apply IH.
  - apply Ascii.compare_eq_iff in Hxy. subst. by rewrite Hyz.
  - apply Ascii.compare_eq_iff in Hyz. subst. by rewrite Hxy.
  - by rewrite (ascii_compare_lt_trans _ _ _ Hxy Hyz).
Qed.

Lemma string_compare_refl a : String.compare a a = Eq.
Proof.
  induction a as [|x a IH]; simpl; [done|].
  by rewrite ascii_compare_N, N.compare_refl.
Qed.

Lemma string_leb_trans a b c :
  String.leb a b = true -> String.leb b c = true -> String.leb a c = true.
Proof.
  unfold String.leb.
  destruct (String.compare a b) eqn:Hab; try done;
    destruct (String.compare b c) eqn:Hbc; try done; intros _ _.
  - apply String.compare_eq_iff in Hab, Hbc. subst. by rewrite string_compare_refl.
  - apply String.compare_eq_iff in Hab. subst. by rewrite Hbc.
  - apply String.compare_eq_iff in Hbc. subst. by rewrite Hab.
  - by rewrite (string_compare_lt_trans _ _ _ Hab Hbc).
Qed.

Lemma sql_leb_trans a b c :
  sql_leb a b = true -> sql_leb b c = true -> sql_leb a c = true.
Proof.
  destruct a, b, c; simpl; try done; try (intros; lia).
  apply string_leb_trans.
Qed.

Lemma sql_leb_total a b : sql_leb a b = true \/ sql_leb b a = true.
Proof.
  destruct a, b; simpl; try (by left); try (by right); try lia.
  apply String.leb_total.
Qed.

Global Instance ordered_by_trans cols cname : Transitive (ordered_by cols cname).
Proof. intros x y z. unfold ordered_by. apply sql_leb_trans. Qed.

Global Instance ordered_by_total cols cname : Total (ordered_by cols cname).
Proof. intros x y. unfold ordered_by. apply sql_leb_total. Qed.

Lemma filter_never {A} (P : A -> Prop) `{forall x, Decision (P x)} (l : list A) :
  (forall x, ~ P x) -> filter P l = [].
Proof.
  intros Hn. induction l as [|x l IH]; [done|]. by rewrite filter_cons_False.
Qed.

Lemma getEmailsByThread_current db rows tid :
  current_layout db rows ->
  getEmailsByThread (JStr tid) db
  = (Ok (order_by current_columns "received_at"
           (filter (fun r => tid <> ""
                             /\ cell current_columns "thread_id" r = Some (VText tid))
                   rows)), db).
Proof.
  intros [Hopen Ht]. unfold getEmailsByThread, try_catch, with_open.
  rewrite Hopen, Ht. simpl. do 3 f_equal.
  unfold rows_where_eq. simpl.
  rewrite list_filter_filter. apply list_filter_iff. intros r. split.
  - intros (Hne & _ & Heq). split; [|done]. intros ->. by rewrite Heq in Hne.
  - intros (Hne & Heq). split; [|done]. rewrite Heq. by intros [= ->].
Qed.

(** X12: on a store in the current layout [getEmailsByThread] returns,
    without writing, exactly the rows whose [thread_id] is the given
    one, each once, ordered by [received_at]; for the empty thread
    identifier, the one migrated rows have, it returns no row. *)
Theorem getEmailsByThread_thread_in_order db rows tid :
  current_layout db rows ->
  exists res,
    getEmailsByThread (JStr tid) db = (Ok res, db)
    /\ res ≡ₚ filter (fun r => cell current_columns "thread_id" r = Some (VText tid)
                               /\ tid <> "") rows
    /\ StronglySorted (ordered_by current_columns "received_at") res
    /\ (tid = "" -> res = []).
Proof.
  intros Hcur. eexists. split; [by apply getEmailsByThread_current|].
  split; [|split].
  - unfold order_by. rewrite merge_sort_Permutation.
    erewrite list_filter_iff; [reflexivity|]. intros r. tauto.
  - apply StronglySorted_merge_sort; apply _.
  - intros ->. unfold order_by.
    by rewrite filter_never by (by intros r [? _]).
Qed.

Lemma getEmailsByThread_thread_in_order_witness :
  exists res,
    getEmailsByThread (JStr "18c1a2b0") sample_thread_store = (Ok res, sample_thread_store)
    /\ res ≡ₚ filter (fun r => cell current_columns "thread_id" r = Some (VText "18c1a2b0")
                               /\ "18c1a2b0" <> "")
                     [message_row sample_message; message_row sample_earlier]
    /\ StronglySorted (ordered_by current_columns "received_at") res
    /\ ("18c1a2b0" = "" -> res = []).
Proof.
  apply (getEmailsByThread_thread_in_order sample_thread_store
           [message_row sample_message; message_row sample_earlier] "18c1a2b0").
  split; vm_compute; reflexivity.
Defined.

Global Instance ordered_by_flip_trans cols cname : Transitive (flip (ordered_by cols cname)).
Proof. intros x y z H1 H2. unfold flip, ordered_by in *. by eapply sql_leb_trans. Qed.

Global Instance ordered_by_flip_total cols cname : Total (flip (ordered_by cols cname)).
Proof. intros x y. unfold flip, ordered_by. apply sql_leb_total. Qed.

(** X13: on a store in the current layout [getRecentEmails] returns,
    without writing, the four selected values of the [limit] rows that
    come first when all rows are put newest [downloaded_at] first (100
    rows when no limit is given, all rows for a negative limit, fewer
    when the store holds fewer): every row left out is no newer than
    every row returned. *)
Theorem getRecentEmails_newest_first db rows limit :
  current_layout db rows ->
  exists kept left_out,
    getRecentEmails limit db
    = (Ok (map (select_columns current_columns recent_columns) kept), db)
    /\ kept ++ left_out ≡ₚ rows
    /\ StronglySorted (flip (ordered_by current_columns "downloaded_at"))
         (kept ++ left_out)
    /\ length kept = (if (default 100%Z limit <? 0)%Z then length rows
                      else Nat.min (Z.to_nat (default 100%Z limit)) (length rows)).
Proof.
  intros [Hopen Ht].
  set (sorted := order_by_desc current_columns "downloaded_at" rows).
  assert (sorted ≡ₚ rows) as Hperm by apply merge_sort_Permutation.
  assert (length sorted = length rows) as Hlen by (by rewrite Hperm).
  exists (sql_limit (default 100%Z limit) sorted).
  exists (if (default 100%Z limit <? 0)%Z then []
          else drop (Z.to_nat (default 100%Z limit)) sorted).
  split.
  { unfold getRecentEmails, try_catch, with_open. rewrite Hopen, Ht. reflexivity. }
  unfold sql_limit.
  destruct (default 100%Z limit <? 0)%Z.
  - rewrite app_nil_r. split; [done|]. split; [|done].
    apply StronglySorted_merge_sort; apply _.
  - rewrite take_drop. split; [done|]. split.
    + apply StronglySorted_merge_sort; apply _.
    + rewrite length_take. lia.
Qed.

Lemma getRecentEmails_newest_first_witness :
  exists kept left_out,
    getRecentEmails (Some 1%Z) sample_thread_store
    = (Ok (map (select_columns current_columns recent_columns) kept), sample_thread_store)
    /\ kept ++ left_out ≡ₚ [message_row sample_message; message_row sample_earlier]
    /\ StronglySorted (flip (ordered_by current_columns "downloaded_at"))
         (kept ++ left_out)
    /\ length kept = (if (default 100%Z (Some 1%Z) <? 0)%Z
                      then length [message_row sample_message; message_row sample_earlier]
                      else Nat.min (Z.to_nat (default 100%Z (Some 1%Z)))
                             (length [message_row sample_message;
                                      message_row sample_earlier])).
Proof.
  apply (getRecentEmails_newest_first sample_thread_store
           [message_row sample_message; message_row sample_earlier] (Some 1%Z)).
  split; vm_compute; reflexivity.
Defined.

(** In the sample store the thread comes back oldest first although it
    was stored newest first, and the most recent download is the earlier
    message. *)
Example sample_thread_queries :
  (getEmailsByThread (JStr "18c1a2b0") sample_thread_store).1
  = Ok [message_row sample_earlier; message_row sample_message]
  /\ (getRecentEmails (Some 1%Z) sample_thread_store).1
     = Ok [[VText "18c1a2b1"; VText "ana@example.com"; VText "Hello";
            VText "2025-11-01T10:00:03.000Z"]]
  /\ (getEmailsByThread (JStr "") sample_thread_store).1 = Ok [].
Proof. split; [|split]; vm_compute; reflexivity. Qed.

(** [trim] and [toLowerCase] are idempotent. *)
Lemma trim_end_empty s : trim_end s = "" <-> all_space s = true.
Proof.
  destruct s as [|c s]; simpl; [done|].
  destruct (is_space c && all_space s); done.
Qed.

Lemma all_space_trim_end s : all_space (trim_end s) = true -> trim_end s = "".
Proof.
  induction s as [|c s IH]; [done|].
  simpl. destruct (is_space c && all_space s) eqn:Hall; [done|].
  simpl. intros [Hc Hs]%andb_true_iff.
  apply IH in Hs. apply trim_end_empty in Hs. by rewrite Hc, Hs in Hall.
Qed.

Lemma trim_end_idem s : trim_end (trim_end s) = trim_end s.
Proof.
  induction s as [|c s IH]; [done|].
  simpl. destruct (is_space c && all_space s) eqn:Hall; [done|].
  simpl. rewrite IH.
  destruct (is_space c && all_space (trim_end s)) eqn:Hall'; [|done].
  apply andb_true_iff in Hall' as [Hc Hs].
  apply all_space_trim_end, trim_end_empty in Hs. by rewrite Hc, Hs in Hall.
Qed.

Lemma trim_start_head s :
  trim_start s = "" \/ exists c t, trim_start s = String c t /\ is_space c = false.
Proof.
  induction s as [|c s IH]; [by left|].
  simpl. destruct (is_space c) eqn:Hc; [done|]. right. by exists c, s.
Qed.

Lemma trim_idem s : trim (trim s) = trim s.
Proof.
  unfold trim. destruct (trim_start_head s) as [->|(c & t & -> & Hc)]; [done|].
  simpl. rewrite Hc. simpl. rewrite Hc. simpl. rewrite Hc. simpl.
  by rewrite trim_end_idem.
Qed.

Lemma lower_char_idem c : lower_char (lower_char c) = lower_char c.
Proof. destruct c as [[] [] [] [] [] [] [] []]; reflexivity. Qed.

Lemma toLowerCase_idem s : toLowerCase (toLowerCase s) = toLowerCase s.
Proof.
  induction s as [|c s IH]; [done|]. simpl. by rewrite lower_char_idem, IH.
Qed.

Lemma match_header_key line key value :
  match_header line = Some (key, value) -> key <> "".
Proof.
  unfold match_header. destruct (split_colon line) as [[k rest]|]; [|done].
  destruct (k =? "") eqn:Hk; [done|]. simpl.
  destruct (has_line_terminator _); [done|].
  intros [= <- _]. by apply String.eqb_neq.
Qed.

Lemma parseHeaders_step_normalised headers line :
  normalised_headers headers ->
  normalised_headers
    (match match_header line with
     | Some (key, value) => set_header (toLowerCase key) (JStr (trim value)) headers
     | None => headers
     end).
Proof.
  intros Hh. destruct (match_header line) as [[key value]|] eqn:Hm; [|done].
  unfold set_header. destruct (toLowerCase key =? "__proto__") eqn:Hp; [done|].
  apply String.eqb_neq in Hp.
  intros k v. destruct (decide (toLowerCase key = k)) as [<-|Hne].
  - rewrite lookup_insert_eq. intros [= <-].
    split.
    { apply match_header_key in Hm. by destruct key. }
    split; [done|]. split; [apply toLowerCase_idem|].
    eexists. split; [done|]. apply trim_idem.
  - rewrite lookup_insert_ne by done. apply Hh.
Qed.

(** X14: whatever the text, every name in the object [parseHeaders]
    returns is lower-case, not empty and not [__proto__], and every value
    is a string with no white space at either end; the empty text gives
    the empty object. *)
Theorem parseHeaders_normalised headerStr :
  normalised_headers (parseHeaders headerStr)
  /\ parseHeaders "" = ∅.
Proof.
  split; [|reflexivity].
  unfold parseHeaders. generalize (split_crlf headerStr). intros lines.
  assert (normalised_headers ∅) as H0 by (intros k v; by rewrite lookup_empty).
  revert H0. generalize (∅ : jsobj).
  induction lines as [|line lines IH]; intros headers Hh; simpl; [done|].
  apply IH. by apply parseHeaders_step_normalised.
Qed.

Lemma split_crlf_cons c s :
  split_crlf (String c s) =
  match s with
  | String d s' =>
      if Ascii.eqb c CR && Ascii.eqb d LF then EmptyString :: split_crlf s'
      else cons_head c (split_crlf s)
  | EmptyString => cons_head c (split_crlf s)
  end.
Proof. destruct s; reflexivity. Qed.

Lemma split_crlf_nonempty s : split_crlf s <> [].
Proof.
  destruct s as [|c s]; [done|]. rewrite split_crlf_cons.
  destruct s as [|d s]; [done|].
  destruct (Ascii.eqb c CR && Ascii.eqb d LF); [done|].
  unfold cons_head. by destruct (split_crlf (String d s)).
Qed.

Lemma cons_head_app c ls ls' :
  ls <> [] -> cons_head c (ls ++ ls') = cons_head c ls ++ ls'.
Proof. by destruct ls. Qed.

Lemma split_crlf_app_n n : forall a b,
  (String.length a <= n)%nat ->
  split_crlf (a +:+ CRLF +:+ b) = split_crlf a ++ split_crlf b.
Proof.
  induction n as [|n IH]; intros a b Hlen.
  { destruct a; [reflexivity|simpl in Hlen; lia]. }
  destruct a as [|c a]; [reflexivity|].
  simpl in Hlen.
  destruct a as [|d a].
  - change (String c "" +:+ CRLF +:+ b) with (String c (String CR (String LF b))).
    rewrite (split_crlf_cons c (String CR (String LF b))).
    assert (Ascii.eqb CR LF = false) as -> by reflexivity.
    rewrite andb_false_r.
    change (split_crlf (String CR (String LF b))) with (EmptyString :: split_crlf b).
    reflexivity.
  - change (String c (String d a) +:+ CRLF +:+ b)
      with (String c (String d (a +:+ CRLF +:+ b))).
    rewrite (split_crlf_cons c (String d (a +:+ CRLF +:+ b))).
    rewrite (split_crlf_cons c (String d a)).
    destruct (Ascii.eqb c CR && Ascii.eqb d LF).
    + simpl in Hlen. rewrite (IH a b) by lia. reflexivity.
    + change (String d (a +:+ CRLF +:+ b)) with (String d a +:+ CRLF +:+ b).
      rewrite (IH (String d a) b) by lia.
      apply cons_head_app, split_crlf_nonempty.
Qed.

Lemma split_crlf_app a b :
  split_crlf (a +:+ CRLF +:+ b) = split_crlf a ++ split_crlf b.
Proof. by apply (split_crlf_app_n (String.length a)). Qed.

Lemma split_crlf_line l : has_line_terminator l = false -> split_crlf l = [l].
Proof.
  induction l as [|c l IH]; [done|].
  simpl has_line_terminator. intros [Hc Hl]%orb_false_iff.
  rewrite split_crlf_cons.
  assert (Ascii.eqb c CR = false) as Hcr.
  { unfold is_line_terminator in Hc. by apply orb_false_iff in Hc as [? _]. }
  rewrite Hcr. simpl. rewrite (IH Hl). by destruct l.
Qed.

Lemma split_colon_app key value :
  has_colon key = false -> split_colon (key +:+ ":" +:+ value) = Some (key, value).
Proof.
  induction key as [|c key IH]; [done|].
  simpl. intros [Hc Hk]%orb_false_iff. rewrite Hc. by rewrite (IH Hk).
Qed.

Lemma has_line_terminator_app a b :
  has_line_terminator (a +:+ b) = has_line_terminator a || has_line_terminator b.
Proof.
  induction a as [|c a IH]; [done|]. simpl. rewrite IH. by rewrite orb_assoc.
Qed.

Lemma has_line_terminator_trim_start s :
  has_line_terminator s = false -> has_line_terminator (trim_start s) = false.
Proof.
  induction s as [|c s IH]; [done|]. simpl. intros [Hc Hs]%orb_false_iff.
  destruct (is_space c); [by apply IH|]. simpl. by rewrite Hc, Hs.
Qed.

Lemma trim_trim_start s : trim (trim_start s) = trim s.
Proof.
  unfold trim. f_equal.
  induction s as [|c s IH]; [done|]. simpl.
  destruct (is_space c) eqn:Hc; [done|]. simpl. by rewrite Hc.
Qed.

Lemma parseHeaders_app block line :
  has_line_terminator line = false ->
  parseHeaders (block +:+ CRLF +:+ line) =
  match match_header line with
  | Some (key, value) => set_header (toLowerCase key) (JStr (trim value)) (parseHeaders block)
  | None => parseHeaders block
  end.
Proof.
  intros Hl. unfold parseHeaders.
  rewrite split_crlf_app, foldl_app, (split_crlf_line _ Hl). reflexivity.
Qed.

(** X15: one more header line.  When [name] is not empty, not
    [__proto__] in any case, and holds no colon, and neither [name] nor
    [value] holds a line terminator, appending the line [name:value] to a
    header block sets the lower-cased name to the trimmed value and
    leaves the other headers as they were: a header repeated later, in
    whatever case, replaces the earlier one.  A further line without
    colon changes nothing, and neither does a line named [__proto__]. *)
Theorem parseHeaders_one_more_line block name value other :
  name <> "" -> toLowerCase name <> "__proto__" -> has_colon name = false ->
  has_line_terminator name = false -> has_line_terminator value = false ->
  has_colon other = false -> has_line_terminator other = false ->
  parseHeaders (block +:+ CRLF +:+ name +:+ ":" +:+ value)
  = <[toLowerCase name := JStr (trim value)]> (parseHeaders block)
  /\ parseHeaders (name +:+ ":" +:+ value) = {[ toLowerCase name := JStr (trim value) ]}
  /\ parseHeaders (block +:+ CRLF +:+ other) = parseHeaders block
  /\ parseHeaders (block +:+ CRLF +:+ "__proto__:" +:+ value) = parseHeaders block.
Proof.
  intros Hne Hproto Hcolon Hn Hv Hoc Hol.
  apply String.eqb_neq in Hproto.
  assert (match_header (name +:+ ":" +:+ value) = Some (name, trim_start value)) as Hm.
  { unfold match_header. rewrite (split_colon_app _ _ Hcolon).
    apply String.eqb_neq in Hne. rewrite Hne. simpl.
    by rewrite (has_line_terminator_trim_start _ Hv). }
  assert (has_line_terminator (name +:+ ":" +:+ value) = false) as Hline.
  { rewrite !has_line_terminator_app, Hn, Hv. reflexivity. }
  split; [|split; [|split]].
  - rewrite parseHeaders_app by done. rewrite Hm, trim_trim_start.
    unfold set_header. by rewrite Hproto.
  - unfold parseHeaders. rewrite (split_crlf_line _ Hline). simpl.
    rewrite Hm, trim_trim_start. unfold set_header. by rewrite Hproto.
  - rewrite parseHeaders_app by done.
    assert (split_colon other = None) as Hsc.
    { clear -Hoc. induction other as [|c o IH]; [done|].
      simpl in *. apply orb_false_iff in Hoc as [Hc Ho]. rewrite Hc.
      by rewrite (IH Ho). }
    unfold match_header. by rewrite Hsc.
  - assert (has_line_terminator ("__proto__:" +:+ value) = false) as Hpl.
    { by rewrite has_line_terminator_app, Hv. }
    rewrite parseHeaders_app by done.
    assert (match_header ("__proto__:" +:+ value) = Some ("__proto__", trim_start value))
      as ->.
    { unfold match_header.
      change ("__proto__:" +:+ value) with ("__proto__" +:+ ":" +:+ value).
      rewrite (split_colon_app "__proto__" value) by reflexivity. simpl.
      by rewrite (has_line_terminator_trim_start _ Hv). }
    reflexivity.
Qed.

Lemma parseHeaders_one_more_line_witness :
  parseHeaders ("From: ana@example.com" +:+ CRLF +:+ "FROM" +:+ ":" +:+ "  eva@example.com ")
  = <[toLowerCase "FROM" := JStr (trim "  eva@example.com ")]>
      (parseHeaders "From: ana@example.com")
  /\ parseHeaders ("FROM" +:+ ":" +:+ "  eva@example.com ")
     = {[ toLowerCase "FROM" := JStr (trim "  eva@example.com ") ]}
  /\ parseHeaders ("From: ana@example.com" +:+ CRLF +:+ " folded text")
     = parseHeaders "From: ana@example.com"
  /\ parseHeaders ("From: ana@example.com" +:+ CRLF +:+ "__proto__:" +:+ "  eva@example.com ")
     = parseHeaders "From: ana@example.com".
Proof.
  apply (parseHeaders_one_more_line "From: ana@example.com" "FROM"
           "  eva@example.com " " folded text"); done.
Defined.





(** X17: what [validateEmailRecord] can still reject after [fetchEmail].
    On a sound runtime the record [fetchEmail] builds has the text of
    the [id] attribute as identifier and strings as sender and
    recipients, and [validateEmailRecord] returns it unchanged unless the
    identifier, the sender or the recipients are empty: the thread, the
    subject, the body, the labels and the two dates of a fetched record
    never fail the validation, and none of its defaults applies. *)
Theorem fetched_record_validation host uid t r :
  sound_runtime host ->
  fetch_result host uid t = Ok r ->
  exists from to,
    prop r "id" = JStr (message_id host uid)
    /\ prop r "from_address" = JStr from /\ prop r "to_address" = JStr to
    /\ validateEmailRecord host r =
       if message_id host uid =? "" then Throw "id must be a non-empty string"
       else if from =? "" then Throw "from_address is required"
       else if to =? "" then Throw "to_address is required"
       else Ok r.
Proof.
  intros Hsound Hfetch.
  pose proof (fetch_result_shape host uid t r Hfetch) as (Hrid & Hm & _).
  destruct (message_id host uid =? "") eqn:Hid.
  - unfold mandatory_fields in Hm.
    repeat (apply Forall_cons in Hm as [? Hm]).
    destruct (is_string_inv (prop r "from_address")) as [from Hfrom]; [done|].
    destruct (is_string_inv (prop r "to_address")) as [to Hto]; [done|].
    exists from, to. split; [done|]. split; [done|]. split; [done|].
    apply String.eqb_eq in Hid. unfold validateEmailRecord.
    by rewrite Hrid, Hid.
  - apply String.eqb_neq in Hid.
    destruct (validate_fetched host uid t r Hsound Hfetch Hid)
      as (from & to & Hfrom & Hto & Hv).
    exists from, to. done.
Qed.

Lemma fetched_record_validation_witness :
  exists from to,
    prop (default ∅ (match fetch_result mixed_host 1 0 with Ok r => Some r | _ => None end))
         "id" = JStr (message_id mixed_host 1)
    /\ prop (default ∅ (match fetch_result mixed_host 1 0 with Ok r => Some r | _ => None end))
            "from_address" = JStr from
    /\ prop (default ∅ (match fetch_result mixed_host 1 0 with Ok r => Some r | _ => None end))
            "to_address" = JStr to
    /\ validateEmailRecord mixed_host
         (default ∅ (match fetch_result mixed_host 1 0 with Ok r => Some r | _ => None end)) =
       if message_id mixed_host 1 =? "" then Throw "id must be a non-empty string"
       else if from =? "" then Throw "from_address is required"
       else if to =? "" then Throw "to_address is required"
       else Ok (default ∅ (match fetch_result mixed_host 1 0 with Ok r => Some r | _ => None end)).
Proof.
  apply (fetched_record_validation mixed_host 1 0).
  - split; [|split].
    + intros labels. simpl. unfold sample_parse_is_array, sample_stringify. simpl.
      split; [discriminate|]. by destruct (join_comma labels +:+ "]").
    + intros n. simpl. discriminate.
    + intros text p d. simpl. unfold strict_parser.
      destruct (String.prefix "From: " text); [|discriminate].
      intros [= <-] [= <-]. discriminate.
  - reflexivity.
Defined.

(** What one turn of the loop does with a valid envelope. *)
Lemma processEmail_delivered host path uid e w rows :
  sound_runtime host -> current_layout (w_db w) rows ->
  delivers host uid e -> valid_envelope e ->
  exists b w' rec,
    processEmail host path uid w = (Ok b, w')
    /\ validated host uid (w_time w) = Ok rec
    /\ prop rec "id" = JStr (env_id e)
    /\ holds_envelope host e (message_row rec)
    /\ (rows_with_id (env_id e) rows = [] ->
        current_layout (w_db w') (rows ++ [message_row rec]))
    /\ (rows_with_id (env_id e) rows <> [] ->
        b = false /\ w_db w' = w_db w /\ w_fs w' = w_fs w).
Proof.
  intros Hsound Hcur Hd Hv.
  destruct (delivered_validated host uid e (w_time w) Hsound Hd Hv)
    as (rec & Hval & Hid & Hholds).
  destruct (processEmail_cases host path uid w) as (b & w' & Hp & _ & Hc).
  rewrite Hval in Hc.
  exists b, w', rec. split; [done|]. split; [done|]. split; [done|]. split; [done|].
  destruct (validated_reported _ _ _ _ Hval) as (_ & _ & Hm).
  split.
  - intros Hfresh.
    destruct (storeEmail_first (w_db w) rows rec _ Hcur Hm Hid Hfresh)
      as (db1 & Hst & Hcur1).
    rewrite Hst in Hc. simpl in Hc. destruct Hc as [Hdb _]. by rewrite Hdb.
  - intros Hdup.
    rewrite (storeEmail_duplicate _ _ _ _ Hcur Hid Hdup) in Hc. simpl in Hc.
    by destruct Hc as (Hdb & -> & Hfs).
Qed.

(** X18: the identifier of a stored message is the text of the [id]
    attribute the server sends, not the uid the message is fetched by.
    Of two valid messages for which the server sends the same [id]
    attribute, or none, so that both bear the identifier [undefined],
    [processEmail] stores the first and skips the second as a duplicate:
    it returns [false], and neither the store nor the state file
    changes. *)
Theorem same_identifier_stored_once host path uid1 uid2 e1 e2 w rows :
  sound_runtime host -> current_layout (w_db w) rows ->
  delivers host uid1 e1 -> valid_envelope e1 ->
  delivers host uid2 e2 -> valid_envelope e2 ->
  env_id e2 = env_id e1 ->
  rows_with_id (env_id e1) rows = [] ->
  exists b w1 w2 row,
    processEmail host path uid1 w = (Ok b, w1)
    /\ current_layout (w_db w1) (rows ++ [row])
    /\ holds_envelope host e1 row
    /\ processEmail host path uid2 w1 = (Ok false, w2)
    /\ w_db w2 = w_db w1 /\ w_fs w2 = w_fs w1
    /\ (forall d attrs, imap_fetch host uid1 = Ok d -> ed_attrs d = Some attrs ->
                        attr_id attrs = JUndefined -> env_id e1 = "undefined").
Proof.
  intros Hsound Hcur Hd1 Hv1 Hd2 Hv2 Hsame Hfresh.
  destruct (processEmail_delivered host path uid1 e1 w rows Hsound Hcur Hd1 Hv1)
    as (b & w1 & rec1 & Hp1 & _ & Hid1 & Hholds & Hnew & _).
  specialize (Hnew Hfresh).
  destruct (processEmail_delivered host path uid2 e2 w1 _ Hsound Hnew Hd2 Hv2)
    as (b2 & w2 & rec2 & Hp2 & _ & _ & _ & _ & Hdup).
  destruct Hdup as (-> & Hdb & Hfs).
  { rewrite Hsame, (rows_with_id_message _ _ _ Hid1 Hfresh). done. }
  exists b, w1, w2, (message_row rec1).
  repeat (split; [done|]).
  intros d attrs Hf Ha Hu.
  destruct Hd1 as (h & bd & attrs' & p & Hf' & Hi & _).
  rewrite Hf in Hf'. injection Hf' as ->. simpl in Ha. injection Ha as ->.
  by rewrite <- Hi, Hu.
Qed.

Lemma same_identifier_stored_once_witness :
  exists b w1 w2 row,
    processEmail unnumbered_host "data/current_state.json" 1 unnumbered_started = (Ok b, w1)
    /\ current_layout (w_db w1) ([] ++ [row])
    /\ holds_envelope unnumbered_host ana_envelope row
    /\ processEmail unnumbered_host "data/current_state.json" 3 w1 = (Ok false, w2)
    /\ w_db w2 = w_db w1 /\ w_fs w2 = w_fs w1
    /\ (forall d attrs, imap_fetch unnumbered_host 1 = Ok d -> ed_attrs d = Some attrs ->
                        attr_id attrs = JUndefined -> env_id ana_envelope = "undefined").
Proof.
  apply (same_identifier_stored_once unnumbered_host "data/current_state.json" 1 3
           ana_envelope eva_envelope unnumbered_started []).
  - split; [|split].
    + intros labels. simpl. unfold sample_parse_is_array, sample_stringify. simpl.
      split; [discriminate|]. by destruct (join_comma labels +:+ "]").
    + intros n. simpl. discriminate.
    + intros text p d. simpl. unfold sender_parser.
      destruct (String.prefix "From: ana" text); [intros [= <-] [= <-]; discriminate|].
      destruct (String.prefix "From: eva" text); [intros [= <-] [= <-]; discriminate|].
      discriminate.
  - split; vm_compute; reflexivity.
  - do 4 eexists. split; [reflexivity|]. split; [reflexivity|].
    split; [left; split; reflexivity|]. split; [left; reflexivity|].
    repeat (split; [reflexivity|]). reflexivity.
  - unfold valid_envelope. simpl. repeat (split; [discriminate|]).
    intros cc H. discriminate.
  - do 4 eexists. split; [reflexivity|]. split; [reflexivity|].
    split; [left; split; reflexivity|]. split; [left; reflexivity|].
    repeat (split; [reflexivity|]). reflexivity.
  - unfold valid_envelope. simpl. repeat (split; [discriminate|]).
    intros cc H. discriminate.
  - reflexivity.
  - reflexivity.
Defined.

(** X19: the life of a client.  [startIDLE] before [connect] throws.
    When the server accepts the connection and the INBOX opens,
    [connect] returns and the client is ready; [startIDLE] then
    registers the [mail] listener; [disconnect] makes the client not
    ready, after which [startIDLE] throws again.  None of this touches
    the database or the files. *)
Theorem client_lifecycle host l w c n :
  w_client w = Some c -> isConnected c = false ->
  imap_connect host = ConnectReady (Ok n) ->
  startIDLE w = (Throw "Cannot start IDLE: not connected", w)
  /\ exists w1 w2 w3 c1 c2 c3,
       connect host l w = (Ok tt, w1)
       /\ w_client w1 = Some c1 /\ isReady c1 = true
       /\ startIDLE w1 = (Ok tt, w2)
       /\ w_client w2 = Some c2 /\ isReady c2 = true /\ on_mail_registered c2 = true
       /\ disconnect w2 = (Ok tt, w3)
       /\ w_client w3 = Some c3 /\ isReady c3 = false
       /\ startIDLE w3 = (Throw "Cannot start IDLE: not connected", w3)
       /\ w_db w3 = w_db w /\ w_fs w3 = w_fs w.
Proof.
  intros Hc Hdown Hready. split.
  { unfold startIDLE. rewrite Hc, Hdown. by rewrite orb_true_r. }
  destruct w as [db fs lg tm cl sd ex]. simpl in Hc. subst cl.
  unfold connect, startIDLE, disconnect, bind, update_client, log, openInbox.
  rewrite Hready. simpl.
  do 6 eexists. repeat (split; [reflexivity|]). done.
Qed.

Lemma client_lifecycle_witness :
  startIDLE client_created = (Throw "Cannot start IDLE: not connected", client_created)
  /\ exists w1 w2 w3 c1 c2 c3,
       connect mailbox_host (setupEventHandlers mailbox_host sample_config)
         client_created = (Ok tt, w1)
       /\ w_client w1 = Some c1 /\ isReady c1 = true
       /\ startIDLE w1 = (Ok tt, w2)
       /\ w_client w2 = Some c2 /\ isReady c2 = true /\ on_mail_registered c2 = true
       /\ disconnect w2 = (Ok tt, w3)
       /\ w_client w3 = Some c3 /\ isReady c3 = false
       /\ startIDLE w3 = (Throw "Cannot start IDLE: not connected", w3)
       /\ w_db w3 = w_db client_created /\ w_fs w3 = w_fs client_created.
Proof.
  apply (client_lifecycle mailbox_host (setupEventHandlers mailbox_host sample_config)
           client_created new_ImapClient 3%nat); reflexivity.
Defined.



Lemma initDatabase_no_database : initDatabase no_database = (Ok tt, empty_store).
Proof. by vm_compute. Qed.

Lemma empty_store_current : current_layout empty_store [].
Proof. split; by vm_compute. Qed.

Lemma initState_fresh path :
  initState path ∅
  = (Ok INITIAL_STATE, <[path := FJson INITIAL_STATE]> (delete (tempPath path) ∅)).
Proof.
  unfold initState, try_catch. rewrite lookup_empty. unfold bind.
  rewrite writeStateAtomic_result. by rewrite json_roundtrip_INITIAL.
Qed.

(** X21: the start-up on a fresh machine.  [initialize] never throws.
    It creates the store in the current layout with no row and the state
    file with the initial state.  When the server accepts the connection
    and the INBOX opens, the process keeps running with a client that is
    ready and listens for [mail].  When the connection is refused or the
    INBOX cannot be opened, the process shuts down with exit code 1: the
    client is marked not connected and the database handle is closed,
    while the store and the state file it created stay. *)
Theorem initialize_on_fresh_machine host config :
  exists w,
    initialize host config fresh_world = (Ok tt, w)
    /\ db_tables (w_db w) !! "emails" = Some (Table current_columns [])
    /\ w_fs w !! config_state_path config = Some (FJson INITIAL_STATE)
    /\ match imap_connect host with
       | ConnectReady (Ok _) =>
           w_exit w = None /\ w_shutting_down w = false
           /\ db_open (w_db w) = true
           /\ exists c, w_client w = Some c /\ isReady c = true
                        /\ on_mail_registered c = true
       | _ =>
           w_exit w = Some 1%Z /\ w_shutting_down w = true
           /\ db_open (w_db w) = false
           /\ exists c, w_client w = Some c /\ isConnected c = false
       end.
Proof.
  unfold initialize, try_catch. unfold bind at 1. unfold log at 1.
  unfold bind at 1. unfold on_db at 1. unfold fresh_world at 1. cbn [w_db].
  change (mkDatabase false ∅ ∅ None) with no_database.
  rewrite initDatabase_no_database.
  unfold fresh_world.
  cbn [w_fs w_db w_log w_time w_client w_shutting_down w_exit].
  unfold bind at 1. unfold log at 1.
  unfold bind at 1. unfold on_fs at 1. cbn [w_fs]. rewrite initState_fresh.
  cbn [w_fs w_db w_log w_time w_client w_shutting_down w_exit].
  set (fs := <[config_state_path config := FJson INITIAL_STATE]> _).
  assert (fs !! config_state_path config = Some (FJson INITIAL_STATE)) as Hfs
    by (unfold fs; by rewrite lookup_insert_eq).
  clearbody fs.
  destruct empty_store_current as [Hopen Ht].
  assert (db_txn empty_store = None) as Htxn by (by vm_compute).
  set (db := empty_store) in *. clearbody db.
  destruct db as [o ts ix txn]. cbn [db_open db_tables db_txn] in Hopen, Ht, Htxn.
  subst o txn.
  unfold bind, log, set_client, connect, update_client, openInbox, client_on_error,
    setupEventHandlers, error_handler, startIDLE, gracefulShutdown, disconnect,
    on_db, closeDatabase, throw.
  destruct (imap_connect host) as [[n|e]|msg];
    cbn -[current_columns INITIAL_STATE];
    (eexists; split; [reflexivity|]);
    cbn -[current_columns INITIAL_STATE];
    (split; [done|]); (split; [done|]);
    repeat (split; [reflexivity|]); by eexists.
Qed.

(** X22: [gracefulShutdown] runs once.  The first call marks the
    process as shutting down, marks the client not connected, closes the
    database handle, records its exit code and leaves the files as they
    are; any later call, with whatever code, returns at once and changes
    nothing, so the first code stays; and a [mail] event that arrives
    afterwards is ignored. *)
Theorem gracefulShutdown_once host config code code' n w :
  w_shutting_down w = false ->
  exists w',
    gracefulShutdown code w = (Ok tt, w')
    /\ w_shutting_down w' = true
    /\ w_exit w' = Some code
    /\ w_fs w' = w_fs w
    /\ db_open (w_db w') = false
    /\ (forall c, w_client w' = Some c -> has_imap c = true -> isConnected c = false)
    /\ gracefulShutdown code' w' = (Ok tt, w')
    /\ mail_handler host config n w' = (Ok tt, w')
    /\ dispatch host config (EvMail n) w' = (Ok tt, w').
Proof.
  intros Hsd. destruct w as [db fs lg tm cl sd ex]. simpl in Hsd. subst sd.
  destruct db as [o ts ix txn].
  unfold gracefulShutdown at 1. cbn [w_shutting_down].
  unfold bind, log, disconnect, update_client, on_db, closeDatabase.
  cbn [w_fs w_db w_log w_time w_client w_shutting_down w_exit].
  destruct cl as [[hi ic ir oe oen om]|]; [destruct hi|]; destruct o;
    try destruct txn as [[ts' ix']|];
    cbn;
    (eexists; split; [reflexivity|]; cbn;
     split; [reflexivity|]; split; [reflexivity|]; split; [reflexivity|];
     split; [reflexivity|]; split; [|split; [reflexivity|split; reflexivity]]).
  all: try (intros c' [= <-] ?; done).
  all: try (intros c' [=]).
Qed.

Lemma gracefulShutdown_once_witness :
  exists w',
    gracefulShutdown 0 mailbox_started = (Ok tt, w')
    /\ w_shutting_down w' = true
    /\ w_exit w' = Some 0%Z
    /\ w_fs w' = w_fs mailbox_started
    /\ db_open (w_db w') = false
    /\ (forall c, w_client w' = Some c -> has_imap c = true -> isConnected c = false)
    /\ gracefulShutdown 1 w' = (Ok tt, w')
    /\ mail_handler mailbox_host sample_config 1 w' = (Ok tt, w')
    /\ dispatch mailbox_host sample_config (EvMail 1) w' = (Ok tt, w').
Proof.
  apply (gracefulShutdown_once mailbox_host sample_config 0 1 1 mailbox_started).
  reflexivity.
Defined.

(** X23: the loop over a batch never aborts, whatever the messages.  On
    a sound runtime, when the server reports a different identifier for
    each message of the batch it can send and the store holds none of
    them: every valid message of the batch, one that the mailbox
    delivers with no empty field, has exactly one row at the end, and
    the row holds the message; a malformed message, one that mailparser
    cannot read, has no row; every row added bears the identifier of a
    message of the batch that the server sent, and no more rows are
    added than messages were sent; the rows the store had are kept. *)
Theorem batch_stores_valid_messages host path uids : forall w rows,
  sound_runtime host ->
  current_layout (w_db w) rows ->
  NoDup (reported_ids host uids) ->
  (forall id, id ∈ reported_ids host uids -> rows_with_id id rows = []) ->
  exists w' added,
    process_each host path uids w = (Ok tt, w')
    /\ current_layout (w_db w') (rows ++ added)
    /\ (forall uid e, uid ∈ uids -> delivers host uid e -> valid_envelope e ->
          exists row, rows_with_id (env_id e) (rows ++ added) = [row]
                      /\ holds_envelope host e row)
    /\ (forall uid id, uid ∈ uids -> unreadable host uid ->
          reported_id host uid = Some id -> rows_with_id id (rows ++ added) = [])
    /\ (forall row, row ∈ added ->
          exists uid id, uid ∈ uids /\ reported_id host uid = Some id
                         /\ row !! 0%nat = Some (VText id))
    /\ (length added <= length (reported_ids host uids))%nat.
Proof.
  induction uids as [|uid uids IH]; intros w rows Hsound Hcur Hnd Hfresh.
  { exists w, []. rewrite app_nil_r. split; [done|]. split; [done|].
    split; [intros ? ? H; by apply not_elem_of_nil in H|].
    split; [intros ? ? H; by apply not_elem_of_nil in H|].
    split; [intros ? H; by apply not_elem_of_nil in H|]. simpl. lia. }
  destruct (processEmail_step host path uid w rows Hcur)
    as (b & w1 & added1 & Hp & Hcur1 & Hstep).
  rewrite reported_ids_cons in Hnd, Hfresh.
  (* the identifiers of the rest are distinct and none is in the store *)
  assert (NoDup (reported_ids host uids)
          /\ (forall id, id ∈ reported_ids host uids -> rows_with_id id (rows ++ added1) = [])
          /\ (forall id, reported_id host uid = Some id ->
                (id ∉ reported_ids host uids) /\ rows_with_id id rows = [])
          /\ (forall row, row ∈ added1 ->
                exists id, reported_id host uid = Some id
                           /\ row !! 0%nat = Some (VText id))
          /\ (length added1 <= length (reported_ids host [uid]))%nat)
    as (Hnd' & Hfresh' & Hhead & Hadded1 & Hlen1).
  { rewrite reported_ids_cons. change (reported_ids host []) with (@nil string).
    destruct (validated host uid (w_time w)) as [rec|e] eqn:Hv.
    - destruct (validated_reported _ _ _ _ Hv) as (Hrep & Hid & _).
      rewrite Hrep in Hnd, Hfresh. rewrite Hrep. apply NoDup_cons in Hnd as [Hnotin Hnd].
      assert (rows_with_id (message_id host uid) rows = []) as Hr
        by (apply Hfresh, list_elem_of_here).
      destruct Hstep as [[_ ->]|[Hne _]]; [|done].
      split; [done|]. split; [|split; [|split]].
      + intros id Hin. rewrite rows_with_id_append, (Hfresh id) by (by apply list_elem_of_further).
        unfold rows_with_id. rewrite filter_cons_False; [done|].
        rewrite (message_row_id _ _ Hid). intros [= <-]. done.
      + intros id [= <-]. done.
      + intros row ->%list_elem_of_singleton. eexists. split; [done|].
        by apply message_row_id.
      + simpl. lia.
    - subst added1. rewrite app_nil_r.
      destruct (reported_id host uid) as [id0|] eqn:Hrep.
      + apply NoDup_cons in Hnd as [Hnotin Hnd].
        split; [done|]. split; [intros id Hin; by apply Hfresh, list_elem_of_further|].
        split; [intros id [= <-]; split; [done|apply Hfresh, list_elem_of_here]|].
        split; [intros row H; by apply not_elem_of_nil in H|]. simpl. lia.
      + split; [done|]. split; [done|]. split; [done|].
        split; [intros row H; by apply not_elem_of_nil in H|]. simpl. lia. }
  destruct (IH w1 _ Hsound Hcur1 Hnd' Hfresh')
    as (w' & added2 & Hrest & Hcur' & Hvalid & Hbad & Hadded2 & Hlen2).
  (* no row of the rest bears the identifier of the first message *)
  assert (forall id, reported_id host uid = Some id -> rows_with_id id added2 = [])
    as Hnone2.
  { intros id Hrep. destruct (Hhead id Hrep) as [Hnotin _].
    apply rows_with_id_nil. intros row Hrow Heq.
    destruct (Hadded2 row Hrow) as (uid' & id' & Hu' & Hrep' & Hid').
    rewrite Hid' in Heq. injection Heq as ->.
    apply Hnotin. by eapply reported_ids_elem. }
  exists w', (added1 ++ added2). rewrite app_assoc.
  split; [by rewrite (process_each_cons _ _ _ _ _ _ _ Hp)|].
  split; [done|]. split; [|split; [|split]].
  - intros uid' e [->|Hu]%elem_of_cons Hd Hv; [|by eapply Hvalid].
    destruct (delivered_validated host uid e (w_time w) Hsound Hd Hv)
      as (rec & Hval & Hid & Hholds).
    destruct (delivers_reported host uid e Hd) as [Hrep Hmid].
    rewrite Hval, Hmid in Hstep.
    destruct (Hhead _ Hrep) as [_ Hr].
    destruct Hstep as [[_ ->]|[Hne _]]; [|done].
    exists (message_row rec). split; [|done].
    rewrite rows_with_id_append, (Hnone2 _ Hrep), app_nil_r.
    by apply rows_with_id_message.
  - intros uid' id [->|Hu]%elem_of_cons Hun Hrep; [|by eapply Hbad].
    destruct (unreadable_not_validated host uid (w_time w) Hun) as [e He].
    rewrite He in Hstep. subst added1. rewrite app_nil_r.
    destruct (Hhead _ Hrep) as [_ Hr].
    by rewrite rows_with_id_append, Hr, (Hnone2 _ Hrep).
  - intros row [Hrow|Hrow]%elem_of_app.
    + destruct (Hadded1 row Hrow) as (id & Hrep & Hid).
      exists uid, id. split; [apply list_elem_of_here|done].
    + destruct (Hadded2 row Hrow) as (uid' & id & Hu & Hrep & Hid).
      exists uid', id. split; [by apply list_elem_of_further|done].
  - rewrite length_app. rewrite reported_ids_cons in Hlen1 |- *.
    change (reported_ids host []) with (@nil string) in Hlen1.
    destruct (reported_id host uid); simpl in *; lia.
Qed.

Lemma batch_stores_valid_messages_witness :
  exists w' added,
    process_each mixed_host "data/current_state.json" [1; 2; 3]%Z mixed_started
    = (Ok tt, w')
    /\ current_layout (w_db w') ([] ++ added)
    /\ (forall uid e, uid ∈ [1; 2; 3]%Z -> delivers mixed_host uid e ->
          valid_envelope e ->
          exists row, rows_with_id (env_id e) ([] ++ added) = [row]
                      /\ holds_envelope mixed_host e row)
    /\ (forall uid id, uid ∈ [1; 2; 3]%Z -> unreadable mixed_host uid ->
          reported_id mixed_host uid = Some id ->
          rows_with_id id ([] ++ added) = [])
    /\ (forall row, row ∈ added ->
          exists uid id, uid ∈ [1; 2; 3]%Z /\ reported_id mixed_host uid = Some id
                         /\ row !! 0%nat = Some (VText id))
    /\ (length added <= length (reported_ids mixed_host [1; 2; 3]%Z))%nat.
Proof.
  apply (batch_stores_valid_messages mixed_host "data/current_state.json"
           [1; 2; 3]%Z mixed_started []).
  - split; [|split].
    + intros labels. simpl. unfold sample_parse_is_array, sample_stringify. simpl.
      split; [discriminate|]. by destruct (join_comma labels +:+ "]").
    + intros n. simpl. discriminate.
    + intros text p d. simpl. unfold strict_parser.
      destruct (String.prefix "From: " text); [|discriminate].
      intros [= <-] [= <-]. discriminate.
  - split; vm_compute; reflexivity.
  - apply (bool_decide_unpack (NoDup _)). vm_compute. exact I.
  - intros id _. reflexivity.
Defined.

(** In the mixed mailbox message 1 is delivered as a valid envelope and
    message 2 is unreadable; the batch leaves the rows of 1 and 3. *)
Example mixed_mailbox_messages :
  delivers mixed_host 1 sample_envelope /\ valid_envelope sample_envelope
  /\ unreadable mixed_host 2
  /\ reported_ids mixed_host [1; 2; 3]%Z = ["101"; "102"; "103"]
  /\ map (fun r => r !! 0%nat)
         (emails_rows (w_db (process_each mixed_host "data/current_state.json"
                               [1; 2; 3]%Z mixed_started).2))
     = [Some (VText "101"); Some (VText "103")].
Proof.
  split; [|split; [|split; [|split]]].
  - do 4 eexists. split; [reflexivity|]. split; [reflexivity|].
    split; [left; split; reflexivity|]. split; [left; reflexivity|].
    split; [reflexivity|]. repeat (split; [reflexivity|]). reflexivity.
  - unfold valid_envelope. simpl. repeat (split; [discriminate|]). intros cc H. discriminate.
  - do 4 eexists. split; reflexivity.
  - vm_compute. reflexivity.
  - vm_compute. reflexivity.
Qed.

Lemma field_missing_plain payload k :
  payload !! "hasOwnProperty" = None ->
  field_missing payload k = Ok (is_missing payload k).
Proof. intros H. unfold field_missing, call_hasOwnProperty. by rewrite H. Qed.

Lemma filter_result_plain {A} (test : A -> result bool) (f : A -> bool) l :
  (forall x, test x = Ok (f x)) ->
  filter_result test l = Ok (List.filter f l).
Proof.
  intros H. induction l as [|x l IH]; [done|].
  simpl. rewrite H, IH. by destruct (f x).
Qed.

Lemma filled_iff payload k :
  filled payload k <-> is_missing payload k = false /\ is_string (prop payload k) = true.
Proof.
  unfold filled, is_missing, hasOwnProperty, prop.
  destruct (payload !! k) as [[]|]; simpl; try (split; [done|by intros [? ?]]).
  split.
  - intros H. split; [|done]. by apply String.eqb_neq.
  - intros [H _]. by apply String.eqb_neq.
Qed.

Lemma filter_nil_Forall {A} (f : A -> bool) l :
  List.filter f l = [] <-> Forall (fun x => f x = false) l.
Proof.
  induction l as [|x l IH]; simpl.
  - split; [by constructor|done].
  - destruct (f x) eqn:Hx.
    + split; [done|]. intros [H _]%Forall_cons. congruence.
    + rewrite IH. split; [by constructor|by intros [_ ?]%Forall_cons].
Qed.

Lemma find_none_Forall {A} (f : A -> bool) l :
  find f l = None <-> Forall (fun x => f x = false) l.
Proof.
  induction l as [|x l IH]; simpl.
  - split; [by constructor|done].
  - destruct (f x) eqn:Hx.
    + split; [done|]. intros [H _]%Forall_cons. congruence.
    + rewrite IH. split; [by constructor|by intros [_ ?]%Forall_cons].
Qed.

(** X24: what [validatePayload] accepts.  For a payload with no member
    called [hasOwnProperty], it never throws; it answers valid exactly
    when each of the seven required fields is a string that is not
    blank, and otherwise invalid with the code [VALIDATION_ERROR], the
    message listing the missing fields in the order of the constant when
    there are any. *)
Theorem validatePayload_decides payload :
  payload !! "hasOwnProperty" = None ->
  (validatePayload payload = Ok Valid <-> Forall (filled payload) REQUIRED_FIELDS)
  /\ (exists v, validatePayload payload = Ok v
                /\ match v with
                   | Valid => True
                   | Invalid msg code =>
                       code = "VALIDATION_ERROR"
                       /\ (List.filter (is_missing payload) REQUIRED_FIELDS <> [] ->
                           msg = "Missing required fields: "
                                 +:+ join_comma (List.filter (is_missing payload)
                                                   REQUIRED_FIELDS))
                   end).
Proof.
  intros Hown.
  assert (validatePayload payload =
          Ok match List.filter (is_missing payload) REQUIRED_FIELDS with
             | _ :: _ =>
                 Invalid ("Missing required fields: "
                          +:+ join_comma (List.filter (is_missing payload) REQUIRED_FIELDS))
                         "VALIDATION_ERROR"
             | [] =>
                 match find (fun field => negb (is_string (prop payload field)))
                            REQUIRED_FIELDS with
                 | Some field =>
                     Invalid ("Field '" +:+ field +:+ "' must be a string, got "
                              +:+ typeof (prop payload field))
                             "VALIDATION_ERROR"
                 | None => Valid
                 end
             end) as Heq.
  { unfold validatePayload.
    by rewrite (filter_result_plain _ (is_missing payload))
      by (intros; by apply field_missing_plain). }
  split.
  - rewrite Heq. split.
    + intros H.
      destruct (List.filter (is_missing payload) REQUIRED_FIELDS) eqn:Hf; [|done].
      destruct (find _ REQUIRED_FIELDS) eqn:Hs; [done|].
      apply filter_nil_Forall in Hf. apply find_none_Forall in Hs.
      apply Forall_forall. intros k Hk. apply filled_iff.
      rewrite Forall_forall in Hf. rewrite Forall_forall in Hs.
      split; [by apply Hf|]. specialize (Hs k Hk). by apply negb_false_iff in Hs.
    + intros H.
      assert (List.filter (is_missing payload) REQUIRED_FIELDS = []) as ->.
      { apply filter_nil_Forall. eapply Forall_impl; [exact H|].
        intros k Hk. by apply filled_iff in Hk as [? _]. }
      assert (find (fun field => negb (is_string (prop payload field))) REQUIRED_FIELDS
              = None) as ->; [|done].
      apply find_none_Forall. eapply Forall_impl; [exact H|].
      intros k Hk. apply filled_iff in Hk as [_ Hk]. by rewrite Hk.
  - eexists. split; [exact Heq|].
    destruct (List.filter (is_missing payload) REQUIRED_FIELDS) eqn:Hf.
    + destruct (find _ REQUIRED_FIELDS); [|done]. split; [done|]. done.
    + split; [done|]. done.
Qed.

Lemma validatePayload_decides_witness :
  (validatePayload sample_message = Ok Valid
   <-> Forall (filled sample_message) REQUIRED_FIELDS)
  /\ (exists v, validatePayload sample_message = Ok v
                /\ match v with
                   | Valid => True
                   | Invalid msg code =>
                       code = "VALIDATION_ERROR"
                       /\ (List.filter (is_missing sample_message) REQUIRED_FIELDS <> [] ->
                           msg = "Missing required fields: "
                                 +:+ join_comma (List.filter (is_missing sample_message)
                                                   REQUIRED_FIELDS))
                   end).
Proof. apply (validatePayload_decides sample_message). reflexivity. Defined.

(** A payload without sender and with a blank subject is refused, and
    the message names both fields. *)
Example validatePayload_names_missing_fields :
  validatePayload (<["subject" := JStr "  "]> (delete "from_address" sample_message))
  = Ok (Invalid "Missing required fields: from_address, subject" "VALIDATION_ERROR").
Proof. vm_compute. reflexivity. Qed.

(** X25: a payload that has a member called [hasOwnProperty] is never
    stored.  The call [payload.hasOwnProperty(field)] of the validation
    finds the member instead of the method and throws; the request,
    however complete its fields, is answered 500 [DATABASE_ERROR] and
    the database is left as it was. *)
Theorem webhook_member_named_hasOwnProperty req payload db :
  carries req payload -> is_Some (payload !! "hasOwnProperty") ->
  handleWebhookPost req db
  = (Ok (mkResponse 500 (formatErrorResponse "Database operation failed"
                           (JStr "DATABASE_ERROR"))), db).
Proof.
  intros ((ct & Hct & Hinc) & Hsize & Hjson) [v Hv].
  unfold handleWebhookPost, try_catch, bind, lift_result, parseRequestBody.
  rewrite Hct, Hinc. cbn [negb].
  destruct (N.ltb_spec MAX_PAYLOAD_SIZE (req_size req)) as [?|_]; [lia|].
  rewrite Hjson.
  unfold validatePayload, REQUIRED_FIELDS. cbn [filter_result].
  unfold field_missing at 1. unfold call_hasOwnProperty. by rewrite Hv.
Qed.

Lemma webhook_member_named_hasOwnProperty_witness :
  handleWebhookPost (post (<["hasOwnProperty" := JBool true]> sample_message)) empty_store
  = (Ok (mkResponse 500 (formatErrorResponse "Database operation failed"
                           (JStr "DATABASE_ERROR"))), empty_store).
Proof.
  apply (webhook_member_named_hasOwnProperty
           (post (<["hasOwnProperty" := JBool true]> sample_message))
           (<["hasOwnProperty" := JBool true]> sample_message) empty_store).
  - split; [exists "application/json"; split; reflexivity|].
    split; [by vm_compute|reflexivity].
  - by eexists.
Defined.

Lemma storeEmail_unchanged_unless_true email db :
  (storeEmail email db).1 <> Ok true -> (storeEmail email db).2 = db.
Proof.
  intros H. pose proof (storeEmail_frame email db) as Hs.
  destruct (storeEmail email db) as [[[|]|e] db']; simpl in *; done.
Qed.

(** Every request is answered, and the answer tells what was written. *)
Lemma handleWebhookPost_outcome req db :
  exists res db',
    handleWebhookPost req db = (Ok res, db')
    /\ (res_status res = 200 \/ res_status res = 400 \/ res_status res = 500)%nat
    /\ match classify res with
       | AcceptedNew =>
           exists payload, req_json req = JsonObject payload
                           /\ validatePayload payload = Ok Valid
                           /\ storeEmail payload db = (Ok true, db')
       | AcceptedDuplicate =>
           db' = db
           /\ exists payload, req_json req = JsonObject payload
                              /\ validatePayload payload = Ok Valid
       | RejectedClient | RejectedServer => db' = db
       | Unclassified => False
       end.
Proof.
  unfold handleWebhookPost, try_catch, bind, lift_result, parseRequestBody, ret.
  destruct (req_content_type req) as [ct|].
  2: { do 2 eexists. split; [reflexivity|]. split; [by right; left|reflexivity]. }
  destruct (includes ct "application/json"); cbn [negb].
  2: { do 2 eexists. split; [reflexivity|]. split; [by right; left|reflexivity]. }
  destruct (MAX_PAYLOAD_SIZE <? req_size req)%N.
  { do 2 eexists. split; [reflexivity|]. split; [by right; left|reflexivity]. }
  destruct (req_json req) as [| |payload].
  1, 2: do 2 eexists; (split; [reflexivity|]); (split; [by right; left|reflexivity]).
  destruct (validatePayload payload) as [[|msg code]|e] eqn:Hv.
  3: { do 2 eexists. split; [reflexivity|]. split; [by right; right|reflexivity]. }
  2: { do 2 eexists. split; [reflexivity|]. split; [by right; left|reflexivity]. }
  pose proof (storeEmail_unchanged_unless_true payload db) as Hs.
  destruct (storeEmail payload db) as [[[|]|e] db'] eqn:Hst; simpl in Hs.
  - do 2 eexists. split; [reflexivity|]. split; [by left|].
    rewrite classify_stored. by exists payload.
  - rewrite Hs by done.
    do 2 eexists. split; [reflexivity|]. split; [by left|].
    rewrite classify_skipped. split; [done|]. by exists payload.
  - rewrite Hs by done. unfold throw.
    destruct (includes e "UNIQUE constraint failed").
    + do 2 eexists. split; [reflexivity|]. split; [by left|].
      rewrite classify_skipped. split; [done|]. by exists payload.
    + do 2 eexists. split; [reflexivity|]. split; [by right; right|reflexivity].
Qed.

(** X26: every request to [handleWebhookPost] is answered, with 200,
    400 or 500, and the answer tells what happened to the database.  It
    is written only for the answer 200 [stored]: the payload was valid,
    [storeEmail] returned [true], and one row was appended to [emails]
    while the indexes stayed as they were.  For 200 [skipped] the
    payload was valid and nothing was written; for every 400 and 500
    nothing was written, so a refused or failed request leaves the
    endpoint as it was for the next one. *)
Theorem handleWebhookPost_answers req db :
  exists res db',
    handleWebhookPost req db = (Ok res, db')
    /\ (res_status res = 200 \/ res_status res = 400 \/ res_status res = 500)%nat
    /\ match classify res with
       | AcceptedNew =>
           exists payload t row,
             req_json req = JsonObject payload
             /\ validatePayload payload = Ok Valid
             /\ storeEmail payload db = (Ok true, db')
             /\ db_tables db !! "emails" = Some t
             /\ db_tables db' = <["emails" := Table (t_cols t) (t_rows t ++ [row])]>
                                  (db_tables db)
             /\ db_indexes db' = db_indexes db
       | AcceptedDuplicate =>
           db' = db
           /\ exists payload, req_json req = JsonObject payload
                              /\ validatePayload payload = Ok Valid
       | RejectedClient | RejectedServer => db' = db
       | Unclassified => False
       end.
Proof.
  destruct (handleWebhookPost_outcome req db) as (res & db' & Hres & Hst & Hcl).
  exists res, db'. split; [done|]. split; [done|].
  destruct (classify res); try done.
  destruct Hcl as (payload & Hjson & Hval & Hstore).
  pose proof (storeEmail_frame payload db) as Hf. rewrite Hstore in Hf.
  destruct Hf as (t & row & Ht & _ & Htab & Hix & _).
  by exists payload, t, row.
Qed.

Lemma handleHealthGet_result start_ms now_ms timestamp db :
  exists body,
    handleHealthGet start_ms now_ms timestamp db = (Ok (mkResponse 200 body), db).
Proof.
  unfold handleHealthGet, sql_count, with_open.
  destruct (db_open db); [destruct (db_tables db !! "emails")|]; by eexists.
Qed.

(** X27: the health check always answers 200, never throws and never
    writes.  It reports [healthy] and [connected] exactly when the store
    can be read, that is, when the handle is open and the table
    [emails] exists, and [degraded] and [disconnected] otherwise; the
    uptime is the number of whole seconds since the start, and the port
    is 8455. *)
Theorem health_reports_store start_ms now_ms timestamp db :
  exists body,
    handleHealthGet start_ms now_ms timestamp db = (Ok (mkResponse 200 body), db)
    /\ prop body "port" = JNum 8455
    /\ prop body "timestamp" = JStr timestamp
    /\ (exists u, prop body "uptime" = JNum u
                  /\ (1000 * u <= now_ms - start_ms < 1000 * u + 1000)%Z)
    /\ (store_reachable db ->
        prop body "status" = JStr "healthy" /\ prop body "database" = JStr "connected")
    /\ (~ store_reachable db ->
        prop body "status" = JStr "degraded"
        /\ prop body "database" = JStr "disconnected").
Proof.
  unfold handleHealthGet, sql_count, with_open, store_reachable.
  assert (1000 * ((now_ms - start_ms) / 1000) <= now_ms - start_ms
          < 1000 * ((now_ms - start_ms) / 1000) + 1000)%Z as Hu.
  { pose proof (Z.mod_pos_bound (now_ms - start_ms) 1000 ltac:(lia)).
    pose proof (Z.div_mod (now_ms - start_ms) 1000 ltac:(lia)). lia. }
  destruct (db_open db); [destruct (db_tables db !! "emails") as [t|]|];
    (eexists; split; [reflexivity|]; split; [reflexivity|]; split; [reflexivity|];
     split; [by eexists|]; split).
  - done.
  - intros H. exfalso. apply H. split; [done|by eexists].
  - by intros [_ [? ?]].
  - done.
  - by intros [? _].
  - done.
Qed.

(** The health check on the empty store, and on the same store once
    the handle is closed. *)
Example health_before_and_after_close :
  prop (res_body (default (mkResponse 0 ∅)
                    (match (handleHealthGet 1000 61500 "2025-11-01T10:01:00.500Z"
                              empty_store).1 with Ok r => Some r | _ => None end)))
       "uptime" = JNum 60
  /\ store_reachable empty_store
  /\ ~ store_reachable (closeDatabase empty_store).2.
Proof.
  split; [by vm_compute|]. split.
  - split; [by vm_compute|]. vm_compute. by eexists.
  - intros [H _]. vm_compute in H. discriminate.
Qed.

(** X28: the router answers every request and never throws.  A path
    other than [/webhook], [/webhook/], [/health] and [/health/], a path
    with a query string included, is answered 404 with the path in the
    message; [/webhook] with a method other than POST and [/health] with
    a method other than GET are answered 405 with the allowed method in
    the [Allow] header; no other request is answered 404 or 405, and no
    other answer has an [Allow] header.  The database is written only by
    a POST to [/webhook] that is answered 200 [stored]. *)
Theorem route_answers start_ms now_ms timestamp req db :
  exists reply db',
    route start_ms now_ms timestamp req db = (Ok reply, db')
    /\ (res_status (reply_response reply) = 404%nat
        <-> ~ webhook_path (http_url req) /\ ~ health_path (http_url req))
    /\ (res_status (reply_response reply) = 405%nat
        <-> webhook_path (http_url req) /\ http_method req <> "POST"
            \/ health_path (http_url req) /\ http_method req <> "GET")
    /\ (res_status (reply_response reply) = 404%nat ->
        prop (res_body (reply_response reply)) "message"
        = JStr ("Endpoint not found: " +:+ http_url req))
    /\ reply_allow reply
       = (if bool_decide (res_status (reply_response reply) = 405%nat)
          then Some (if bool_decide (webhook_path (http_url req)) then "POST" else "GET")
          else None)
    /\ (db' <> db ->
        webhook_path (http_url req) /\ http_method req = "POST"
        /\ classify (reply_response reply) = AcceptedNew).
Proof.
  unfold route, try_catch, bind, ret, webhook_path, health_path.
  destruct (String.eqb_spec (http_url req) "/webhook") as [Hw|Hw];
    [|destruct (String.eqb_spec (http_url req) "/webhook/") as [Hw'|Hw']];
    cbn [orb].
  1, 2: destruct (String.eqb_spec (http_method req) "POST") as [Hm|Hm].
  1, 3: destruct (handleWebhookPost_outcome (http_request req) db)
          as (res & db' & Hres & Hst & Hcl); rewrite Hres; cbn;
        exists (mkReply res None), db'; cbn;
        (split; [reflexivity|]);
        (split; [split; [intros H; destruct Hst as [?|[?|?]]; congruence
                        |intros [H _]; exfalso; apply H; by (left + right)]|]);
        (split; [split; [intros H; destruct Hst as [?|[?|?]]; congruence
                        |intros [[_ H]|[[H|H] _]]; [done|rewrite H in *; discriminate..]]|]);
        (split; [intros H; destruct Hst as [?|[?|?]]; congruence|]);
        (split; [rewrite bool_decide_eq_false_2;
                   [done|destruct Hst as [?|[?|?]]; congruence]|]);
        intros Hne; (split; [by (left + right)|]); (split; [done|]);
        destruct (classify res); try done; by destruct Hcl.
  1, 2: do 2 eexists; (split; [reflexivity|]); cbn;
        (split; [split; [discriminate|intros [H _]; exfalso; apply H; by (left + right)]|]);
        (split; [split; [intros _; left; split; [by (left + right)|done]|done]|]);
        (split; [discriminate|]);
        (split; [rewrite bool_decide_eq_true_2 by done;
                 rewrite bool_decide_eq_true_2 by (by (left + right)); done|]);
        done.
  destruct (String.eqb_spec (http_url req) "/health") as [Hh|Hh];
    [|destruct (String.eqb_spec (http_url req) "/health/") as [Hh'|Hh']];
    cbn [orb].
  1, 2: destruct (String.eqb_spec (http_method req) "GET") as [Hm|Hm].
  1, 3: destruct (handleHealthGet_result start_ms now_ms timestamp db)
          as (body & Hres); rewrite Hres; cbn;
        do 2 eexists; (split; [reflexivity|]); cbn;
        (split; [split; [discriminate|intros [_ H]; exfalso; apply H; by (left + right)]|]);
        (split; [split; [discriminate|intros [[[?|?] _]|[_ ?]]; done]|]);
        (split; [discriminate|]);
        (split; [by rewrite bool_decide_eq_false_2 by discriminate|]);
        done.
  1, 2: do 2 eexists; (split; [reflexivity|]); cbn;
        (split; [split; [discriminate|intros [_ H]; exfalso; apply H; by (left + right)]|]);
        (split; [split; [intros _; right; split; [by (left + right)|done]|done]|]);
        (split; [discriminate|]);
        (split; [rewrite bool_decide_eq_true_2 by done;
                 rewrite bool_decide_eq_false_2 by (by intros [?|?]); done|]);
        done.
  do 2 eexists. split; [reflexivity|]. cbn.
  split; [split; [intros _; split; by intros [?|?]|done]|].
  split; [split; [discriminate|intros [[[?|?] _]|[[?|?] _]]; done]|].
  split; [done|].
  split; [by rewrite bool_decide_eq_false_2 by discriminate|].
  done.
Qed.

(** A query string makes the path unknown, and a GET of the push
    endpoint is refused with the method it allows. *)
Example route_samples :
  res_status (reply_response (default (handle404 "")
     (match (route 0 0 "" (mkHttpRequest "/webhook?source=sheet" "POST"
                             (post sample_message)) empty_store).1
      with Ok r => Some r | _ => None end))) = 404%nat
  /\ (route 0 0 "" (mkHttpRequest "/webhook" "GET" (post sample_message)) empty_store).1
     = Ok (handle405 "GET" "/webhook" "POST").
Proof. split; by vm_compute. Qed.

Lemma getBackoffDelay_late a : (4 <= a)%nat -> getBackoffDelay a = 3600000%Z.
Proof.
  intros H. unfold getBackoffDelay.
  destruct (Nat.ltb_spec a (length BACKOFF_SCHEDULE)) as [Hlt|_]; [|reflexivity].
  simpl in Hlt. assert (a = 4)%nat as -> by lia. reflexivity.
Qed.

Lemma getBackoffDelay_early a :
  (a < 4)%nat ->
  getBackoffDelay a = nth a [10000; 30000; 60000; 300000]%Z 0%Z.
Proof.
  intros H. do 4 (destruct a as [|a]; [reflexivity|]). lia.
Qed.

Lemma getBackoffDelay_bounds a : (10000 <= getBackoffDelay a <= 3600000)%Z.
Proof.
  destruct (Nat.lt_ge_cases a 4) as [H|H].
  - rewrite getBackoffDelay_early by done.
    do 4 (destruct a as [|a]; [simpl; lia|]). lia.
  - rewrite getBackoffDelay_late by done. lia.
Qed.

Lemma getBackoffDelay_mono a b :
  (a <= b)%nat -> (getBackoffDelay a <= getBackoffDelay b)%Z.
Proof.
  intros Hab. destruct (Nat.lt_ge_cases b 4) as [Hb|Hb].
  - rewrite !getBackoffDelay_early by lia.
    do 4 (destruct b as [|b]; [do 4 (destruct a as [|a]; [simpl; lia|]); lia|]). lia.
  - rewrite (getBackoffDelay_late b) by done. apply getBackoffDelay_bounds.
Qed.

Lemma failures_from n : forall m,
  attemptCount (failures n m) = (attemptCount m + n)%nat
  /\ tunnels_started (failures n m) = (tunnels_started m + n)%nat
  /\ timers_set (failures n m)
     = timers_set m ++ map getBackoffDelay (seq (attemptCount m) n)
  /\ notifications (failures n m)
     = notifications m
       ++ map restart_notification
            (List.filter (fun a => (3 <=? a)%nat) (seq (attemptCount m) n)).
Proof.
  induction n as [|n IH]; intros m.
  - simpl. rewrite !app_nil_r. repeat split; lia.
  - cbn [failures]. destruct (IH (timer_fires (on_exit (Some 1%Z) None m)))
      as (H1 & H2 & H3 & H4).
    rewrite H1, H2, H3, H4. cbn [on_exit handleRestart timer_fires attemptCount
      tunnels_started timers_set notifications seq map List.filter].
    split; [lia|]. split; [lia|]. split; [by rewrite <- app_assoc|].
    destruct (3 <=? attemptCount m)%nat; [by rewrite <- app_assoc|done].
Qed.

(** X29: the restarts of the tunnel.  After [n] failed tunnels in a
    row the counter is [n] and [n + 1] tunnels have been started; the
    waits were those of the schedule in order, 10 seconds, 30 seconds, 1
    minute, 5 minutes and from then on always 1 hour, so they never
    decrease and the counter is never set back; a notification was sent
    for the fourth failure and every later one, and for none of the first
    three.  A tunnel that ends with exit code 0 and no signal is not
    restarted. *)
Theorem tunnel_restarts_follow_schedule n :
  attemptCount (failures n manager_started) = n
  /\ tunnels_started (failures n manager_started) = S n
  /\ timers_set (failures n manager_started) = map getBackoffDelay (seq 0 n)
  /\ notifications (failures n manager_started)
     = map restart_notification (List.filter (fun a => (3 <=? a)%nat) (seq 0 n))
  /\ (forall a, (10000 <= getBackoffDelay a <= 3600000)%Z)
  /\ (forall a b, (a <= b)%nat -> (getBackoffDelay a <= getBackoffDelay b)%Z)
  /\ (forall a, (4 <= a)%nat -> getBackoffDelay a = 3600000%Z)
  /\ map (fun a => formatDelay (getBackoffDelay a)) (seq 0 5)
     = ["10 seconds"; "30 seconds"; "1 minute"; "5 minutes"; "1 hour"]
  /\ (forall m, on_exit (Some 0%Z) None m = m).
Proof.
  destruct (failures_from n manager_started) as (H1 & H2 & H3 & H4).
  split; [by rewrite H1|]. split; [by rewrite H2|].
  split; [by rewrite H3|]. split; [by rewrite H4|].
  split; [apply getBackoffDelay_bounds|]. split; [apply getBackoffDelay_mono|].
  split; [apply getBackoffDelay_late|]. split; [by vm_compute|]. done.
Qed.

(** The notifications of six failures in a row. *)
Example tunnel_six_failures :
  notifications (failures 6 manager_started)
  = [ "Tunnel failed to create connection (after 5 minutes). Retrying in 5 minutes.";
      "Tunnel failed to create connection (attempt 5). Retrying in 1 hour.";
      "Tunnel failed to create connection (attempt 6). Retrying in 1 hour." ]
  /\ formatDelay 90000 = "1 minute" /\ formatDelay 999 = "0 second".
Proof. split; [|split]; by vm_compute. Qed.
